(** * swagger-to-csv: the schema-flattening engine

    A shallow embedding of [openAi_to_Excel.py] (the seven relation
    extractors and the URL synthesizer) and of the parameter merger of
    [openapi_to_csv.py], over the value a JSON parser hands to them.

    Python objects are a tagged union; every built-in the scripts call is a
    total function into an error monad whose failures are the exceptions the
    interpreter raises.  Loops that append to a list thread that list
    explicitly. *)

From Stdlib Require Import ZArith String Ascii List PrimFloat DecimalString.
From Stdlib Require Import Sorted.
From Stdlib Require OrderedTypeEx.
From stdpp Require Import base gmap strings list.

Local Open Scope string_scope.
Local Open Scope list_scope.
Local Open Scope Z_scope.

(** ** Parsed documents

    What [json.load] returns: [None], [bool], [int], [float], [str], [list]
    and [dict].  A [dict] keeps insertion order, which the extractors
    observe through [.items()], so it is an association list in document
    order; a parsed [dict] repeats no key, and no statement below needs
    that.  A character of a [str] is one [ascii]. *)

#[warnings="-register-all"]
Inductive value : Type :=
| VNone
| VBool (b : bool)
| VInt (n : Z)
| VFloat (f : float)
| VStr (s : string)
| VList (xs : list value)
| VDict (kvs : list (string * value)).

(** ** Exceptions and the error monad *)

Inductive exn : Type := AttributeError | TypeError | KeyError | IndexError.

Inductive result (A : Type) : Type :=
| Ok (a : A)
| Raise (e : exn).
Arguments Ok {A} a.
Arguments Raise {A} e.

Definition bind {A B : Type} (m : result A) (k : A -> result B) : result B :=
  match m with
  | Ok a => k a
  | Raise e => Raise e
  end.

Notation "x <- m ;; k" := (bind m (fun x => k))
  (at level 100, m at next level, right associativity,
   format "'[v' x  <-  m  ;; '/' k ']'").

(** [for x in xs: body], where the body updates the loop state [s] or
    raises. *)
Fixpoint for_each {A S : Type} (xs : list A) (body : A -> S -> result S) (s : S)
  : result S :=
  match xs with
  | [] => Ok s
  | x :: xs' => s' <- body x s ;; for_each xs' body s'
  end.

(** Sequential evaluation of [f] over a list, stopping at the first raise. *)
Fixpoint mapM {A B : Type} (f : A -> result B) (xs : list A) : result (list B) :=
  match xs with
  | [] => Ok []
  | x :: xs' => y <- f x ;; ys <- mapM f xs' ;; Ok (y :: ys)
  end.

(** ** Built-ins *)

(** [bool(v)]. *)
Definition truthy (v : value) : bool :=
  match v with
  | VNone => false
  | VBool b => b
  | VInt n => negb (n =? 0)
  | VFloat f => negb (PrimFloat.eqb f 0%float)
  | VStr s => negb (String.eqb s "")
  | VList xs => match xs with [] => false | _ => true end
  | VDict kvs => match kvs with [] => false | _ => true end
  end.

(** [a or b]. *)
Definition py_or (a b : value) : value := if truthy a then a else b.

Definition isinstance_dict (v : value) : bool :=
  match v with VDict _ => true | _ => false end.

Fixpoint dict_lookup (key : string) (kvs : list (string * value)) : option value :=
  match kvs with
  | [] => None
  | (k, v) :: kvs' => if String.eqb k key then Some v else dict_lookup key kvs'
  end.

(** [v.get(key, dflt)]: only a [dict] has the method. *)
Definition get (v : value) (key : string) (dflt : value) : result value :=
  match v with
  | VDict kvs => Ok (default dflt (dict_lookup key kvs))
  | _ => Raise AttributeError
  end.

(** [v.items()]. *)
Definition items (v : value) : result (list (string * value)) :=
  match v with
  | VDict kvs => Ok kvs
  | _ => Raise AttributeError
  end.

Fixpoint chars (s : string) : list value :=
  match s with
  | EmptyString => []
  | String c s' => VStr (String c EmptyString) :: chars s'
  end.

(** [for x in v]: the elements of a list, the characters of a string, the
    keys of a dict; nothing else is iterable. *)
Definition iter (v : value) : result (list value) :=
  match v with
  | VList xs => Ok xs
  | VStr s => Ok (chars s)
  | VDict kvs => Ok (map (fun kv => VStr (fst kv)) kvs)
  | _ => Raise TypeError
  end.

(** [len(v)]. *)
Definition len (v : value) : result Z :=
  match v with
  | VList xs => Ok (Z.of_nat (length xs))
  | VStr s => Ok (Z.of_nat (String.length s))
  | VDict kvs => Ok (Z.of_nat (length kvs))
  | _ => Raise TypeError
  end.

(** [v[0]]. *)
Definition index0 (v : value) : result value :=
  match v with
  | VList (x :: _) => Ok x
  | VList [] => Raise IndexError
  | VStr (String c _) => Ok (VStr (String c EmptyString))
  | VStr EmptyString => Raise IndexError
  | VDict _ => Raise KeyError
  | _ => Raise TypeError
  end.

(** [str.lower()] and [str.upper()] on the ASCII letters.  The scripts only
    test the lowered key for membership in a set of ASCII words and only
    upper-case keys that passed that test. *)
Definition ascii_lower (c : ascii) : ascii :=
  let n := N_of_ascii c in
  if ((65 <=? n) && (n <=? 90))%N then ascii_of_N (n + 32) else c.

Definition ascii_upper (c : ascii) : ascii :=
  let n := N_of_ascii c in
  if ((97 <=? n) && (n <=? 122))%N then ascii_of_N (n - 32) else c.

Fixpoint str_map (f : ascii -> ascii) (s : string) : string :=
  match s with
  | EmptyString => EmptyString
  | String c s' => String (f c) (str_map f s')
  end.

Definition lower : string -> string := str_map ascii_lower.
Definition upper : string -> string := str_map ascii_upper.

(** [sep.join(parts)] on strings. *)
Fixpoint str_join (sep : string) (parts : list string) : string :=
  match parts with
  | [] => ""
  | [p] => p
  | p :: rest => p +:+ sep +:+ str_join sep rest
  end.

(** [sep.join(v)] on a Python object: every element must be a [str]. *)
Definition join_strs (sep : string) (v : value) : result string :=
  xs <- iter v ;;
  parts <- mapM (fun x => match x with VStr s => Ok s | _ => Raise TypeError end) xs ;;
  Ok (str_join sep parts).

(** [str(n)] for an [int]. *)
Definition str_of_int (n : Z) : string := NilZero.string_of_int (Z.to_int n).

(** A row of a relation: the dict literal the extractor appends, columns in
    the order written. *)
Definition row : Type := list (string * value).

Definition column (name : string) (r : row) : value :=
  default VNone (dict_lookup name r).


(** ** Further built-ins, used by openapi_to_csv.py and merge_csv.py *)

Definition isinstance_list (v : value) : bool :=
  match v with VList _ => true | _ => false end.

(** [needle in hay] for two strings: the substring test. *)
Fixpoint is_substring (needle hay : string) : bool :=
  String.prefix needle hay
  || match hay with
     | EmptyString => false
     | String _ hay' => is_substring needle hay'
     end.

(** [key in v] for a string [key]: a key of a dict, an element of a list, a
    substring of a string; nothing else supports the test. *)
Definition py_in (key : string) (v : value) : result bool :=
  match v with
  | VDict kvs => Ok (match dict_lookup key kvs with Some _ => true | None => false end)
  | VList xs =>
      Ok (existsb (fun x => match x with VStr s => String.eqb s key | _ => false end) xs)
  | VStr s => Ok (is_substring key s)
  | _ => Raise TypeError
  end.

(** [v[key]] for a string [key]. *)
Definition subscript (v : value) (key : string) : result value :=
  match v with
  | VDict kvs =>
      match dict_lookup key kvs with
      | Some x => Ok x
      | None => Raise KeyError
      end
  | _ => Raise TypeError
  end.

(** [s.find(c)] and [s.rfind(c)] for a one-character [c]; [None] is -1. *)
Fixpoint find_char (c : ascii) (s : string) : option nat :=
  match s with
  | EmptyString => None
  | String c' s' =>
      if Ascii.eqb c c' then Some O
      else match find_char c s' with
           | Some i => Some (S i)
           | None => None
           end
  end.

Fixpoint rfind_char (c : ascii) (s : string) : option nat :=
  match s with
  | EmptyString => None
  | String c' s' =>
      match rfind_char c s' with
      | Some i => Some (S i)
      | None => if Ascii.eqb c c' then Some O else None
      end
  end.

(** [s[start:stop]] for [start <= stop]. *)
Definition slice (s : string) (start stop : nat) : string :=
  String.substring start (stop - start) s.

(** [s.endswith(suffix)]. *)
Fixpoint ends_with (suffix s : string) : bool :=
  String.eqb suffix s
  || match s with
     | EmptyString => false
     | String _ s' => ends_with suffix s'
     end.

(** The text of a cell that holds a string. *)
Definition cell_text (v : value) : string :=
  match v with VStr s => s | _ => "" end.

(** The order of Python tuples of three strings: the first components
    decide, then the second, then the third; strings compare character by
    character. *)
Definition key3 : Type := string * string * string.

Definition key_compare (a b : key3) : comparison :=
  match String.compare (fst (fst a)) (fst (fst b)) with
  | Eq => match String.compare (snd (fst a)) (snd (fst b)) with
          | Eq => String.compare (snd a) (snd b)
          | c => c
          end
  | c => c
  end.

Definition key_le (a b : key3) : Prop := key_compare a b <> Gt.

(** [rows.sort(key=...)].  The sort is stable, and the result of a stable
    sort is fixed by the order alone; here every row is put, in the order
    given, behind the rows that do not come after it. *)
Fixpoint insert_row (key : row -> key3) (r : row) (sorted : list row) : list row :=
  match sorted with
  | [] => [r]
  | x :: rest =>
      match key_compare (key x) (key r) with
      | Gt => r :: x :: rest
      | _ => x :: insert_row key r rest
      end
  end.

Definition sort_rows (key : row -> key3) (rows : list row) : list row :=
  fold_left (fun sorted r => insert_row key r sorted) rows [].

(** ** Sample documents

    [pet_doc] is the document of the specification's scenarios: a host, a
    base path, one scheme, a tagged [get] on [/pets], and a path
    [/pets/{id}] whose [id] parameter is declared on the path item and again
    on its [get]. *)

Definition id_param : value :=
  VDict [("name", VStr "id"); ("in", VStr "path"); ("required", VBool true);
         ("type", VStr "string")].

Definition pet_doc : value :=
  VDict [("swagger", VStr "2.0");
         ("host", VStr "api.example.com");
         ("basePath", VStr "/v1");
         ("schemes", VList [VStr "http"]);
         ("paths",
          VDict [("/pets",
                  VDict [("get",
                          VDict [("tags", VList [VStr "Pets"]);
                                 ("responses", VDict [("200", VDict [])])])]);
                 ("/pets/{id}",
                  VDict [("parameters", VList [id_param]);
                         ("get",
                          VDict [("parameters", VList [id_param]);
                                 ("responses",
                                  VDict [("200", VDict []);
                                         ("404", VDict [])])])])])].

(** A document without a host, with a document-level security default, one
    operation that overrides it, one that switches it off with an empty
    list, and one that declares nothing. *)
Definition secured_doc : value :=
  VDict [("security", VList [VDict [("api_key", VList [])]]);
         ("paths",
          VDict [("/orders",
                  VDict [("get", VDict [("security", VList [])]);
                         ("post", VDict []);
                         ("put",
                          VDict [("security",
                                  VList [VDict [("oauth",
                                                 VList [VStr "read";
                                                        VStr "write"])]])])])])].

(** A document-level security default and one operation that declares no
    security of its own. *)
Definition inherited_security_doc : value :=
  VDict [("security", VList [VDict [("api_key", VList [])]]);
         ("paths", VDict [("/orders", VDict [("post", VDict [])])])].

(** An operation whose first tag is the empty string. *)
Definition empty_tag_doc : value :=
  VDict [("paths",
          VDict [("/a", VDict [("get", VDict [("tags", VList [VStr ""])])])])].

(** A path item with the same verb under two spellings. *)
Definition case_variant_doc : value :=
  VDict [("paths",
          VDict [("/a",
                  VDict [("get",
                          VDict [("parameters",
                                  VList [VDict [("name", VStr "x");
                                                ("in", VStr "query")]])]);
                         ("GET", VDict [])])])].

(** Documents with one unit that is not a mapping: a parameter, a tag, a
    model, and a parameter list that is a number. *)
Definition bad_parameter_doc : value :=
  VDict [("paths",
          VDict [("/a", VDict [("get", VDict [("parameters", VList [VStr "id"])])]);
                 ("/b", VDict [("get", VDict [])])])].

Definition bad_tag_doc : value :=
  VDict [("tags", VList [VStr "pets"; VDict [("name", VStr "store")]])].

Definition bad_model_doc : value :=
  VDict [("definitions", VDict [("Pet", VStr "object"); ("Order", VDict [])])].

Definition bad_parameter_list_doc : value :=
  VDict [("paths",
          VDict [("/a", VDict [("get", VDict [("parameters", VInt 3)])])])].

(** Two parameters with one name and two locations whose descriptions
    coincide. *)
Definition paren_param_1 : value :=
  VDict [("name", VStr "a"); ("in", VStr "q"); ("type", VStr "x) : y")].

Definition paren_param_2 : value :=
  VDict [("name", VStr "a"); ("in", VStr "q) : x"); ("type", VStr "y")].

(** Two parameters with one name whose locations differ as values, null and
    the string [None], and have the same text. *)
Definition null_location_param : value :=
  VDict [("name", VStr "a"); ("in", VNone)].

Definition none_location_param : value :=
  VDict [("name", VStr "a"); ("in", VStr "None")].

(** A document with the three catalogues of the scenarios: two tags, two
    security schemes, and the model [Pet] with its two properties. *)
Definition catalog_doc : value :=
  VDict [("tags", VList [VDict [("name", VStr "pets")];
                         VDict [("name", VStr "store")]]);
         ("securityDefinitions",
          VDict [("oauth", VDict [("type", VStr "oauth2");
                                  ("scopes", VDict [("read", VStr "read pets")])]);
                 ("api_key", VDict [("type", VStr "apiKey")])]);
         ("definitions",
          VDict [("Pet",
                  VDict [("type", VStr "object");
                         ("properties",
                          VDict [("name", VDict [("type", VStr "string")]);
                                 ("tags",
                                  VDict [("type", VStr "array");
                                         ("items",
                                          VDict [("type", VStr "string")])])])]);
                 ("Order", VDict [("type", VStr "object")])])].

Definition id_query_param : value :=
  VDict [("name", VStr "id"); ("in", VStr "query")].

(** A path item and an operation slot that are no mappings, next to a
    well-formed sibling. *)
Definition skipped_units_doc : value :=
  VDict [("paths",
          VDict [("/broken", VStr "not a path item");
                 ("/a", VDict [("summary", VStr "shared"); ("get", VInt 7);
                               ("post", VDict [("responses",
                                                VDict [("200", VStr "ok");
                                                       ("404", VDict [])])])])])].

(** An interpreter to evaluate the samples with: strings without quotes,
    backslashes or control characters, which [repr] wraps in single quotes;
    no float occurs in a sample; the verb set laid out as written, or
    reversed. *)
Definition quoted (s : string) : string := "'" +:+ s +:+ "'".
Definition no_float (f : float) : string := "nan".
Definition as_written (l : list string) : list string := l.
Definition reversed (l : list string) : list string := rev l.

(** A path item with a trace operation in front of a get, and a document
    with a servers list. *)
Definition trace_doc : value :=
  VDict [("paths",
          VDict [("/a", VDict [("trace", VDict []); ("get", VDict [])])])].

Definition servers_doc : value :=
  VDict [("host", VStr "ignored.example.com");
         ("servers", VList [VDict [("url", VStr "https://a.example.com")];
                            VDict [("description", VStr "no url")]])].

(** Serializers and a parser for the samples: one for the samples in which
    no operation declares security, so that it is never asked, and one that
    answers a marker, so that an empty cell cannot be its answer; the parser
    takes the empty object and nothing else. *)
Definition unused_dumps (v : value) : string := "".
Definition any_dumps (v : value) : string := "<json>".
Definition only_empty_object (raw : string) : option value :=
  if String.eqb raw "{}" then Some (VDict []) else None.

(** A directory with two CSV files, an empty one, and a text file. *)
Definition sample_listing : list string := ["a.csv"; "notes.txt"; "empty.csv"; "B.CSV"].
Definition sample_read (file : string) : list (list string) :=
  if String.eqb file "a.csv" then [["id"; "name"]; ["1"; "x"]]
  else if String.eqb file "B.CSV" then [["ID"; "other"]; ["2"; "y"]; ["3"; "z"]]
  else [].

(** ** What belongs to the interpreter

    Three things the scripts use are the interpreter's and not theirs:
    [repr] of a [float], [repr] of a [str] (quoting and escapes), and the
    order in which a [set] object holds its elements, which follows the
    per-process hash seed.  The development is parametric in all three. *)

Section Interpreter.

Set Default Proof Using "Type".

Variable repr_float : float -> string.
Variable repr_str : string -> string.
Variable set_literal : list string -> list string.

(** [repr(v)]. *)
Fixpoint py_repr (v : value) : string :=
  match v with
  | VNone => "None"
  | VBool true => "True"
  | VBool false => "False"
  | VInt n => str_of_int n
  | VFloat f => repr_float f
  | VStr s => repr_str s
  | VList xs => "[" +:+ str_join ", " (map py_repr xs) +:+ "]"
  | VDict kvs =>
      "{" +:+ str_join ", "
                (map (fun kv => repr_str (fst kv) +:+ ": " +:+ py_repr (snd kv)) kvs)
          +:+ "}"
  end.

(** [str(v)], which is also what an f-string field [{v}] renders. *)
Definition py_str (v : value) : string :=
  match v with
  | VStr s => s
  | _ => py_repr v
  end.

(** [x in s] for a set [s]. *)
Definition set_contains (x : string) (s : list string) : bool :=
  bool_decide (x ∈ s).

(** ** openAi_to_Excel.py *)

Definition list_http_methods : list string :=
  set_literal ["get"; "put"; "post"; "delete"; "options"; "head"; "patch"].

Definition safe_get (d : value) (key : string) (dflt : value) : result value :=
  v <- get d key dflt ;;
  Ok (match v with VNone => dflt | _ => v end).

Definition default_sep : string := ", ".

Definition join_or_none (values : value) (sep : string) : result value :=
  if negb (truthy values) then Ok VNone
  else xs <- iter values ;; Ok (VStr (str_join sep (map py_str xs))).

Definition build_full_url_template (schemes host base_path : value) (path : string)
  : result value :=
  if negb (truthy host) then Ok VNone
  else
    scheme <- (if truthy schemes then index0 schemes else Ok (VStr "https")) ;;
    let bp := py_or base_path (VStr "") in
    Ok (VStr (py_str scheme +:+ "://" +:+ py_str host +:+ py_str bp +:+ path)).

(** [tags[0] if tags else None]. *)
Definition first_tag (tags : value) : result value :=
  if truthy tags then index0 tags else Ok VNone.

(** Lines 72-78: the rendered requirement list [security_flat]. *)
Definition flatten_security (security : value) : result (list string) :=
  secs <- iter (py_or security (VList [])) ;;
  for_each secs (fun sec security_flat =>
    kvs <- items sec ;;
    for_each kvs (fun '(scheme, scopes) security_flat =>
      if truthy scopes then
        joined <- join_strs ", " scopes ;;
        Ok (security_flat ++ [scheme +:+ "(" +:+ joined +:+ ")"])
      else Ok (security_flat ++ [scheme]))
    security_flat) [].

(** Lines 64-95: the row [extract_endpoints] appends for one operation. *)
Definition endpoint_row (sw schemes host base_path : value) (path : string)
    (path_level_params : value) (method : string) (op : value) : result row :=
  tags <- get op "tags" (VList []) ;;
  api_group <- first_tag tags ;;
  sw_consumes <- get sw "consumes" VNone ;;
  consumes <- get op "consumes" sw_consumes ;;
  sw_produces <- get sw "produces" VNone ;;
  produces <- get op "produces" sw_produces ;;
  sw_security <- get sw "security" (VList []) ;;
  security <- get op "security" sw_security ;;
  security_flat <- flatten_security security ;;
  tags_joined <- join_or_none tags default_sep ;;
  operation_id <- get op "operationId" VNone ;;
  summary <- get op "summary" VNone ;;
  description <- get op "description" VNone ;;
  deprecated <- get op "deprecated" (VBool false) ;;
  full_url <- build_full_url_template schemes host base_path path ;;
  consumes_joined <- join_or_none consumes default_sep ;;
  produces_joined <- join_or_none produces default_sep ;;
  op_params <- get op "parameters" (VList []) ;;
  n_op <- len op_params ;;
  n_path <- len path_level_params ;;
  op_responses <- get op "responses" (VDict []) ;;
  n_resp <- len op_responses ;;
  security_joined <- join_or_none (VList (map VStr security_flat)) default_sep ;;
  Ok [("api_group", api_group);
      ("tags", tags_joined);
      ("operationId", operation_id);
      ("summary", summary);
      ("description", description);
      ("deprecated", deprecated);
      ("method", VStr (upper method));
      ("path", VStr path);
      ("full_url_template", full_url);
      ("consumes", consumes_joined);
      ("produces", produces_joined);
      ("parameters_count", VInt (n_op + n_path));
      ("responses_count", VInt n_resp);
      ("security", security_joined)].

(** The guard of every operation loop:
    [method.lower() not in list_http_methods() or not isinstance(op, dict)]. *)
Definition not_an_operation (method : string) (op : value) : bool :=
  negb (set_contains (lower method) list_http_methods) || negb (isinstance_dict op).

Definition extract_endpoints (sw : value) : result (list row) :=
  base_path <- get sw "basePath" VNone ;;
  host <- get sw "host" VNone ;;
  schemes <- get sw "schemes" (VList []) ;;
  paths <- get sw "paths" (VDict []) ;;
  path_items <- items paths ;;
  for_each path_items (fun '(path, path_item) rows =>
    if negb (isinstance_dict path_item) then Ok rows
    else
      path_level_params <- get path_item "parameters" (VList []) ;;
      ops <- items path_item ;;
      for_each ops (fun '(method, op) rows =>
        if not_an_operation method op then Ok rows
        else
          r <- endpoint_row sw schemes host base_path path path_level_params method op ;;
          Ok (rows ++ [r]))
      rows) [].

(** Lines 133-154: the row for one parameter [p] of an operation. *)
Definition parameter_row (api_group operation_id : value) (method path : string)
    (p : value) : result row :=
  schema <- get p "schema" VNone ;;
  items_ <- get p "items" VNone ;;
  enum_vals <- get p "enum" VNone ;;
  name <- get p "name" VNone ;;
  loc <- get p "in" VNone ;;
  description <- get p "description" VNone ;;
  required <- get p "required" (VBool false) ;;
  type <- get p "type" VNone ;;
  format <- get p "format" VNone ;;
  collection_format <- get p "collectionFormat" VNone ;;
  items_type <- safe_get (py_or items_ (VDict [])) "type" VNone ;;
  items_format <- safe_get (py_or items_ (VDict [])) "format" VNone ;;
  enum <- join_or_none enum_vals default_sep ;;
  ref <- safe_get (py_or schema (VDict [])) "$ref" VNone ;;
  schema_type <- safe_get (py_or schema (VDict [])) "type" VNone ;;
  Ok [("api_group", api_group);
      ("operationId", operation_id);
      ("method", VStr (upper method));
      ("path", VStr path);
      ("name", name);
      ("in", loc);
      ("description", description);
      ("required", required);
      ("type", type);
      ("format", format);
      ("collectionFormat", collection_format);
      ("items_type", items_type);
      ("items_format", items_format);
      ("enum", enum);
      ("$ref", ref);
      ("schema_type", schema_type)].

Definition extract_parameters (sw : value) : result (list row) :=
  paths <- get sw "paths" (VDict []) ;;
  path_items <- items paths ;;
  for_each path_items (fun '(path, path_item) rows =>
    if negb (isinstance_dict path_item) then Ok rows
    else
      path_level_params <- get path_item "parameters" (VList []) ;;
      ops <- items path_item ;;
      for_each ops (fun '(method, op) rows =>
        if not_an_operation method op then Ok rows
        else
          tags <- get op "tags" (VList []) ;;
          api_group <- first_tag tags ;;
          operation_id <- get op "operationId" VNone ;;
          from_path <- iter path_level_params ;;
          op_params <- get op "parameters" (VList []) ;;
          from_op <- iter op_params ;;
          let params := from_path ++ from_op in
          for_each params (fun p rows =>
            r <- parameter_row api_group operation_id method path p ;;
            Ok (rows ++ [r]))
          rows)
      rows) [].

(** Lines 177-190: the row for one response [resp] that is a dict. *)
Definition response_row (api_group operation_id : value) (method path code : string)
    (resp : value) : result row :=
  declared_schema <- get resp "schema" VNone ;;
  let schema := py_or declared_schema (VDict []) in
  description <- get resp "description" VNone ;;
  schema_type <- get schema "type" VNone ;;
  schema_format <- get schema "format" VNone ;;
  schema_ref <- get schema "$ref" VNone ;;
  items_1 <- get schema "items" (VDict []) ;;
  schema_items_type <- safe_get items_1 "type" VNone ;;
  items_2 <- get schema "items" (VDict []) ;;
  schema_items_ref <- safe_get items_2 "$ref" VNone ;;
  Ok [("api_group", api_group);
      ("operationId", operation_id);
      ("method", VStr (upper method));
      ("path", VStr path);
      ("status_code", VStr code);
      ("description", description);
      ("schema_type", schema_type);
      ("schema_format", schema_format);
      ("schema_$ref", schema_ref);
      ("schema_items_type", schema_items_type);
      ("schema_items_$ref", schema_items_ref)].

Definition extract_responses (sw : value) : result (list row) :=
  paths <- get sw "paths" (VDict []) ;;
  path_items <- items paths ;;
  for_each path_items (fun '(path, path_item) rows =>
    if negb (isinstance_dict path_item) then Ok rows
    else
      ops <- items path_item ;;
      for_each ops (fun '(method, op) rows =>
        if not_an_operation method op then Ok rows
        else
          tags <- get op "tags" (VList []) ;;
          api_group <- first_tag tags ;;
          operation_id <- get op "operationId" VNone ;;
          responses <- get op "responses" (VDict []) ;;
          coded <- items responses ;;
          for_each coded (fun '(code, resp) rows =>
            if negb (isinstance_dict resp) then Ok rows
            else
              r <- response_row api_group operation_id method path code resp ;;
              Ok (rows ++ [r]))
          rows)
      rows) [].

(** Lines 198-203: the row for one tag. *)
Definition tag_row (t : value) : result row :=
  name <- get t "name" VNone ;;
  description <- get t "description" VNone ;;
  docs_1 <- get t "externalDocs" (VDict []) ;;
  docs_description <- safe_get docs_1 "description" VNone ;;
  docs_2 <- get t "externalDocs" (VDict []) ;;
  docs_url <- safe_get docs_2 "url" VNone ;;
  Ok [("name", name);
      ("description", description);
      ("externalDocs_description", docs_description);
      ("externalDocs_url", docs_url)].

Definition extract_tags (sw : value) : result (list row) :=
  tags <- get sw "tags" (VList []) ;;
  ts <- iter tags ;;
  for_each ts (fun t rows => r <- tag_row t ;; Ok (rows ++ [r])) [].

(** Lines 211-221: the row for one security scheme. *)
Definition security_row (name : string) (s : value) : result row :=
  scopes <- get s "scopes" (VDict []) ;;
  type <- get s "type" VNone ;;
  loc <- get s "in" VNone ;;
  name_in_header <- get s "name" VNone ;;
  flow <- get s "flow" VNone ;;
  authorization_url <- get s "authorizationUrl" VNone ;;
  token_url <- get s "tokenUrl" VNone ;;
  scope_items <- items scopes ;;
  scopes_joined <-
    join_or_none
      (VList (map (fun '(k, v) => VStr (k +:+ ":" +:+ py_str v)) scope_items))
      default_sep ;;
  Ok [("name", VStr name);
      ("type", type);
      ("in", loc);
      ("name_in_header", name_in_header);
      ("flow", flow);
      ("authorizationUrl", authorization_url);
      ("tokenUrl", token_url);
      ("scopes", scopes_joined)].

Definition extract_securities (sw : value) : result (list row) :=
  declared <- get sw "securityDefinitions" (VDict []) ;;
  let secs := py_or declared (VDict []) in
  named <- items secs ;;
  for_each named (fun '(name, s) rows =>
    r <- security_row name s ;; Ok (rows ++ [r])) [].

(** Lines 245-262: the row for one property of a model. *)
Definition property_row (model_name prop_name : string) (prop : value) : result row :=
  items_ <- get prop "items" VNone ;;
  xmlp <- get prop "xml" (VDict []) ;;
  enum_vals <- get prop "enum" VNone ;;
  type <- get prop "type" VNone ;;
  format <- get prop "format" VNone ;;
  description <- get prop "description" VNone ;;
  enum <- join_or_none enum_vals default_sep ;;
  items_type <- safe_get (py_or items_ (VDict [])) "type" VNone ;;
  items_format <- safe_get (py_or items_ (VDict [])) "format" VNone ;;
  items_ref <- safe_get (py_or items_ (VDict [])) "$ref" VNone ;;
  ref <- get prop "$ref" VNone ;;
  xml_name <- get xmlp "name" VNone ;;
  xml_wrapped <- safe_get xmlp "wrapped" VNone ;;
  example <- get prop "example" VNone ;;
  Ok [("model_name", VStr model_name);
      ("property_name", VStr prop_name);
      ("type", type);
      ("format", format);
      ("description", description);
      ("enum", enum);
      ("items_type", items_type);
      ("items_format", items_format);
      ("items_$ref", items_ref);
      ("$ref", ref);
      ("xml_name", xml_name);
      ("xml_wrapped", xml_wrapped);
      ("example", example)].

(** Lines 233-241: the row for one model. *)
Definition model_row (model_name : string) (model : value) : result row :=
  required <- get model "required" (VList []) ;;
  xml <- get model "xml" (VDict []) ;;
  type <- get model "type" VNone ;;
  xml_name <- get xml "name" VNone ;;
  description <- get model "description" VNone ;;
  required_fields <- join_or_none required default_sep ;;
  Ok [("model_name", VStr model_name);
      ("type", type);
      ("xml_name", xml_name);
      ("description", description);
      ("required_fields", required_fields)].

(** Lines 243-262: the property rows of one model. *)
Definition model_property_rows (model_name : string) (model : value)
  : result (list row) :=
  declared_props <- get model "properties" (VDict []) ;;
  let props := py_or declared_props (VDict []) in
  named_props <- items props ;;
  mapM (fun np => property_row model_name (fst np) (snd np)) named_props.

Definition extract_models_and_properties (sw : value)
  : result (list row * list row) :=
  declared <- get sw "definitions" (VDict []) ;;
  let defs := py_or declared (VDict []) in
  named <- items defs ;;
  for_each named (fun '(model_name, model) '(model_rows, prop_rows) =>
    m <- model_row model_name model ;;
    let model_rows := model_rows ++ [m] in
    declared_props <- get model "properties" (VDict []) ;;
    let props := py_or declared_props (VDict []) in
    named_props <- items props ;;
    prop_rows <- for_each named_props (fun '(prop_name, prop) prop_rows =>
                   r <- property_row model_name prop_name prop ;;
                   Ok (prop_rows ++ [r]))
                 prop_rows ;;
    Ok (model_rows, prop_rows)) ([], []).

(** The seven relations [export_tables] computes from the parsed document
    before it writes them out. *)
Record tables : Type := Tables {
  endpoints : list row;
  parameters : list row;
  responses : list row;
  tags : list row;
  securities : list row;
  models : list row;
  model_props : list row
}.

Definition export_tables (sw : value) : result tables :=
  e <- extract_endpoints sw ;;
  p <- extract_parameters sw ;;
  r <- extract_responses sw ;;
  t <- extract_tags sw ;;
  s <- extract_securities sw ;;
  mp <- extract_models_and_properties sw ;;
  Ok (Tables e p r t s (fst mp) (snd mp)).

(** ** openapi_to_csv.py: the parameter merger *)

(** [key in p]. *)
Definition contains_key (key : string) (p : value) : bool :=
  match p with
  | VDict kvs => bool_decide (is_Some (dict_lookup key kvs))
  | _ => false
  end.

(** Lines 32-44: the rendered description of one parameter that is a dict.
    [p["schema"]] is read only after [p.get("schema")] was seen to be a
    dict, so it is that same value. *)
Definition render_param (p : value) : result string :=
  name <- get p "name" (VStr "") ;;
  loc <- get p "in" (VStr "") ;;
  required <- get p "required" (VBool false) ;;
  schema <- get p "schema" VNone ;;
  typ <- (if isinstance_dict schema then get schema "type" (VStr "")
          else if contains_key "type" p then get p "type" (VStr "")
          else Ok (VStr "")) ;;
  let star := if truthy required then "*" else "" in
  if truthy typ then
    Ok (py_str name +:+ " (" +:+ py_str loc +:+ ")" +:+ star +:+ " : " +:+ py_str typ)
  else
    Ok (py_str name +:+ " (" +:+ py_str loc +:+ ")" +:+ star).

(** Lines 27-44: every dict of the path-level collection, then every dict of
    the operation-level one, rendered. *)
Definition rendered_params (op_level path_level : value) : result (list string) :=
  for_each [py_or path_level (VList []); py_or op_level (VList [])]
    (fun coll params =>
       ps <- iter coll ;;
       for_each ps (fun p params =>
         if negb (isinstance_dict p) then Ok params
         else r <- render_param p ;; Ok (params ++ [r]))
       params) [].

(** Lines 46-51: de-dup while preserving order. *)
Definition dedup_step (st : gset string * list string) (x : string)
  : gset string * list string :=
  let '(seen, uniq) := st in
  if bool_decide (x ∈ seen) then (seen, uniq) else ({[x]} ∪ seen, uniq ++ [x]).

Definition dedup_preserving_order (params : list string) : list string :=
  snd (fold_left dedup_step params (∅, [])).

(** The list [uniq] that [collect_params] joins. *)
Definition merged_params (op_level path_level : value) : result (list string) :=
  params <- rendered_params op_level path_level ;;
  Ok (dedup_preserving_order params).

Definition collect_params (op_level path_level : value) : result string :=
  uniq <- merged_params op_level path_level ;;
  Ok (str_join "; " uniq).

(** ** openapi_to_csv.py: the rest of the script

    [json.dumps] and [json.loads] are the library's; [json_loads] gives
    [None] where [json.loads] raises [JSONDecodeError]. *)

Variable json_dumps : value -> string.
Variable json_loads : string -> option value.

Definition HTTP_METHODS : list string :=
  set_literal ["get"; "post"; "put"; "patch"; "delete"; "options"; "head"; "trace"].

(** [load_json], from the text [raw] read from the file on. *)
Definition load_json (raw : string) : option value :=
  match json_loads raw with
  | Some v => Some v
  | None =>
      match find_char "{" raw, rfind_char "}" raw with
      | Some start, Some stop =>
          if (start <? stop)%nat then json_loads (slice raw start (S stop))
          else None
      | _, _ => None
      end
  end.

Definition join_tags (tags : value) : string :=
  match tags with
  | VList ts => str_join "; " (map py_str ts)
  | _ => if truthy tags then py_str tags else ""
  end.

Definition get_request_body (op : value) : result string :=
  rb <- get op "requestBody" VNone ;;
  if negb (isinstance_dict rb) then Ok ""
  else
    required <- get rb "required" VNone ;;
    let req := if truthy required then "required" else "optional" in
    content <- get rb "content" (VDict []) ;;
    if isinstance_dict content && truthy content then
      media_types <- items content ;;
      let media := str_join ", " (take 5 (map fst media_types)) in
      if negb (String.eqb media "") then Ok (req +:+ " (" +:+ media +:+ ")")
      else Ok req
    else Ok req.

Definition get_responses (op : value) : result string :=
  responses <- get op "responses" (VDict []) ;;
  if isinstance_dict responses then
    coded <- items responses ;;
    Ok (str_join ", " (map fst coded))
  else Ok "".

Definition detect_servers (spec : value) : result (list value) :=
  has_servers <- py_in "servers" spec ;;
  use_servers <- (if has_servers then
                    servers <- subscript spec "servers" ;;
                    Ok (isinstance_list servers)
                  else Ok false) ;;
  if use_servers then
    servers <- subscript spec "servers" ;;
    ss <- iter servers ;;
    mapM (fun s => get s "url" (VStr "")) ss
  else
    has_host <- py_in "host" spec ;;
    if has_host then
      schemes <- get spec "schemes" VNone ;;
      declared_scheme <- (if isinstance_list schemes then
                            again <- subscript spec "schemes" ;;
                            Ok (truthy again)
                          else Ok false) ;;
      scheme <- (if declared_scheme then
                   again <- subscript spec "schemes" ;;
                   index0 again
                 else Ok (VStr "https")) ;;
      base <- get spec "basePath" (VStr "") ;;
      host <- subscript spec "host" ;;
      Ok [VStr (py_str scheme +:+ "://" +:+ py_str host +:+ py_str base)]
    else Ok [].

(** Lines 104-125 of [main]: the row for one operation. *)
Definition operation_csv_row (path : string) (path_params : value) (method : string)
    (op : value) : result row :=
  declared_tags <- get op "tags" VNone ;;
  let tags := py_or declared_tags (VList []) in
  declared_summary <- get op "summary" VNone ;;
  let summary := py_or declared_summary (VStr "") in
  declared_description <- get op "description" VNone ;;
  let description := py_or declared_description (VStr "") in
  declared_id <- get op "operationId" VNone ;;
  let operation_id := py_or declared_id (VStr "") in
  declared_deprecated <- get op "deprecated" (VBool false) ;;
  let deprecated := truthy declared_deprecated in
  security <- get op "security" (VList []) ;;
  op_params <- get op "parameters" VNone ;;
  params_joined <- collect_params op_params path_params ;;
  req_body <- get_request_body op ;;
  status_codes <- get_responses op ;;
  Ok [("API Group (tags)", VStr (join_tags tags));
      ("Method", VStr (upper method));
      ("Path", VStr path);
      ("Summary", summary);
      ("Description", description);
      ("OperationId", operation_id);
      ("Deprecated", VStr (if deprecated then "true" else "false"));
      ("Auth (security)", VStr (if truthy security then json_dumps security else ""));
      ("Parameters", VStr params_joined);
      ("RequestBody", VStr req_body);
      ("Responses", VStr status_codes)].

(** Lines 93-125 of [main]: the rows in document order, before the sort. *)
Definition main_rows (spec : value) : result (list row) :=
  paths <- get spec "paths" (VDict []) ;;
  path_items <- items paths ;;
  for_each path_items (fun '(path, methods) rows =>
    if negb (isinstance_dict methods) then Ok rows
    else
      declared_params <- get methods "parameters" VNone ;;
      path_params <- (if isinstance_list declared_params
                      then get methods "parameters" (VList [])
                      else Ok (VList [])) ;;
      ops <- items methods ;;
      for_each ops (fun '(method, op) rows =>
        if negb (set_contains (lower method) HTTP_METHODS) then Ok rows
        else if negb (isinstance_dict op) then Ok rows
        else r <- operation_csv_row path path_params method op ;; Ok (rows ++ [r]))
      rows) [].

(** The key of line 129. *)
Definition csv_sort_key (r : row) : key3 :=
  (cell_text (column "API Group (tags)" r),
   cell_text (column "Path" r),
   cell_text (column "Method" r)).

(** [main] from the parsed [spec] on, up to the rows handed to the CSV
    writer, with the version and the server URLs it prints. *)
Definition main (spec : value) : result (value * list value * list row) :=
  openapi <- get spec "openapi" VNone ;;
  version <- (if truthy openapi then Ok openapi
              else swagger <- get spec "swagger" VNone ;;
                   Ok (py_or swagger (VStr "unknown"))) ;;
  servers <- detect_servers spec ;;
  rows <- main_rows spec ;;
  Ok (version, servers, sort_rows csv_sort_key rows).

(** ** merge_csv.py

    [merge_csv_files] over the directory listing and what the reader of each
    file yields (its rows, the header first); the result is the rows handed
    to the writer.  The loop state is [header_written] and those rows.

    The script opens [output_file] for writing before its loop and in the
    directory it has just listed, so a listed name can be the file being
    written (after an earlier run, say).  Whether a listed name and
    [output_file] are one file is the file system's to say ([same_file]).
    Such a file was truncated by the [open]: while nothing has been written
    the reader finds it empty and the loop continues.  Once a header has been
    written, what the reader finds in it depends on what has left the
    writer's buffer, and the file grows as its own rows are copied back into
    it; the run may not return.  That case is not given a result: the outcome
    is [Reads_own_output]. *)
Inductive merge_outcome : Type :=
  | Written (rows : list (list string))
  | Reads_own_output.

(** The loop body for a file that is not the one being written. *)
Definition merge_step (read : string -> list (list string))
    (st : bool * list (list string)) (file : string) : bool * list (list string) :=
  let '(header_written, written) := st in
  match read file with
  | [] => st
  | header :: data =>
      let written := if header_written then written
                     else written ++ [("SourceFile" :: header)] in
      (true, written ++ map (fun r => file :: r) data)
  end.

(** The loop body for any listed file; [None] once the run has started to
    read what it writes. *)
Definition merge_file (same_file : string -> string -> bool) (output_file : string)
    (read : string -> list (list string))
    (st : option (bool * list (list string))) (file : string)
  : option (bool * list (list string)) :=
  match st with
  | None => None
  | Some (header_written, written) =>
      if same_file file output_file then
        if header_written then None else Some (header_written, written)
      else Some (merge_step read (header_written, written) file)
  end.

Definition merge_csv_files (same_file : string -> string -> bool) (output_file : string)
    (listing : list string) (read : string -> list (list string)) : merge_outcome :=
  let csv_files := filter (fun f => ends_with ".csv" (lower f)) listing in
  match fold_left (merge_file same_file output_file read) csv_files (Some (false, [])) with
  | Some (_, written) => Written written
  | None => Reads_own_output
  end.

(** ** The operations of a document

    The unit most relations are keyed on, read off the document in its own
    order: for each path whose item is a mapping, each entry of the item that
    the operation guard lets through. *)

Record operation : Type := Operation {
  op_path : string;
  op_path_item : value;
  op_method : string;
  op_body : value
}.

Definition operations_of_path (path : string) (path_item : value) : list operation :=
  match path_item with
  | VDict ops =>
      flat_map (fun '(method, op) =>
                  if not_an_operation method op then []
                  else [Operation path path_item method op]) ops
  | _ => []
  end.

Definition declared_paths (sw : value) : list (string * value) :=
  match sw with
  | VDict top =>
      match default (VDict []) (dict_lookup "paths" top) with
      | VDict path_items => path_items
      | _ => []
      end
  | _ => []
  end.

Definition operations (sw : value) : list operation :=
  flat_map (fun '(path, path_item) => operations_of_path path path_item)
           (declared_paths sw).

(** The traversal the three operation-keyed extractors share: visit the
    operations in document order and append what [per_op] yields for each. *)
Definition walk_operations {B : Type} (per_op : operation -> result (list B))
    (sw : value) : result (list B) :=
  paths <- get sw "paths" (VDict []) ;;
  path_items <- items paths ;;
  for_each path_items (fun '(path, path_item) rows =>
    if negb (isinstance_dict path_item) then Ok rows
    else
      ops <- items path_item ;;
      for_each ops (fun '(method, op) rows =>
        if not_an_operation method op then Ok rows
        else ys <- per_op (Operation path path_item method op) ;; Ok (rows ++ ys))
      rows) [].

(** The endpoints row of one operation, with the document-level fields read
    as [extract_endpoints] reads them before its loop. *)
Definition operation_row (sw : value) (o : operation) : result row :=
  base_path <- get sw "basePath" VNone ;;
  host <- get sw "host" VNone ;;
  schemes <- get sw "schemes" (VList []) ;;
  path_level_params <- get (op_path_item o) "parameters" (VList []) ;;
  endpoint_row sw schemes host base_path (op_path o) path_level_params
               (op_method o) (op_body o).

(** The parameters an operation carries: the path item's, then its own. *)
Definition operation_params (o : operation) : result (list value) :=
  path_level_params <- get (op_path_item o) "parameters" (VList []) ;;
  from_path <- iter path_level_params ;;
  op_params <- get (op_body o) "parameters" (VList []) ;;
  from_op <- iter op_params ;;
  Ok (from_path ++ from_op).

(** The parameter rows of one operation. *)
Definition operation_parameter_rows (o : operation) : result (list row) :=
  tags <- get (op_body o) "tags" (VList []) ;;
  api_group <- first_tag tags ;;
  operation_id <- get (op_body o) "operationId" VNone ;;
  params <- operation_params o ;;
  mapM (parameter_row api_group operation_id (op_method o) (op_path o)) params.

(** The responses of an operation that are mappings, by status code. *)
Definition operation_responses (o : operation) : result (list (string * value)) :=
  responses <- get (op_body o) "responses" (VDict []) ;;
  coded <- items responses ;;
  Ok (filter (fun cr => isinstance_dict (snd cr)) coded).

(** The response rows of one operation. *)
Definition operation_response_rows (o : operation) : result (list row) :=
  tags <- get (op_body o) "tags" (VList []) ;;
  api_group <- first_tag tags ;;
  operation_id <- get (op_body o) "operationId" VNone ;;
  coded <- operation_responses o ;;
  mapM (fun cr => response_row api_group operation_id (op_method o) (op_path o)
                               (fst cr) (snd cr)) coded.

(** A field of a mapping, [None] when it is absent or the value is no
    mapping. *)
Definition field (key : string) (v : value) : value :=
  match v with
  | VDict kvs => default VNone (dict_lookup key kvs)
  | _ => VNone
  end.

(** Whether a mapping declares a key, and with which value. *)
Definition declared (key : string) (v : value) : option value :=
  match v with
  | VDict kvs => dict_lookup key kvs
  | _ => None
  end.

(** The security column as lines 71-94 render a requirement list. *)
Definition render_security (security : value) : result value :=
  security_flat <- flatten_security security ;;
  join_or_none (VList (map VStr security_flat)) default_sep.

(** The key the relations share: the path and the upper-cased verb. *)
Definition op_key (o : operation) : string * string :=
  (op_path o, upper (op_method o)).

Definition row_key (r : row) : option (string * string) :=
  match column "path" r, column "method" r with
  | VStr p, VStr m => Some (p, m)
  | _, _ => None
  end.

(** Keeping the first occurrence of every element, as the merger's
    description words it. *)
Fixpoint keep_first (l : list string) : list string :=
  match l with
  | [] => []
  | x :: l' => x :: filter (fun y => y <> x) (keep_first l')
  end.

(** The rendered description of a parameter, [""] for what is no mapping. *)
Definition description_of (p : value) : string :=
  match render_param p with
  | Ok s => s
  | Raise _ => ""
  end.

(** The locations a parameter can have. *)
Definition locations : list string := ["query"; "path"; "header"; "body"; "formData"].

(** Whether a character occurs in a string. *)
Fixpoint occurs (c : ascii) (s : string) : bool :=
  match s with
  | EmptyString => false
  | String c' s' => Ascii.eqb c c' || occurs c s'
  end.

(** Lines 29-44 for one collection: its dicts, rendered in order. *)
Definition rendered_collection (coll : value) : result (list string) :=
  ps <- iter coll ;;
  mapM render_param (filter (fun p => isinstance_dict p) ps).

(** The value of a computation that did not raise. *)
Definition ok_or {A : Type} (dflt : A) (m : result A) : A :=
  match m with
  | Ok a => a
  | Raise _ => dflt
  end.

(** The document-level catalogues in declared order. *)
Definition declared_tags (sw : value) : list value :=
  ok_or [] (iter (default (VList []) (declared "tags" sw))).

Definition declared_schemes (sw : value) : list (string * value) :=
  ok_or [] (items (py_or (default (VDict []) (declared "securityDefinitions" sw))
                         (VDict []))).

Definition declared_models (sw : value) : list (string * value) :=
  ok_or [] (items (py_or (default (VDict []) (declared "definitions" sw))
                         (VDict []))).

Definition declared_properties (model : value) : list (string * value) :=
  ok_or [] (items (py_or (default (VDict []) (declared "properties" model))
                         (VDict []))).


(** The column sets of the seven relations, in the order the dict literals
    give them. *)
Definition endpoints_columns : list string :=
  ["api_group"; "tags"; "operationId"; "summary"; "description"; "deprecated";
   "method"; "path"; "full_url_template"; "consumes"; "produces";
   "parameters_count"; "responses_count"; "security"].

Definition parameters_columns : list string :=
  ["api_group"; "operationId"; "method"; "path"; "name"; "in"; "description";
   "required"; "type"; "format"; "collectionFormat"; "items_type";
   "items_format"; "enum"; "$ref"; "schema_type"].

Definition responses_columns : list string :=
  ["api_group"; "operationId"; "method"; "path"; "status_code"; "description";
   "schema_type"; "schema_format"; "schema_$ref"; "schema_items_type";
   "schema_items_$ref"].

Definition tags_columns : list string :=
  ["name"; "description"; "externalDocs_description"; "externalDocs_url"].

Definition securities_columns : list string :=
  ["name"; "type"; "in"; "name_in_header"; "flow"; "authorizationUrl";
   "tokenUrl"; "scopes"].

Definition models_columns : list string :=
  ["model_name"; "type"; "xml_name"; "description"; "required_fields"].

Definition model_props_columns : list string :=
  ["model_name"; "property_name"; "type"; "format"; "description"; "enum";
   "items_type"; "items_format"; "items_$ref"; "$ref"; "xml_name";
   "xml_wrapped"; "example"].

Definition csv_columns : list string :=
  ["API Group (tags)"; "Method"; "Path"; "Summary"; "Description";
   "OperationId"; "Deprecated"; "Auth (security)"; "Parameters";
   "RequestBody"; "Responses"].

(** The number a count cell holds. *)
Definition int_cell (v : value) : Z :=
  match v with VInt n => n | _ => 0 end.

(** A value that is absent, falsy, or a mapping: what [x or {}] must be for
    [.get] to work on it. *)
Definition falsy_or_dict (v : value) : bool :=
  negb (truthy v) || isinstance_dict v.

(** A value [join_or_none] accepts: falsy, or something to iterate. *)
Definition joinable (v : value) : bool :=
  negb (truthy v)
  || match v with VList _ | VStr _ | VDict _ => true | _ => false end.

(** The parameters [parameter_row] accepts. *)
Definition parameter_ok (p : value) : bool :=
  isinstance_dict p
  && falsy_or_dict (field "items" p)
  && falsy_or_dict (field "schema" p)
  && joinable (field "enum" p).

(** The tags [tag_row] accepts: mappings whose externalDocs, when the key is
    there, is a mapping. *)
Definition tag_ok (t : value) : bool :=
  match t with
  | VDict kvs =>
      match dict_lookup "externalDocs" kvs with
      | None | Some (VDict _) => true
      | Some _ => false
      end
  | _ => false
  end.

(** One rendered security requirement of a well-formed requirement object. *)
Definition requirement_text (req : string * list string) : string :=
  match snd req with
  | [] => fst req
  | scopes => fst req +:+ "(" +:+ str_join ", " scopes +:+ ")"
  end.

Definition requirement_value (req : list (string * list string)) : value :=
  VDict (map (fun sc => (fst sc, VList (map VStr (snd sc)))) req).

(** What [tags[0] if tags else None] accepts: falsy values, and lists and
    strings. *)
Definition first_tag_ok (tags : value) : bool :=
  negb (truthy tags)
  || match tags with VList _ | VStr _ => true | _ => false end.

(** What [for x in v] accepts. *)
Definition iterable (v : value) : bool :=
  match v with VList _ | VStr _ | VDict _ => true | _ => false end.

(** The operations whose parameters [extract_parameters] can flatten. *)
Definition operation_parameters_ok (o : operation) : bool :=
  first_tag_ok (default (VList []) (declared "tags" (op_body o)))
  && iterable (default (VList []) (declared "parameters" (op_path_item o)))
  && iterable (default (VList []) (declared "parameters" (op_body o)))
  && forallb parameter_ok (ok_or [] (operation_params o)).

(** A document whose root is a mapping and whose paths, when declared, are
    a mapping. *)
Definition paths_ok (sw : value) : bool :=
  isinstance_dict sw && isinstance_dict (default (VDict []) (declared "paths" sw)).

(** ** Definitions for the CSV script and the merger *)

(** The scheme [detect_servers] puts in front of host. *)
Definition server_scheme (top : list (string * value)) : value :=
  match dict_lookup "schemes" top with
  | Some (VList (first :: _)) => first
  | _ => VStr "https"
  end.

(** Rows in the order of their keys. *)
Definition sorted_by (key : row -> key3) (rows : list row) : Prop :=
  StronglySorted (fun a b => key_le (key a) (key b)) rows.

(** The rows that have the key [k], in the order they stand in. *)
Definition with_key (key : row -> key3) (k : key3) (rows : list row) : list row :=
  filter (fun r => key r = k) rows.

(** A row of the CSV script: the eleven columns in their order, with text in
    the three cells the sort reads. *)
Definition csv_row_shape (r : row) : Prop :=
  map fst r = csv_columns
  /\ exists tags path method,
       column "API Group (tags)" r = VStr tags
       /\ column "Path" r = VStr path
       /\ column "Method" r = VStr method.

(** The header the merger writes: that of the first file that has one. *)
Definition merged_header (read : string -> list (list string)) (files : list string)
  : list (list string) :=
  match filter (fun f => read f <> []) files with
  | [] => []
  | first :: _ => ["SourceFile" :: hd [] (read first)]
  end.

(** The data rows of a file, each under the file's name. *)
Definition merged_data (read : string -> list (list string)) (file : string)
  : list (list string) :=
  map (fun r => file :: r) (tl (read file)).

(** The units the CSV script makes a row for: the entries of a path item
    whose lowered key is in [HTTP_METHODS] and whose value is a mapping. *)
Definition csv_operations_of_path (path : string) (path_item : value) : list operation :=
  match path_item with
  | VDict ops =>
      flat_map (fun '(method, op) =>
                  if set_contains (lower method) HTTP_METHODS && isinstance_dict op
                  then [Operation path path_item method op] else []) ops
  | _ => []
  end.

Definition csv_operations (spec : value) : list operation :=
  flat_map (fun '(path, path_item) => csv_operations_of_path path path_item)
           (declared_paths spec).

(** The key of a row of the CSV script. *)
Definition csv_row_key (r : row) : option (string * string) :=
  match column "Path" r, column "Method" r with
  | VStr p, VStr m => Some (p, m)
  | _, _ => None
  end.

(** The keys of the rows for a trace operation. *)
Definition trace_key (k : option (string * string)) : bool :=
  match k with
  | Some (_, m) => String.eqb m "TRACE"
  | None => false
  end.

(** A layout of set literals: some order of the elements written. *)
Definition layout_ok : Prop := forall l, set_literal l ≡ₚ l.

(** ** Generic facts about the monad and the loops *)

Lemma bind_Ok_inv {A B : Type} (m : result A) (k : A -> result B) (b : B) :
  bind m k = Ok b -> exists a, m = Ok a /\ k a = Ok b.
Proof. destruct m as [a|e]; simpl; [eauto | discriminate]. Qed.

Lemma bind_ext {A B : Type} (m : result A) (k1 k2 : A -> result B) :
  (forall a, k1 a = k2 a) -> bind m k1 = bind m k2.
Proof. intros H. destruct m; simpl; auto. Qed.

Ltac bind_inv_all :=
  repeat match goal with
         | H : bind ?m _ = Ok _ |- _ =>
             let E := fresh "E" in
             destruct m eqn:E; cbn [bind] in H; [ | discriminate H ]
         | H : Ok _ = Ok _ |- _ => injection H as H; try subst
         end.

Lemma for_each_ext {A S : Type} (f g : A -> S -> result S) (xs : list A) (s : S) :
  (forall x s', f x s' = g x s') -> for_each xs f s = for_each xs g s.
Proof.
  intros Hfg. revert s.
  induction xs as [|x xs IH]; intros s; simpl; [reflexivity|].
  rewrite Hfg. apply bind_ext. exact IH.
Qed.

Lemma mapM_Ok {A B : Type} (f : A -> result B) (xs : list A) (ys : list B) :
  mapM f xs = Ok ys <-> Forall2 (fun x y => f x = Ok y) xs ys.
Proof.
  revert ys. induction xs as [|x xs IH]; intros ys; simpl.
  - split.
    + intros [= <-]. constructor.
    + intros H. inversion H. reflexivity.
  - split.
    + intros H. apply bind_Ok_inv in H as (y & Hy & H).
      apply bind_Ok_inv in H as (ys' & Hys & [= <-]).
      constructor; [assumption | apply IH; assumption].
    + intros H. inversion H as [|? y ? ys' Hx Hrest]; subst.
      rewrite Hx. simpl. apply IH in Hrest. rewrite Hrest. reflexivity.
Qed.

(** A loop that appends one row per element. *)
Lemma for_each_append {A B : Type} (f : A -> result B) (xs : list A) (acc : list B) :
  for_each xs (fun x rows => r <- f x ;; Ok (rows ++ [r])) acc
  = (rs <- mapM f xs ;; Ok (acc ++ rs)).
Proof.
  revert acc. induction xs as [|x xs IH]; intros acc; simpl.
  - rewrite app_nil_r. reflexivity.
  - destruct (f x) as [y|e]; simpl; [|reflexivity].
    rewrite IH. destruct (mapM f xs); simpl; [|reflexivity].
    rewrite <- app_assoc. reflexivity.
Qed.

(** The same with a [continue] guard in front. *)
Lemma for_each_append_guarded {A B : Type} (keep : A -> bool) (f : A -> result B)
    (xs : list A) (acc : list B) :
  for_each xs (fun x rows => if negb (keep x) then Ok rows
                             else r <- f x ;; Ok (rows ++ [r])) acc
  = (rs <- mapM f (filter (fun x => keep x) xs) ;; Ok (acc ++ rs)).
Proof.
  revert acc. induction xs as [|x xs IH]; intros acc; simpl.
  - rewrite app_nil_r. reflexivity.
  - rewrite filter_cons. destruct (keep x); simpl.
    + destruct (f x) as [y|e]; simpl; [|reflexivity].
      rewrite IH. destruct (mapM _ _); simpl; [|reflexivity].
      rewrite <- app_assoc. reflexivity.
    + apply IH.
Qed.

Lemma Forall2_compose {A B C : Type} (R : A -> B -> Prop) (T : A -> C -> Prop)
    (l : list A) (l1 : list B) (l2 : list C) :
  Forall2 R l l1 -> Forall2 T l l2 ->
  Forall2 (fun b c => exists a, R a b /\ T a c) l1 l2.
Proof.
  intros H. revert l2. induction H; intros l2 H2; inversion H2; subst;
    constructor; eauto.
Qed.

(** ** The extractors as walks over the operations *)

Lemma walk_inner {B : Type} (per_op : operation -> result (list B)) (path : string)
    (ops0 ops : list (string * value)) (acc rows : list B) :
  for_each ops (fun '(method, op) rows =>
      if not_an_operation method op then Ok rows
      else ys <- per_op (Operation path (VDict ops0) method op) ;; Ok (rows ++ ys)) acc
    = Ok rows ->
  exists groups,
    Forall2 (fun o g => per_op o = Ok g)
      (flat_map (fun '(method, op) =>
                   if not_an_operation method op then []
                   else [Operation path (VDict ops0) method op]) ops) groups
    /\ rows = acc ++ concat groups.
Proof.
  revert acc. induction ops as [|[method op] ops IH]; intros acc H; simpl in *.
  - injection H as <-. exists []. split; [constructor | rewrite app_nil_r; reflexivity].
  - destruct (not_an_operation method op); simpl in *.
    + apply IH. exact H.
    + apply bind_Ok_inv in H as (mid & Hbody & H).
      apply bind_Ok_inv in Hbody as (ys & Hys & [= <-]).
      destruct (IH _ H) as (groups & HF & ->).
      exists (ys :: groups). split; [constructor; assumption|].
      simpl. rewrite <- app_assoc. reflexivity.
Qed.

Lemma walk_outer {B : Type} (per_op : operation -> result (list B))
    (path_items : list (string * value)) (acc rows : list B) :
  for_each path_items (fun '(path, path_item) rows =>
      if negb (isinstance_dict path_item) then Ok rows
      else
        ops <- items path_item ;;
        for_each ops (fun '(method, op) rows =>
          if not_an_operation method op then Ok rows
          else ys <- per_op (Operation path path_item method op) ;; Ok (rows ++ ys))
        rows) acc
    = Ok rows ->
  exists groups,
    Forall2 (fun o g => per_op o = Ok g)
      (flat_map (fun '(path, path_item) => operations_of_path path path_item) path_items)
      groups
    /\ rows = acc ++ concat groups.
Proof.
  revert acc. induction path_items as [|[path path_item] rest IH]; intros acc H; simpl in *.
  - injection H as <-. exists []. split; [constructor | rewrite app_nil_r; reflexivity].
  - destruct path_item as [| | | | | |ops]; simpl in *;
      try (apply IH; exact H).
    apply bind_Ok_inv in H as (mid & Hin & H).
    apply walk_inner in Hin. destruct Hin as (g1 & HF1 & ->).
    destruct (IH _ H) as (g2 & HF2 & ->).
    exists (g1 ++ g2). split.
    + apply Forall2_app; assumption.
    + rewrite concat_app, <- app_assoc. reflexivity.
Qed.

(** Whatever a walk returns is, group by group, what [per_op] returns for
    the operations of the document in their order. *)
Lemma walk_operations_Ok {B : Type} (per_op : operation -> result (list B))
    (sw : value) (rows : list B) :
  walk_operations per_op sw = Ok rows ->
  exists groups,
    Forall2 (fun o g => per_op o = Ok g) (operations sw) groups
    /\ rows = concat groups.
Proof.
  unfold walk_operations, operations, declared_paths. intros H.
  destruct sw as [| | | | | |top]; simpl in H; try discriminate.
  destruct (default (VDict []) (dict_lookup "paths" top)) as [| | | | | |path_items];
    simpl in H; try discriminate.
  apply walk_outer in H. destruct H as (groups & HF & ->).
  exists groups. split; [exact HF | reflexivity].
Qed.

Tactic Notation "step_on" constr(m) "as" ident(x) :=
  destruct m as [x|]; cbn [bind]; [ | reflexivity ].

Lemma extract_endpoints_walk (sw : value) :
  extract_endpoints sw
  = walk_operations (fun o => r <- operation_row sw o ;; Ok [r]) sw.
Proof.
  unfold extract_endpoints, walk_operations.
  destruct sw as [| | | | | |top]; try reflexivity.
  cbn [get bind].
  step_on (items (default (VDict []) (dict_lookup "paths" top))) as path_items.
  apply for_each_ext. intros [path path_item] rows.
  destruct path_item as [| | | | | |ops]; try reflexivity.
  cbn [isinstance_dict negb get items bind].
  apply for_each_ext. intros [method op] rows'.
  destruct (not_an_operation method op); [reflexivity|].
  unfold operation_row. cbn [get bind op_path op_path_item op_method op_body].
  destruct (endpoint_row _ _ _ _ _ _ _ _); reflexivity.
Qed.

Lemma extract_parameters_walk (sw : value) :
  extract_parameters sw = walk_operations operation_parameter_rows sw.
Proof.
  unfold extract_parameters, walk_operations.
  step_on (get sw "paths" (VDict [])) as paths.
  step_on (items paths) as path_items.
  apply for_each_ext. intros [path path_item] rows.
  destruct path_item as [| | | | | |ops]; try reflexivity.
  cbn [isinstance_dict negb get items bind].
  apply for_each_ext. intros [method op] rows'.
  destruct (not_an_operation method op); [reflexivity|].
  unfold operation_parameter_rows, operation_params.
  cbn [get bind op_path op_path_item op_method op_body].
  step_on (get op "tags" (VList [])) as tags.
  step_on (first_tag tags) as api_group.
  step_on (get op "operationId" VNone) as operation_id.
  step_on (iter (default (VList []) (dict_lookup "parameters" ops))) as from_path.
  step_on (get op "parameters" (VList [])) as op_params.
  step_on (iter op_params) as from_op.
  apply for_each_append.
Qed.

Lemma extract_responses_walk (sw : value) :
  extract_responses sw = walk_operations operation_response_rows sw.
Proof.
  unfold extract_responses, walk_operations.
  step_on (get sw "paths" (VDict [])) as paths.
  step_on (items paths) as path_items.
  apply for_each_ext. intros [path path_item] rows.
  destruct path_item as [| | | | | |ops]; try reflexivity.
  cbn [isinstance_dict negb get items bind].
  apply for_each_ext. intros [method op] rows'.
  destruct (not_an_operation method op); [reflexivity|].
  unfold operation_response_rows, operation_responses.
  cbn [bind op_path op_path_item op_method op_body].
  step_on (get op "tags" (VList [])) as tags.
  step_on (first_tag tags) as api_group.
  step_on (get op "operationId" VNone) as operation_id.
  step_on (get op "responses" (VDict [])) as resps.
  step_on (items resps) as coded.
  rewrite <- (for_each_append_guarded
                (fun cr => isinstance_dict (snd cr))
                (fun cr => response_row api_group operation_id method path
                                        (fst cr) (snd cr))).
  apply for_each_ext. intros [code resp] rows''. reflexivity.
Qed.

Lemma singleton_groups {A B : Type} (f : A -> result B) (os : list A)
    (groups : list (list B)) :
  Forall2 (fun o g => (r <- f o ;; Ok [r]) = Ok g) os groups ->
  Forall2 (fun o r => f o = Ok r) os (concat groups).
Proof.
  induction 1 as [|o g os groups Hg _ IH]; simpl; [constructor|].
  apply bind_Ok_inv in Hg as (r & Hr & [= <-]). simpl.
  constructor; assumption.
Qed.

(** [extract_endpoints] yields one row per operation, in the order of the
    operations. *)
Lemma extract_endpoints_rows (sw : value) (rows : list row) :
  extract_endpoints sw = Ok rows ->
  Forall2 (fun o r => operation_row sw o = Ok r) (operations sw) rows.
Proof.
  rewrite extract_endpoints_walk. intros H.
  apply walk_operations_Ok in H as (groups & HF & ->).
  apply singleton_groups. exact HF.
Qed.

(** [extract_parameters] yields one group of rows per operation. *)
Lemma extract_parameters_groups (sw : value) (rows : list row) :
  extract_parameters sw = Ok rows ->
  exists groups,
    Forall2 (fun o g => operation_parameter_rows o = Ok g) (operations sw) groups
    /\ rows = concat groups.
Proof. rewrite extract_parameters_walk. apply walk_operations_Ok. Qed.

(** [extract_responses] yields one group of rows per operation. *)
Lemma extract_responses_groups (sw : value) (rows : list row) :
  extract_responses sw = Ok rows ->
  exists groups,
    Forall2 (fun o g => operation_response_rows o = Ok g) (operations sw) groups
    /\ rows = concat groups.
Proof. rewrite extract_responses_walk. apply walk_operations_Ok. Qed.

(** What the cells of an endpoints row are made from. *)
Lemma operation_row_inv (sw : value) (o : operation) (r : row) :
  operation_row sw o = Ok r ->
  exists tags sw_security security schemes host base_path plp op_params n_op n_path,
    get (op_body o) "tags" (VList []) = Ok tags
    /\ first_tag tags = Ok (column "api_group" r)
    /\ get sw "security" (VList []) = Ok sw_security
    /\ get (op_body o) "security" sw_security = Ok security
    /\ render_security security = Ok (column "security" r)
    /\ get sw "schemes" (VList []) = Ok schemes
    /\ get sw "host" VNone = Ok host
    /\ get sw "basePath" VNone = Ok base_path
    /\ build_full_url_template schemes host base_path (op_path o)
       = Ok (column "full_url_template" r)
    /\ get (op_path_item o) "parameters" (VList []) = Ok plp
    /\ get (op_body o) "parameters" (VList []) = Ok op_params
    /\ len op_params = Ok n_op
    /\ len plp = Ok n_path
    /\ column "parameters_count" r = VInt (n_op + n_path)
    /\ row_key r = Some (op_key o).
Proof.
  unfold operation_row, endpoint_row. intros H.
  bind_inv_all.
  unfold render_security.
  do 10 eexists. repeat split; try eassumption; try reflexivity.
  match goal with E : flatten_security _ = Ok _ |- _ => rewrite E end.
  cbn [bind]. eassumption.
Qed.

Lemma get_declared (v : value) (key : string) (dflt x : value) :
  get v key dflt = Ok x -> x = default dflt (declared key v).
Proof. destruct v; simpl; try discriminate. intros [= <-]. reflexivity. Qed.

(** C8 (as amended): in every endpoints row, api_group is the first element
    of the operation's tags list when that list is not empty, and null when
    the tags are absent, null or empty; it is the empty string exactly when
    the first declared tag is the empty string. *)
Theorem api_group_first_tag (sw : value) (rows : list row) :
  extract_endpoints sw = Ok rows ->
  Forall2 (fun o r =>
             let tags := default (VList []) (declared "tags" (op_body o)) in
             (forall t rest, tags = VList (t :: rest) -> column "api_group" r = t)
             /\ (truthy tags = false -> column "api_group" r = VNone)
             /\ (column "api_group" r = VStr "" <->
                 exists rest, tags = VList (VStr "" :: rest)))
          (operations sw) rows.
Proof.
  intros H. apply extract_endpoints_rows in H.
  eapply Forall2_impl; [exact H|]. clear H.
  intros o r Hr. cbv zeta.
  apply operation_row_inv in Hr
    as (tags & _ & _ & _ & _ & _ & _ & _ & _ & _ & Htags & Hfirst & _).
  apply get_declared in Htags. rewrite <- Htags.
  unfold first_tag in Hfirst.
  repeat split.
  - intros t rest ->. simpl in Hfirst. congruence.
  - intros Hf. rewrite Hf in Hfirst. congruence.
  - intros Hempty. rewrite Hempty in Hfirst.
    destruct tags as [| | | | s | [|x xs] | ]; simpl in Hfirst;
      repeat match type of Hfirst with
             | (if ?b then _ else _) = _ => destruct b
             end; try discriminate.
    + destruct s; simpl in Hfirst; discriminate.
    + injection Hfirst as ->. eauto.
  - intros [rest ->]. simpl in Hfirst. congruence.
Qed.

Lemma base_path_or_empty :
  (forall b : string, py_str (py_or (VStr b) (VStr "")) = b)
  /\ py_str (py_or VNone (VStr "")) = "".
Proof.
  split; [|reflexivity].
  intros b. unfold py_or. simpl. destruct b; reflexivity.
Qed.

(** C6 (as amended): the URL synthesizer returns null whenever host is
    absent, null or empty; for any other host it returns
    scheme + "://" + host + basePath-or-empty + path, the scheme being the
    first declared scheme, or "https" when none is declared, with nothing
    inserted or removed between the parts (a basePath that is a string is
    rendered as it is, an absent one as the empty string).  Every endpoints
    row of a document without a host key has a null full_url_template. *)
Theorem url_template :
  (forall schemes host base_path path,
      truthy host = false ->
      build_full_url_template schemes host base_path path = Ok VNone)
  /\ (forall first rest host base_path path,
        truthy host = true ->
        build_full_url_template (VList (first :: rest)) host base_path path
        = Ok (VStr (py_str first +:+ "://" +:+ py_str host
                    +:+ py_str (py_or base_path (VStr "")) +:+ path)))
  /\ (forall schemes host base_path path,
        truthy host = true -> truthy schemes = false ->
        build_full_url_template schemes host base_path path
        = Ok (VStr ("https" +:+ "://" +:+ py_str host
                    +:+ py_str (py_or base_path (VStr "")) +:+ path)))
  /\ (forall b : string, py_str (py_or (VStr b) (VStr "")) = b)
  /\ py_str (py_or VNone (VStr "")) = ""
  /\ (forall sw rows,
        declared "host" sw = None ->
        extract_endpoints sw = Ok rows ->
        Forall (fun r => column "full_url_template" r = VNone) rows).
Proof.
  unfold build_full_url_template.
  split; [|split; [|split; [|split; [|split]]]].
  - intros schemes host base_path path ->. reflexivity.
  - intros first rest host base_path path ->. reflexivity.
  - intros schemes host base_path path -> ->. reflexivity.
  - apply base_path_or_empty.
  - apply base_path_or_empty.
  - intros sw rows Hhost H. apply extract_endpoints_rows in H.
    eapply Forall2_Forall_r; [exact H|].
    apply Forall_forall. intros o _ r Hr.
    apply operation_row_inv in Hr
      as (_ & _ & _ & schemes & host & base_path & _ & _ & _ & _
          & _ & _ & _ & _ & _ & _ & Hh & _ & Hurl & _).
    apply get_declared in Hh. rewrite Hhost in Hh. simpl in Hh. subst host.
    unfold build_full_url_template in Hurl. simpl in Hurl. congruence.
Qed.

Lemma chars_length (s : string) : length (chars s) = String.length s.
Proof. induction s; simpl; congruence. Qed.

(** [len] counts what [iter] enumerates. *)
Lemma len_iter (v : value) (xs : list value) :
  iter v = Ok xs -> len v = Ok (Z.of_nat (length xs)).
Proof.
  destruct v; simpl; try discriminate; intros [= <-].
  - rewrite chars_length. reflexivity.
  - reflexivity.
  - rewrite length_map. reflexivity.
Qed.

Lemma operation_params_length (o : operation) (params : list value)
    (plp op_params : value) (n_op n_path : Z) :
  operation_params o = Ok params ->
  get (op_path_item o) "parameters" (VList []) = Ok plp ->
  get (op_body o) "parameters" (VList []) = Ok op_params ->
  len op_params = Ok n_op ->
  len plp = Ok n_path ->
  n_op + n_path = Z.of_nat (length params).
Proof.
  unfold operation_params. intros H Hplp Hop Hn_op Hn_path.
  rewrite Hplp in H. cbn [bind] in H.
  apply bind_Ok_inv in H as (from_path & Hfp & H).
  rewrite Hop in H. cbn [bind] in H.
  apply bind_Ok_inv in H as (from_op & Hfo & [= <-]).
  apply len_iter in Hfp. apply len_iter in Hfo.
  rewrite length_app. congruence || (rewrite Hfp in Hn_path; rewrite Hfo in Hn_op;
    injection Hn_path as <-; injection Hn_op as <-; lia).
Qed.

Lemma parameter_row_inv (api_group operation_id : value) (method path : string)
    (p : value) (r : row) :
  parameter_row api_group operation_id method path p = Ok r ->
  row_key r = Some (path, upper method)
  /\ column "name" r = field "name" p
  /\ column "in" r = field "in" p
  /\ isinstance_dict p = true.
Proof.
  unfold parameter_row. intros H.
  destruct p as [| | | | | |kvs]; try discriminate H.
  cbn [get bind] in H. bind_inv_all. repeat split.
Qed.

Lemma response_row_inv (api_group operation_id : value) (method path code : string)
    (resp : value) (r : row) :
  response_row api_group operation_id method path code resp = Ok r ->
  row_key r = Some (path, upper method)
  /\ column "status_code" r = VStr code.
Proof.
  unfold response_row. intros H. bind_inv_all. split; reflexivity.
Qed.

Lemma Forall2_mapM_r {A B : Type} (f : A -> result B) (Q : A -> B -> Prop)
    (xs : list A) (ys : list B) :
  (forall x y, f x = Ok y -> Q x y) ->
  mapM f xs = Ok ys -> Forall2 Q xs ys.
Proof.
  intros HQ H. apply mapM_Ok in H.
  eapply Forall2_impl; [exact H|]. exact HQ.
Qed.

(** The parameter rows of an operation are one per parameter it carries, in
    that order, each under the operation's key. *)
Lemma operation_parameter_rows_inv (o : operation) (g : list row) :
  operation_parameter_rows o = Ok g ->
  exists params,
    operation_params o = Ok params
    /\ Forall2 (fun p r => row_key r = Some (op_key o)
                           /\ column "name" r = field "name" p) params g.
Proof.
  unfold operation_parameter_rows. intros H.
  apply bind_Ok_inv in H as (tags & _ & H).
  apply bind_Ok_inv in H as (api_group & _ & H).
  apply bind_Ok_inv in H as (operation_id & _ & H).
  apply bind_Ok_inv in H as (params & Hparams & H).
  exists params. split; [exact Hparams|].
  eapply Forall2_mapM_r; [|exact H].
  intros p r Hr. apply parameter_row_inv in Hr as (Hk & Hn & _). auto.
Qed.

(** The response rows of an operation are one per response that is a
    mapping, in that order, each under the operation's key. *)
Lemma operation_response_rows_inv (o : operation) (g : list row) :
  operation_response_rows o = Ok g ->
  exists coded,
    operation_responses o = Ok coded
    /\ Forall2 (fun cr r => row_key r = Some (op_key o)
                            /\ column "status_code" r = VStr (fst cr)) coded g.
Proof.
  unfold operation_response_rows. intros H.
  apply bind_Ok_inv in H as (tags & _ & H).
  apply bind_Ok_inv in H as (api_group & _ & H).
  apply bind_Ok_inv in H as (operation_id & _ & H).
  apply bind_Ok_inv in H as (coded & Hcoded & H).
  exists coded. split; [exact Hcoded|].
  eapply Forall2_mapM_r; [|exact H].
  intros cr r Hr. apply response_row_inv in Hr. exact Hr.
Qed.


Lemma Forall2_concat_elem {A B : Type} (R : A -> list B -> Prop) (os : list A)
    (groups : list (list B)) (r : B) :
  Forall2 R os groups -> r ∈ concat groups ->
  exists o g, o ∈ os /\ R o g /\ r ∈ g.
Proof.
  induction 1 as [|o g os groups Hg _ IH]; simpl; intros Hr.
  - inversion Hr.
  - apply elem_of_app in Hr as [Hr|Hr].
    + exists o, g. split; [left|]. auto.
    + destruct (IH Hr) as (o' & g' & Ho' & HR & Hin).
      exists o', g'. split; [right; exact Ho'|]. auto.
Qed.

Lemma Forall2_elem_l {A B : Type} (R : A -> B -> Prop) (xs : list A) (ys : list B)
    (x : A) :
  Forall2 R xs ys -> x ∈ xs -> exists y, y ∈ ys /\ R x y.
Proof.
  induction 1 as [|x' y xs ys Hxy _ IH]; intros Hx.
  - inversion Hx.
  - apply elem_of_cons in Hx as [->|Hx].
    + exists y. split; [left|exact Hxy].
    + destruct (IH Hx) as (y' & Hy' & HR). exists y'. split; [right; exact Hy'|exact HR].
Qed.

Lemma Forall2_map_eq {A B C : Type} (f1 : A -> C) (f2 : B -> C) (xs : list A)
    (ys : list B) :
  Forall2 (fun x y => f2 y = f1 x) xs ys -> map f2 ys = map f1 xs.
Proof. induction 1; simpl; congruence. Qed.

Lemma concat_map_flat_map {A B C : Type} (f : B -> C) (h : A -> list C)
    (os : list A) (groups : list (list B)) :
  Forall2 (fun o g => map f g = h o) os groups ->
  map f (concat groups) = flat_map h os.
Proof.
  induction 1 as [|o g os groups Hg _ IH]; simpl; [reflexivity|].
  rewrite map_app, Hg, IH. reflexivity.
Qed.

Lemma filter_length_keys {A B : Type} (ka : A -> option (string * string))
    (kb : B -> option (string * string)) (k : option (string * string))
    (xs : list A) (ys : list B) :
  Forall2 (fun x y => kb y = ka x) xs ys ->
  length (filter (fun y => kb y = k) ys) = length (filter (fun x => ka x = k) xs).
Proof.
  induction 1 as [|x y xs ys Hxy _ IH]; [reflexivity|].
  rewrite !filter_cons. rewrite Hxy.
  destruct (decide (ka x = k)); simpl; congruence.
Qed.

Lemma filter_none {A : Type} (P : A -> Prop) `{forall x, Decision (P x)} (l : list A) :
  (forall y, y ∈ l -> ~ P y) -> filter P l = [].
Proof.
  induction l as [|a l IH]; intros Hl; [reflexivity|].
  rewrite filter_cons_False by (apply Hl; left).
  apply IH. intros y Hy. apply Hl. right. exact Hy.
Qed.

Lemma NoDup_map_filter_one {A : Type} (f : A -> string * string) (l : list A) (x : A) :
  NoDup (map f l) -> x ∈ l ->
  length (filter (fun y => Some (f y) = Some (f x)) l) = 1%nat.
Proof.
  induction l as [|a l IH]; simpl; intros Hnd Hx.
  - inversion Hx.
  - apply NoDup_cons in Hnd as [Hnotin Hnd].
    apply elem_of_cons in Hx as [->|Hx].
    + rewrite filter_cons_True by reflexivity. simpl. f_equal.
      rewrite filter_none; [reflexivity|].
      intros y Hy [= Heq]. apply Hnotin. rewrite <- Heq.
      apply list_elem_of_fmap_2. exact Hy.
    + rewrite filter_cons_False; [apply IH; assumption|].
      intros [= Heq]. apply Hnotin. rewrite Heq.
      apply list_elem_of_fmap_2. exact Hx.
Qed.

(** C10 (as amended): every row of the parameters relation and every row of
    the responses relation has at least one endpoints row with the same
    (path, method); it has exactly one when no two operations of the
    document share their path and their verb up to letter case. *)
Theorem rows_have_an_endpoint (sw : value) (erows prows rrows : list row) :
  extract_endpoints sw = Ok erows ->
  extract_parameters sw = Ok prows ->
  extract_responses sw = Ok rrows ->
  forall r, r ∈ prows ++ rrows ->
    exists k,
      row_key r = Some k
      /\ (exists e, e ∈ erows /\ row_key e = Some k)
      /\ (NoDup (map op_key (operations sw)) ->
          length (filter (fun e => row_key e = Some k) erows) = 1%nat).
Proof.
  intros He Hp Hr r Hin.
  apply extract_endpoints_rows in He.
  assert (Hkeys : Forall2 (fun o e => row_key e = Some (op_key o)) (operations sw) erows).
  { eapply Forall2_impl; [exact He|]. intros o e Ho.
    apply operation_row_inv in Ho.
    destruct Ho as (? & ? & ? & ? & ? & ? & ? & ? & ? & ? & Ho). apply Ho. }
  assert (Hop : exists o, o ∈ operations sw /\ row_key r = Some (op_key o)).
  { apply elem_of_app in Hin as [Hin|Hin].
    - apply extract_parameters_groups in Hp as (groups & Hg & ->).
      destruct (Forall2_concat_elem _ _ _ _ Hg Hin) as (o & g & Ho & Hrows & Hrg).
      apply operation_parameter_rows_inv in Hrows as (params & _ & HF).
      exists o. split; [exact Ho|].
      apply (Forall2_Forall_r _ (fun r => row_key r = Some (op_key o))) in HF.
      + rewrite Forall_forall in HF. apply HF. exact Hrg.
      + apply Forall_forall. intros ? _ ? [Hk _]. exact Hk.
    - apply extract_responses_groups in Hr as (groups & Hg & ->).
      destruct (Forall2_concat_elem _ _ _ _ Hg Hin) as (o & g & Ho & Hrows & Hrg).
      apply operation_response_rows_inv in Hrows as (coded & _ & HF).
      exists o. split; [exact Ho|].
      apply (Forall2_Forall_r _ (fun r => row_key r = Some (op_key o))) in HF.
      + rewrite Forall_forall in HF. apply HF. exact Hrg.
      + apply Forall_forall. intros ? _ ? [Hk _]. exact Hk. }
  destruct Hop as (o & Ho & Hk).
  exists (op_key o). split; [exact Hk|]. split.
  - destruct (Forall2_elem_l _ _ _ _ Hkeys Ho) as (e & He' & Hke). eauto.
  - intros Hnd.
    rewrite (filter_length_keys (fun o' => Some (op_key o')) row_key
               (Some (op_key o)) (operations sw) erows Hkeys).
    apply NoDup_map_filter_one; assumption.
Qed.

(** The document-level relations: one row per declared unit, in order. *)
Lemma extract_tags_rows (sw : value) (rows : list row) :
  extract_tags sw = Ok rows ->
  Forall2 (fun t r => tag_row t = Ok r) (declared_tags sw) rows.
Proof.
  unfold extract_tags, declared_tags. intros H.
  destruct sw as [| | | | | |top]; try discriminate H.
  cbn [get bind declared] in *.
  apply bind_Ok_inv in H as (ts & Hts & H).
  rewrite for_each_append in H.
  apply bind_Ok_inv in H as (rs & Hrs & [= <-]).
  rewrite Hts. simpl. apply mapM_Ok. exact Hrs.
Qed.

Lemma tag_row_name (t : value) (r : row) :
  tag_row t = Ok r -> column "name" r = field "name" t.
Proof.
  unfold tag_row. intros H.
  destruct t as [| | | | | |kvs]; try discriminate H.
  cbn [get bind] in H. bind_inv_all. reflexivity.
Qed.

Lemma extract_securities_rows (sw : value) (rows : list row) :
  extract_securities sw = Ok rows ->
  Forall2 (fun ns r => security_row (fst ns) (snd ns) = Ok r)
          (declared_schemes sw) rows.
Proof.
  unfold extract_securities, declared_schemes. intros H.
  destruct sw as [| | | | | |top]; try discriminate H.
  cbn [get bind declared] in *.
  apply bind_Ok_inv in H as (named & Hnamed & H).
  rewrite (for_each_ext _ (fun ns rows => r <- security_row (fst ns) (snd ns) ;;
                                          Ok (rows ++ [r]))) in H
    by (intros [name sec] rows'; reflexivity).
  rewrite for_each_append in H.
  apply bind_Ok_inv in H as (rs & Hrs & [= <-]).
  rewrite Hnamed. simpl. apply mapM_Ok. exact Hrs.
Qed.

Lemma security_row_name (name : string) (sec : value) (r : row) :
  security_row name sec = Ok r -> column "name" r = VStr name.
Proof. unfold security_row. intros H. bind_inv_all. reflexivity. Qed.

Lemma model_row_name (name : string) (model : value) (r : row) :
  model_row name model = Ok r -> column "model_name" r = VStr name.
Proof. unfold model_row. intros H. bind_inv_all. reflexivity. Qed.

Lemma property_row_names (model_name prop_name : string) (prop : value) (r : row) :
  property_row model_name prop_name prop = Ok r ->
  column "model_name" r = VStr model_name
  /\ column "property_name" r = VStr prop_name.
Proof. unfold property_row. intros H. bind_inv_all. split; reflexivity. Qed.

Lemma models_loop (named : list (string * value)) (acc_m acc_p ms ps : list row) :
  for_each named (fun '(model_name, model) '(model_rows, prop_rows) =>
      m <- model_row model_name model ;;
      let model_rows := model_rows ++ [m] in
      declared_props <- get model "properties" (VDict []) ;;
      let props := py_or declared_props (VDict []) in
      named_props <- items props ;;
      prop_rows <- for_each named_props (fun '(prop_name, prop) prop_rows =>
                     r <- property_row model_name prop_name prop ;;
                     Ok (prop_rows ++ [r]))
                   prop_rows ;;
      Ok (model_rows, prop_rows)) (acc_m, acc_p)
    = Ok (ms, ps) ->
  exists mrows groups,
    Forall2 (fun nm m => model_row (fst nm) (snd nm) = Ok m) named mrows
    /\ Forall2 (fun nm g => model_property_rows (fst nm) (snd nm) = Ok g) named groups
    /\ ms = acc_m ++ mrows
    /\ ps = acc_p ++ concat groups.
Proof.
  revert acc_m acc_p.
  induction named as [|[name model] rest IH]; intros acc_m acc_p H; simpl in H.
  - injection H as <- <-. exists [], []. simpl. rewrite !app_nil_r.
    repeat split; constructor.
  - apply bind_Ok_inv in H as ([ms1 ps1] & Hbody & H).
    apply bind_Ok_inv in Hbody as (m & Hm & Hbody).
    apply bind_Ok_inv in Hbody as (dp & Hdp & Hbody).
    apply bind_Ok_inv in Hbody as (nps & Hnps & Hbody).
    apply bind_Ok_inv in Hbody as (ps' & Hps & [= <- <-]).
    rewrite (for_each_ext _ (fun np rows => r <- property_row name (fst np) (snd np) ;;
                                            Ok (rows ++ [r]))) in Hps
      by (intros [pn pv] rows'; reflexivity).
    rewrite for_each_append in Hps.
    apply bind_Ok_inv in Hps as (g & Hg & [= <-]).
    destruct (IH _ _ H) as (mrows & groups & HFm & HFp & -> & ->).
    exists (m :: mrows), (g :: groups). repeat split.
    + constructor; assumption.
    + constructor; [|assumption].
      unfold model_property_rows. simpl. rewrite Hdp. cbn [bind].
      rewrite Hnps. cbn [bind]. exact Hg.
    + rewrite <- app_assoc. reflexivity.
    + simpl. rewrite <- app_assoc. reflexivity.
Qed.

Lemma extract_models_rows (sw : value) (ms ps : list row) :
  extract_models_and_properties sw = Ok (ms, ps) ->
  exists groups,
    Forall2 (fun nm m => model_row (fst nm) (snd nm) = Ok m) (declared_models sw) ms
    /\ Forall2 (fun nm g => model_property_rows (fst nm) (snd nm) = Ok g)
               (declared_models sw) groups
    /\ ps = concat groups.
Proof.
  unfold extract_models_and_properties, declared_models. intros H.
  destruct sw as [| | | | | |top]; try discriminate H.
  cbn [get bind declared] in *.
  apply bind_Ok_inv in H as (named & Hnamed & H).
  apply models_loop in H as (mrows & groups & HFm & HFp & -> & ->).
  rewrite Hnamed. simpl. exists groups. auto.
Qed.

Lemma model_property_rows_inv (name : string) (model : value) (g : list row) :
  model_property_rows name model = Ok g ->
  map (fun r => (column "model_name" r, column "property_name" r)) g
  = map (fun np => (VStr name, VStr (fst np))) (declared_properties model).
Proof.
  unfold model_property_rows, declared_properties. intros H.
  destruct model as [| | | | | |kvs]; try discriminate H.
  cbn [get bind declared] in *.
  apply bind_Ok_inv in H as (nps & Hnps & H).
  rewrite Hnps. simpl. apply Forall2_map_eq.
  eapply Forall2_mapM_r; [|exact H].
  intros np r Hr. apply property_row_names in Hr as [-> ->]. reflexivity.
Qed.

(** ** The parameter merger *)

Lemma keep_first_elem (x : string) (l : list string) : x ∈ keep_first l <-> x ∈ l.
Proof.
  clear repr_float repr_str set_literal json_dumps json_loads.
  induction l as [|a l IH]; simpl; [reflexivity|].
  rewrite !elem_of_cons, list_elem_of_filter, IH.
  destruct (decide (x = a)) as [->|Hne]; tauto.
Qed.

Lemma keep_first_NoDup (l : list string) : NoDup (keep_first l).
Proof.
  induction l as [|a l IH]; simpl; [constructor|].
  apply NoDup_cons. split.
  - rewrite list_elem_of_filter. intros [Hne _]. apply Hne. reflexivity.
  - apply NoDup_filter. exact IH.
Qed.

Lemma keep_first_sublist (l : list string) : sublist (keep_first l) l.
Proof.
  induction l as [|a l IH]; simpl; [constructor|].
  apply sublist_skip. etransitivity; [apply sublist_filter|exact IH].
Qed.

Lemma filter_all {A : Type} (P : A -> Prop) `{forall x, Decision (P x)} (l : list A) :
  (forall y, y ∈ l -> P y) -> filter P l = l.
Proof.
  induction l as [|a l IH]; intros Hl; [reflexivity|].
  rewrite filter_cons_True by (apply Hl; left).
  f_equal. apply IH. intros y Hy. apply Hl. right. exact Hy.
Qed.

Lemma keep_first_NoDup_id (l : list string) : NoDup l -> keep_first l = l.
Proof.
  induction 1 as [|a l Hnotin _ IH]; simpl; [reflexivity|].
  rewrite IH. f_equal. apply filter_all.
  intros y Hy ->. contradiction.
Qed.

Lemma keep_first_app (a b : list string) :
  keep_first (a ++ b) = keep_first a ++ filter (fun y => y ∉ a) (keep_first b).
Proof.
  clear repr_float repr_str set_literal json_dumps json_loads.
  induction a as [|x a IH]; simpl.
  - symmetry. apply filter_all. intros y _. apply not_elem_of_nil.
  - f_equal. rewrite IH, filter_app. f_equal.
    rewrite list_filter_filter. apply list_filter_iff.
    intros y. rewrite not_elem_of_cons. tauto.
Qed.

(** The loop with its [seen] set computes [keep_first]. *)
Lemma dedup_loop_keep_first (l : list string) (seen : gset string) (uniq : list string) :
  snd (fold_left dedup_step l (seen, uniq))
  = uniq ++ filter (fun y => y ∉ seen) (keep_first l).
Proof.
  clear repr_float repr_str set_literal json_dumps json_loads.
  revert seen uniq. induction l as [|x l IH]; intros seen uniq; simpl.
  - rewrite app_nil_r. reflexivity.
  - destruct (bool_decide (x ∈ seen)) eqn:Hx.
    + apply bool_decide_eq_true in Hx.
      rewrite IH. f_equal.
      rewrite filter_cons_False by (intros Hn; apply Hn; exact Hx).
      rewrite list_filter_filter. apply list_filter_iff.
      intros y. split; [|tauto]. intros Hy. split; [exact Hy|].
      intros ->. contradiction.
    + apply bool_decide_eq_false in Hx.
      rewrite IH, <- app_assoc. f_equal. simpl.
      rewrite filter_cons_True by exact Hx. f_equal.
      rewrite list_filter_filter. apply list_filter_iff.
      intros y. rewrite not_elem_of_union, not_elem_of_singleton. tauto.
Qed.

Lemma dedup_is_keep_first (l : list string) :
  dedup_preserving_order l = keep_first l.
Proof.
  unfold dedup_preserving_order. rewrite dedup_loop_keep_first. simpl.
  apply filter_all. intros y _. apply not_elem_of_empty.
Qed.

Lemma keep_first_twice (l : list string) : keep_first (l ++ l) = keep_first l.
Proof.
  rewrite keep_first_app.
  rewrite filter_none; [apply app_nil_r|].
  intros y Hy Hn. apply Hn. apply keep_first_elem. exact Hy.
Qed.

Lemma rendered_params_split (op_level path_level : value) :
  rendered_params op_level path_level
  = (a <- rendered_collection (py_or path_level (VList [])) ;;
     b <- rendered_collection (py_or op_level (VList [])) ;;
     Ok (a ++ b)).
Proof.
  unfold rendered_params, rendered_collection. cbn [for_each].
  step_on (iter (py_or path_level (VList []))) as ps1.
  rewrite (for_each_append_guarded (fun p => isinstance_dict p) render_param).
  step_on (mapM render_param (filter (fun p => isinstance_dict p) ps1)) as a.
  step_on (iter (py_or op_level (VList []))) as ps2.
  rewrite (for_each_append_guarded (fun p => isinstance_dict p) render_param).
  step_on (mapM render_param (filter (fun p => isinstance_dict p) ps2)) as b.
  reflexivity.
Qed.

(** Rendering a mapping never raises. *)
Lemma render_param_dict (p : value) :
  isinstance_dict p = true -> render_param p = Ok (description_of p).
Proof.
  destruct p as [| | | | | |kvs]; try discriminate. intros _.
  unfold description_of, render_param. cbn [get bind].
  destruct (default VNone (dict_lookup "schema" kvs)) as [| | | | | |sch];
    cbn [isinstance_dict get bind];
    repeat match goal with
           | |- context [if ?b then _ else _] => destruct b; cbn [get bind]
           end; reflexivity.
Qed.

Lemma rendered_collection_list (ps : list value) :
  rendered_collection (VList ps)
  = Ok (map description_of (filter (fun p => isinstance_dict p) ps)).
Proof.
  unfold rendered_collection. cbn [iter bind].
  apply mapM_Ok. induction ps as [|p ps IH]; [constructor|].
  rewrite filter_cons. destruct (decide (isinstance_dict p)) as [Hp|Hp]; [|exact IH].
  simpl. constructor; [|exact IH].
  apply render_param_dict. apply Is_true_true. exact Hp.
Qed.

Lemma py_or_list (ps : list value) :
  rendered_collection (py_or (VList ps) (VList [])) = rendered_collection (VList ps).
Proof. destruct ps; reflexivity. Qed.

Lemma merged_params_lists (op_level path_level : list value) :
  merged_params (VList op_level) (VList path_level)
  = Ok (keep_first (map description_of
                        (filter (fun p => isinstance_dict p) (path_level ++ op_level)))).
Proof.
  unfold merged_params. rewrite rendered_params_split, !py_or_list.
  rewrite !rendered_collection_list. cbn [bind].
  rewrite dedup_is_keep_first, filter_app, map_app. reflexivity.
Qed.

Lemma append_inj_r (s a b : string) : s +:+ a = s +:+ b -> a = b.
Proof. induction s as [|c s IH]; simpl; [auto|]. intros [= H]. auto. Qed.

(** Two strings that agree after a separator that occurs in neither prefix
    have the same prefix. *)
Lemma prefix_before_first (c : ascii) (l1 l2 r1 r2 : string) :
  occurs c l1 = false -> occurs c l2 = false ->
  l1 +:+ String c r1 = l2 +:+ String c r2 -> l1 = l2.
Proof.
  revert l2. induction l1 as [|a l1 IH]; intros [|b l2]; simpl; intros H1 H2 H.
  - reflexivity.
  - injection H as -> _. rewrite Ascii.eqb_refl in H2. discriminate.
  - injection H as <- _. rewrite Ascii.eqb_refl in H1. discriminate.
  - injection H as -> H.
    apply orb_false_elim in H1 as [_ H1]. apply orb_false_elim in H2 as [_ H2].
    f_equal. eapply IH; eassumption.
Qed.

(** A rendered description starts with the name, then the location in
    parentheses. *)
Lemma description_shape (kvs : list (string * value)) :
  exists rest,
    description_of (VDict kvs)
    = py_str (default (VStr "") (dict_lookup "name" kvs)) +:+ " ("
      +:+ py_str (default (VStr "") (dict_lookup "in" kvs)) +:+ String ")" rest.
Proof.
  unfold description_of, render_param. cbn [get bind].
  destruct (default VNone (dict_lookup "schema" kvs)) as [| | | | | |sch];
    cbn [isinstance_dict get bind];
    repeat match goal with
           | |- context [if ?b then _ else _] => destruct b; cbn [get bind]
           end; eexists; reflexivity.
Qed.

Lemma descriptions_differ_by_location (p1 p2 n1 n2 l1 l2 : value) :
  isinstance_dict p1 = true -> isinstance_dict p2 = true ->
  get p1 "name" (VStr "") = Ok n1 -> get p2 "name" (VStr "") = Ok n2 ->
  py_str n1 = py_str n2 ->
  get p1 "in" (VStr "") = Ok l1 ->
  get p2 "in" (VStr "") = Ok l2 ->
  occurs ")" (py_str l1) = false -> occurs ")" (py_str l2) = false ->
  py_str l1 <> py_str l2 ->
  description_of p1 <> description_of p2.
Proof.
  destruct p1 as [| | | | | |kvs1]; try discriminate.
  destruct p2 as [| | | | | |kvs2]; try discriminate.
  cbn [get]. intros _ _ [= Hn1] [= Hn2] Hname [= Hl1] [= Hl2] Ho1 Ho2 Hne Heq.
  destruct (description_shape kvs1) as (r1 & E1).
  destruct (description_shape kvs2) as (r2 & E2).
  rewrite E1, E2, Hn1, Hn2, Hl1, Hl2, Hname in Heq.
  apply append_inj_r in Heq.
  change (String " " (String "(" (py_str l1 +:+ String ")" r1))
          = String " " (String "(" (py_str l2 +:+ String ")" r2))) in Heq.
  injection Heq as Heq.
  apply Hne. eapply prefix_before_first; eassumption.
Qed.

Lemma locations_have_no_parenthesis (l : string) :
  l ∈ locations -> occurs ")" l = false.
Proof.
  unfold locations. intros H.
  repeat (apply elem_of_cons in H as [->|H]; [reflexivity|]).
  inversion H.
Qed.

(** C4 (as amended): on lists, the merger returns the rendered descriptions
    of the path-level parameters, then of the operation-level ones, each side
    in its own order, with every description kept at its first occurrence
    only (entries that are no mapping are left out): the result has no
    repetition, is a subsequence of the rendered concatenation with the same
    elements, and holds each description where it first occurs.  Two
    parameters whose names have the same text are both retained whenever the
    texts of their locations differ and neither text contains a closing
    parenthesis; so they are for any two different locations among query,
    path, header, body and formData. *)
Theorem merger_concat_dedup (path_level op_level : list value) :
  let declared_dicts := filter (fun p => isinstance_dict p) (path_level ++ op_level) in
  let rendered := map description_of declared_dicts in
  merged_params (VList op_level) (VList path_level) = Ok (keep_first rendered)
  /\ collect_params (VList op_level) (VList path_level)
     = Ok (str_join "; " (keep_first rendered))
  /\ NoDup (keep_first rendered)
  /\ sublist (keep_first rendered) rendered
  /\ (forall x, x ∈ keep_first rendered <-> x ∈ rendered)
  /\ (forall before x after,
         rendered = before ++ x :: after -> x ∉ before ->
         exists rest, keep_first rendered = keep_first before ++ x :: rest)
  /\ (forall p1 p2 n1 n2 l1 l2,
         p1 ∈ declared_dicts -> p2 ∈ declared_dicts ->
         get p1 "name" (VStr "") = Ok n1 -> get p2 "name" (VStr "") = Ok n2 ->
         py_str n1 = py_str n2 ->
         get p1 "in" (VStr "") = Ok l1 ->
         get p2 "in" (VStr "") = Ok l2 ->
         occurs ")" (py_str l1) = false -> occurs ")" (py_str l2) = false ->
         py_str l1 <> py_str l2 ->
         description_of p1 <> description_of p2
         /\ description_of p1 ∈ keep_first rendered
         /\ description_of p2 ∈ keep_first rendered)
  /\ (forall p1 p2 l1 l2,
         p1 ∈ declared_dicts -> p2 ∈ declared_dicts ->
         get p1 "name" (VStr "") = get p2 "name" (VStr "") ->
         get p1 "in" (VStr "") = Ok (VStr l1) ->
         get p2 "in" (VStr "") = Ok (VStr l2) ->
         l1 ∈ locations -> l2 ∈ locations -> l1 <> l2 ->
         description_of p1 <> description_of p2
         /\ description_of p1 ∈ keep_first rendered
         /\ description_of p2 ∈ keep_first rendered).
Proof.
  intros declared_dicts rendered.
  assert (Hm : merged_params (VList op_level) (VList path_level)
               = Ok (keep_first rendered)) by apply merged_params_lists.
  split; [exact Hm|].
  split; [unfold collect_params; rewrite Hm; reflexivity|].
  split; [apply keep_first_NoDup|].
  split; [apply keep_first_sublist|].
  split; [intros x; apply keep_first_elem|].
  split.
  { intros before x after -> Hx. rewrite keep_first_app. simpl.
    rewrite filter_cons_True by exact Hx. eauto. }
  assert (Hgen : forall p1 p2 n1 n2 l1 l2,
             p1 ∈ declared_dicts -> p2 ∈ declared_dicts ->
             get p1 "name" (VStr "") = Ok n1 -> get p2 "name" (VStr "") = Ok n2 ->
             py_str n1 = py_str n2 ->
             get p1 "in" (VStr "") = Ok l1 ->
             get p2 "in" (VStr "") = Ok l2 ->
             occurs ")" (py_str l1) = false -> occurs ")" (py_str l2) = false ->
             py_str l1 <> py_str l2 ->
             description_of p1 <> description_of p2
             /\ description_of p1 ∈ keep_first rendered
             /\ description_of p2 ∈ keep_first rendered).
  { intros p1 p2 n1 n2 l1 l2 H1 H2 Hn1 Hn2 Hname Hl1 Hl2 Ho1 Ho2 Hne.
    assert (Hd1 : isinstance_dict p1 = true).
    { apply list_elem_of_filter in H1 as [Hd _]. apply Is_true_true. exact Hd. }
    assert (Hd2 : isinstance_dict p2 = true).
    { apply list_elem_of_filter in H2 as [Hd _]. apply Is_true_true. exact Hd. }
    split; [eapply (descriptions_differ_by_location p1 p2 n1 n2 l1 l2); eassumption|].
    split; apply keep_first_elem; unfold rendered;
      apply list_elem_of_fmap_2; assumption. }
  split; [exact Hgen|].
  intros p1 p2 l1 l2 H1 H2 Hname Hl1 Hl2 Hs1 Hs2 Hne.
  assert (Hd1 : isinstance_dict p1 = true).
  { apply list_elem_of_filter in H1 as [Hd _]. apply Is_true_true. exact Hd. }
  destruct p1 as [| | | | | |kvs1]; try discriminate Hd1.
  apply (Hgen (VDict kvs1) p2 (default (VStr "") (dict_lookup "name" kvs1))
              (default (VStr "") (dict_lookup "name" kvs1)) (VStr l1) (VStr l2));
    try assumption.
  - reflexivity.
  - rewrite <- Hname. reflexivity.
  - reflexivity.
  - apply locations_have_no_parenthesis. exact Hs1.
  - apply locations_have_no_parenthesis. exact Hs2.
Qed.

(** C7: merging a parameter list with itself gives what merging it with the
    empty list gives, on either side; a list of mappings whose descriptions
    are already pairwise different comes back unchanged when merged with the
    empty list; and the de-duplication pass run on its own output returns
    it unchanged. *)
Theorem dedup_idempotent :
  (forall L, collect_params L L = collect_params L (VList [])
             /\ collect_params L L = collect_params (VList []) L)
  /\ (forall L, merged_params L L = merged_params L (VList []))
  /\ (forall ps : list value,
        Forall (fun p => isinstance_dict p = true) ps ->
        NoDup (map description_of ps) ->
        merged_params (VList ps) (VList []) = Ok (map description_of ps))
  /\ (forall xs,
        dedup_preserving_order (dedup_preserving_order xs)
        = dedup_preserving_order xs).
Proof.
  assert (Hself : forall L, merged_params L L = merged_params L (VList [])
                            /\ merged_params L L = merged_params (VList []) L).
  { intros L. unfold merged_params. rewrite !rendered_params_split.
    change (py_or (VList []) (VList [])) with (VList []).
    rewrite (rendered_collection_list []). cbn [bind filter map app].
    destruct (rendered_collection (py_or L (VList []))) as [a|e]; cbn [bind];
      [|split; reflexivity].
    rewrite !dedup_is_keep_first, keep_first_twice, app_nil_r. split; reflexivity. }
  split; [|split; [|split]].
  - intros L. unfold collect_params. destruct (Hself L) as [-> ->]. split; reflexivity.
  - intros L. apply Hself.
  - intros ps Hdict Hnd. rewrite merged_params_lists. simpl.
    rewrite filter_all.
    + rewrite keep_first_NoDup_id by exact Hnd. reflexivity.
    + intros p Hp. rewrite Forall_forall in Hdict.
      apply Is_true_true. apply Hdict. exact Hp.
  - intros xs. rewrite !dedup_is_keep_first.
    apply keep_first_NoDup_id. apply keep_first_NoDup.
Qed.

(** ** Further properties of the engine *)

(** X2: the document accessor.  The default comes back exactly when the key is
    absent or its value is null; an empty list or string comes back as it
    is. *)
Theorem safe_get_contract (kvs : list (string * value)) (key : string) (dflt : value) :
  safe_get (VDict kvs) key dflt
  = Ok (match dict_lookup key kvs with
        | Some VNone | None => dflt
        | Some v => v
        end).
Proof.
  unfold safe_get. cbn [get bind].
  destruct (dict_lookup key kvs) as [[| | | | | |]|]; simpl; try reflexivity.
  destruct dflt; reflexivity.
Qed.

(** X3: the joiner.  Null for an absent, null or empty collection, the joined
    renderings of the elements otherwise. *)
Theorem join_or_none_contract (sep : string) :
  (forall values, truthy values = false -> join_or_none values sep = Ok VNone)
  /\ (forall x xs,
        join_or_none (VList (x :: xs)) sep
        = Ok (VStr (str_join sep (map py_str (x :: xs))))).
Proof.
  unfold join_or_none. split.
  - intros values ->. reflexivity.
  - intros x xs. reflexivity.
Qed.

Lemma operation_row_responses_count (sw : value) (o : operation) (r : row) :
  operation_row sw o = Ok r ->
  exists responses n,
    get (op_body o) "responses" (VDict []) = Ok responses
    /\ len responses = Ok n
    /\ column "responses_count" r = VInt n.
Proof.
  unfold operation_row, endpoint_row. intros H.
  bind_inv_all. do 2 eexists. repeat split; eassumption || reflexivity.
Qed.

(** X1: responses_count is the number of status-code keys under the operation's
    responses mapping, none filtered out, and 0 when none is declared. *)
Theorem responses_count_counts_keys (sw : value) (rows : list row) :
  extract_endpoints sw = Ok rows ->
  Forall2 (fun o r =>
             (forall coded,
                 declared "responses" (op_body o) = Some (VDict coded) ->
                 column "responses_count" r = VInt (Z.of_nat (length coded)))
             /\ (declared "responses" (op_body o) = None ->
                 column "responses_count" r = VInt 0))
          (operations sw) rows.
Proof.
  intros H. apply extract_endpoints_rows in H.
  eapply Forall2_impl; [exact H|]. clear H.
  intros o r Hr.
  apply operation_row_responses_count in Hr as (responses & n & Hget & Hlen & ->).
  apply get_declared in Hget. split.
  - intros coded Hc. rewrite Hc in Hget. simpl in Hget. subst responses.
    simpl in Hlen. injection Hlen as <-. reflexivity.
  - intros Hc. rewrite Hc in Hget. simpl in Hget. subst responses.
    simpl in Hlen. injection Hlen as <-. reflexivity.
Qed.

(** X4: a document without paths, tags, security definitions or model
    definitions yields each relation empty, not absent. *)
Theorem degenerate_documents (top : list (string * value)) :
  (dict_lookup "paths" top = None ->
   extract_endpoints (VDict top) = Ok []
   /\ extract_parameters (VDict top) = Ok []
   /\ extract_responses (VDict top) = Ok [])
  /\ (dict_lookup "tags" top = None -> extract_tags (VDict top) = Ok [])
  /\ (dict_lookup "securityDefinitions" top = None ->
      extract_securities (VDict top) = Ok [])
  /\ (dict_lookup "definitions" top = None ->
      extract_models_and_properties (VDict top) = Ok ([], [])).
Proof.
  unfold extract_endpoints, extract_parameters, extract_responses, extract_tags,
    extract_securities, extract_models_and_properties.
  cbn [get bind].
  split; [|split; [|split]]; intros ->; [repeat split| | |]; reflexivity.
Qed.

(** X10: a parameter or a tag that is not a mapping is not passed over: whenever
    an operation carries such a parameter the parameters extractor returns
    no relation at all, and whenever such a tag is declared neither does the
    tags extractor. *)
Theorem non_mapping_unit_aborts (sw : value) :
  (forall o params p,
      o ∈ operations sw -> operation_params o = Ok params -> p ∈ params ->
      isinstance_dict p = false ->
      exists e, extract_parameters sw = Raise e)
  /\ (forall t,
        t ∈ declared_tags sw -> isinstance_dict t = false ->
        exists e, extract_tags sw = Raise e).
Proof.
  split.
  - intros o params p Ho Hparams Hp Hnd.
    destruct (extract_parameters sw) as [rows|e] eqn:H; [exfalso|eauto].
    apply extract_parameters_groups in H as (groups & Hg & _).
    destruct (Forall2_elem_l _ _ _ _ Hg Ho) as (g & _ & Hrows).
    unfold operation_parameter_rows in Hrows.
    apply bind_Ok_inv in Hrows as (tags & _ & Hrows).
    apply bind_Ok_inv in Hrows as (api_group & _ & Hrows).
    apply bind_Ok_inv in Hrows as (operation_id & _ & Hrows).
    rewrite Hparams in Hrows. cbn [bind] in Hrows.
    apply mapM_Ok in Hrows.
    destruct (Forall2_elem_l _ _ _ _ Hrows Hp) as (r & _ & Hr).
    apply parameter_row_inv in Hr as (_ & _ & _ & Hd). congruence.
  - intros t Ht Hnd.
    destruct (extract_tags sw) as [rows|e] eqn:H; [exfalso|eauto].
    apply extract_tags_rows in H.
    destruct (Forall2_elem_l _ _ _ _ H Ht) as (r & _ & Hr).
    destruct t; try discriminate Hr. discriminate Hnd.
Qed.

(** ** The relations as tables *)

Lemma operation_row_columns (sw : value) (o : operation) (r : row) :
  operation_row sw o = Ok r -> map fst r = endpoints_columns.
Proof. unfold operation_row, endpoint_row. intros H. bind_inv_all. reflexivity. Qed.

Lemma parameter_row_columns (api_group operation_id : value) (method path : string)
    (p : value) (r : row) :
  parameter_row api_group operation_id method path p = Ok r ->
  map fst r = parameters_columns
  /\ column "api_group" r = api_group
  /\ column "operationId" r = operation_id.
Proof. unfold parameter_row. intros H. bind_inv_all. repeat split. Qed.

Lemma response_row_columns (api_group operation_id : value) (method path code : string)
    (resp : value) (r : row) :
  response_row api_group operation_id method path code resp = Ok r ->
  map fst r = responses_columns
  /\ column "api_group" r = api_group
  /\ column "operationId" r = operation_id.
Proof. unfold response_row. intros H. bind_inv_all. repeat split. Qed.

Lemma tag_row_columns (t : value) (r : row) :
  tag_row t = Ok r -> map fst r = tags_columns.
Proof. unfold tag_row. intros H. bind_inv_all. reflexivity. Qed.

Lemma security_row_columns (name : string) (sec : value) (r : row) :
  security_row name sec = Ok r -> map fst r = securities_columns.
Proof. unfold security_row. intros H. bind_inv_all. reflexivity. Qed.

Lemma model_row_columns (name : string) (model : value) (r : row) :
  model_row name model = Ok r -> map fst r = models_columns.
Proof. unfold model_row. intros H. bind_inv_all. reflexivity. Qed.

Lemma property_row_columns (model_name prop_name : string) (prop : value) (r : row) :
  property_row model_name prop_name prop = Ok r -> map fst r = model_props_columns.
Proof. unfold property_row. intros H. bind_inv_all. reflexivity. Qed.

Lemma Forall_groups {A B : Type} (R : A -> list B -> Prop) (Q : B -> Prop)
    (os : list A) (groups : list (list B)) :
  (forall o g, R o g -> Forall Q g) ->
  Forall2 R os groups -> Forall Q (concat groups).
Proof.
  intros HR. induction 1 as [|o g os groups Hg _ IH]; simpl; [constructor|].
  apply Forall_app. split; [eapply HR; exact Hg | exact IH].
Qed.

Lemma Forall_mapM {A B : Type} (f : A -> result B) (Q : B -> Prop)
    (xs : list A) (ys : list B) :
  (forall x y, f x = Ok y -> Q y) -> mapM f xs = Ok ys -> Forall Q ys.
Proof.
  intros HQ H. apply mapM_Ok in H.
  induction H; constructor; eauto.
Qed.

(** The rows of an operation's parameters and responses, with the values
    they share. *)
Lemma operation_parameter_rows_full (o : operation) (g : list row) :
  operation_parameter_rows o = Ok g ->
  exists tags api_group operation_id params,
    get (op_body o) "tags" (VList []) = Ok tags
    /\ first_tag tags = Ok api_group
    /\ get (op_body o) "operationId" VNone = Ok operation_id
    /\ operation_params o = Ok params
    /\ mapM (parameter_row api_group operation_id (op_method o) (op_path o)) params
       = Ok g.
Proof.
  unfold operation_parameter_rows. intros H.
  apply bind_Ok_inv in H as (tags & Htags & H).
  apply bind_Ok_inv in H as (api_group & Hag & H).
  apply bind_Ok_inv in H as (operation_id & Hid & H).
  apply bind_Ok_inv in H as (params & Hparams & H).
  exists tags, api_group, operation_id, params. auto.
Qed.

Lemma operation_response_rows_full (o : operation) (g : list row) :
  operation_response_rows o = Ok g ->
  exists tags api_group operation_id coded,
    get (op_body o) "tags" (VList []) = Ok tags
    /\ first_tag tags = Ok api_group
    /\ get (op_body o) "operationId" VNone = Ok operation_id
    /\ operation_responses o = Ok coded
    /\ mapM (fun cr => response_row api_group operation_id (op_method o) (op_path o)
                                    (fst cr) (snd cr)) coded
       = Ok g.
Proof.
  unfold operation_response_rows. intros H.
  apply bind_Ok_inv in H as (tags & Htags & H).
  apply bind_Ok_inv in H as (api_group & Hag & H).
  apply bind_Ok_inv in H as (operation_id & Hid & H).
  apply bind_Ok_inv in H as (coded & Hcoded & H).
  exists tags, api_group, operation_id, coded. auto.
Qed.

Lemma operation_row_identity (sw : value) (o : operation) (r : row) :
  operation_row sw o = Ok r ->
  exists tags,
    get (op_body o) "tags" (VList []) = Ok tags
    /\ first_tag tags = Ok (column "api_group" r)
    /\ get (op_body o) "operationId" VNone = Ok (column "operationId" r).
Proof.
  unfold operation_row, endpoint_row. intros H. bind_inv_all.
  eexists. repeat split; eassumption.
Qed.

(** X6: every row of a relation has that relation's columns, all of them
    and in the one order, whatever the document leaves out. *)
Theorem relations_have_fixed_columns (sw : value) :
  (forall rows, extract_endpoints sw = Ok rows ->
                Forall (fun r => map fst r = endpoints_columns) rows)
  /\ (forall rows, extract_parameters sw = Ok rows ->
                   Forall (fun r => map fst r = parameters_columns) rows)
  /\ (forall rows, extract_responses sw = Ok rows ->
                   Forall (fun r => map fst r = responses_columns) rows)
  /\ (forall rows, extract_tags sw = Ok rows ->
                   Forall (fun r => map fst r = tags_columns) rows)
  /\ (forall rows, extract_securities sw = Ok rows ->
                   Forall (fun r => map fst r = securities_columns) rows)
  /\ (forall model_rows prop_rows,
         extract_models_and_properties sw = Ok (model_rows, prop_rows) ->
         Forall (fun r => map fst r = models_columns) model_rows
         /\ Forall (fun r => map fst r = model_props_columns) prop_rows).
Proof.
  split; [|split; [|split; [|split; [|split]]]].
  - intros rows H. apply extract_endpoints_rows in H.
    eapply Forall2_Forall_r; [exact H|].
    apply Forall_forall. intros o _ r. apply operation_row_columns.
  - intros rows H. apply extract_parameters_groups in H as (groups & Hg & ->).
    eapply Forall_groups; [|exact Hg].
    intros o g Hrows.
    apply operation_parameter_rows_full in Hrows as (? & ? & ? & ? & _ & _ & _ & _ & Hm).
    eapply Forall_mapM; [|exact Hm].
    intros p r Hr. apply parameter_row_columns in Hr. apply Hr.
  - intros rows H. apply extract_responses_groups in H as (groups & Hg & ->).
    eapply Forall_groups; [|exact Hg].
    intros o g Hrows.
    apply operation_response_rows_full in Hrows as (? & ? & ? & ? & _ & _ & _ & _ & Hm).
    eapply Forall_mapM; [|exact Hm].
    intros cr r Hr. apply response_row_columns in Hr. apply Hr.
  - intros rows H. apply extract_tags_rows in H.
    eapply Forall2_Forall_r; [exact H|].
    apply Forall_forall. intros t _ r. apply tag_row_columns.
  - intros rows H. apply extract_securities_rows in H.
    eapply Forall2_Forall_r; [exact H|].
    apply Forall_forall. intros ns _ r. apply security_row_columns.
  - intros model_rows prop_rows H.
    apply extract_models_rows in H as (groups & HFm & HFp & ->). split.
    + eapply Forall2_Forall_r; [exact HFm|].
      apply Forall_forall. intros nm _ r. apply model_row_columns.
    + eapply Forall_groups; [|exact HFp].
      intros nm g Hg. unfold model_property_rows in Hg.
      apply bind_Ok_inv in Hg as (dp & _ & Hg).
      apply bind_Ok_inv in Hg as (nps & _ & Hg).
      eapply Forall_mapM; [|exact Hg].
      intros np r. apply property_row_columns.
Qed.

Lemma operation_responses_length (o : operation) (coded : list (string * value))
    (responses : value) (n : Z) :
  operation_responses o = Ok coded ->
  get (op_body o) "responses" (VDict []) = Ok responses ->
  len responses = Ok n ->
  Z.of_nat (length coded) <= n.
Proof.
  unfold operation_responses. intros H Hget Hlen.
  rewrite Hget in H. cbn [bind] in H.
  apply bind_Ok_inv in H as (all & Hall & [= <-]).
  destruct responses; try discriminate Hall.
  simpl in Hall, Hlen. injection Hall as <-. injection Hlen as <-.
  apply inj_le. apply length_filter.
Qed.

(** X7: the parameter rows and the response rows fall into groups, one per
    endpoints row in order; every row of a group repeats the api_group and
    the operationId of that endpoints row.  A response group has at most
    responses_count rows: responses that are no mappings are counted but
    yield no row. *)
Theorem rows_share_operation_identity (sw : value) (erows prows rrows : list row) :
  extract_endpoints sw = Ok erows ->
  extract_parameters sw = Ok prows ->
  extract_responses sw = Ok rrows ->
  exists pgroups rgroups,
    prows = concat pgroups
    /\ rrows = concat rgroups
    /\ Forall2 (fun e g =>
                  Forall (fun r => column "api_group" r = column "api_group" e
                                   /\ column "operationId" r = column "operationId" e) g)
               erows pgroups
    /\ Forall2 (fun e g =>
                  Forall (fun r => column "api_group" r = column "api_group" e
                                   /\ column "operationId" r = column "operationId" e) g
                  /\ Z.of_nat (length g) <= int_cell (column "responses_count" e))
               erows rgroups.
Proof.
  intros He Hp Hr.
  apply extract_endpoints_rows in He.
  apply extract_parameters_groups in Hp as (pgroups & Hpg & ->).
  apply extract_responses_groups in Hr as (rgroups & Hrg & ->).
  exists pgroups, rgroups. split; [reflexivity|]. split; [reflexivity|]. split.
  - eapply Forall2_impl; [exact (Forall2_compose _ _ _ _ _ He Hpg)|].
    intros e g (o & Hrow & Hrows). cbv beta in *.
    apply operation_row_identity in Hrow as (tags & Htags & Hag & Hid).
    apply operation_parameter_rows_full in Hrows
      as (tags' & ag & oid & params & Htags' & Hag' & Hid' & _ & Hm).
    rewrite Htags in Htags'. injection Htags' as <-.
    rewrite Hag in Hag'. injection Hag' as <-.
    rewrite Hid in Hid'. injection Hid' as <-.
    eapply Forall_mapM; [|exact Hm].
    intros p r Hpr. apply parameter_row_columns in Hpr as (_ & -> & ->). auto.
  - eapply Forall2_impl; [exact (Forall2_compose _ _ _ _ _ He Hrg)|].
    intros e g (o & Hrow & Hrows). cbv beta in *.
    pose proof (operation_row_responses_count _ _ _ Hrow)
      as (responses & n & Hget & Hlen & Hcount).
    apply operation_row_identity in Hrow as (tags & Htags & Hag & Hid).
    apply operation_response_rows_full in Hrows
      as (tags' & ag & oid & coded & Htags' & Hag' & Hid' & Hcoded & Hm).
    rewrite Htags in Htags'. injection Htags' as <-.
    rewrite Hag in Hag'. injection Hag' as <-.
    rewrite Hid in Hid'. injection Hid' as <-.
    split.
    + eapply Forall_mapM; [|exact Hm].
      intros cr r Hcr. apply response_row_columns in Hcr as (_ & -> & ->). auto.
    + rewrite Hcount. simpl.
      apply mapM_Ok in Hm. apply Forall2_length in Hm. rewrite <- Hm.
      eapply operation_responses_length; eassumption.
Qed.

Lemma count_is_group_size (sw : value) (o : operation) (e : row) (g : list row) :
  operation_row sw o = Ok e ->
  operation_parameter_rows o = Ok g ->
  column "parameters_count" e = VInt (Z.of_nat (length g)).
Proof.
  intros Hrow Hrows.
  apply operation_row_inv in Hrow
    as (_ & _ & _ & _ & _ & _ & plp & op_params & n_op & n_path
        & _ & _ & _ & _ & _ & _ & _ & _ & _ & Hplp & Hop & Hn_op & Hn_path
        & Hcount & _).
  apply operation_parameter_rows_inv in Hrows as (params & Hparams & HF).
  rewrite Hcount. f_equal.
  rewrite (operation_params_length _ _ _ _ _ _ Hparams Hplp Hop Hn_op Hn_path).
  f_equal. eapply Forall2_length. exact HF.
Qed.

Lemma sum_of_group_sizes (erows : list row) (groups : list (list row)) :
  Forall2 (fun e g => column "parameters_count" e = VInt (Z.of_nat (length g)))
          erows groups ->
  foldr (fun e total => int_cell (column "parameters_count" e) + total) 0 erows
  = Z.of_nat (length (concat groups)).
Proof.
  induction 1 as [|e g erows groups Hg _ IH]; simpl; [reflexivity|].
  rewrite Hg, IH, length_app. simpl. lia.
Qed.

(** X8: the parameters relation has as many rows as the parameters_count
    cells of the endpoints relation add up to. *)
Theorem parameter_rows_total (sw : value) (erows prows : list row) :
  extract_endpoints sw = Ok erows ->
  extract_parameters sw = Ok prows ->
  foldr (fun e total => int_cell (column "parameters_count" e) + total) 0 erows
  = Z.of_nat (length prows).
Proof.
  intros He Hp.
  apply extract_endpoints_rows in He.
  apply extract_parameters_groups in Hp as (groups & Hg & ->).
  apply sum_of_group_sizes.
  eapply Forall2_impl; [exact (Forall2_compose _ _ _ _ _ He Hg)|].
  intros e g (o & Hrow & Hrows). eapply count_is_group_size; eassumption.
Qed.

Lemma operation_row_content_types (sw : value) (o : operation) (r : row) :
  operation_row sw o = Ok r ->
  exists sw_consumes consumes sw_produces produces,
    get sw "consumes" VNone = Ok sw_consumes
    /\ get (op_body o) "consumes" sw_consumes = Ok consumes
    /\ join_or_none consumes default_sep = Ok (column "consumes" r)
    /\ get sw "produces" VNone = Ok sw_produces
    /\ get (op_body o) "produces" sw_produces = Ok produces
    /\ join_or_none produces default_sep = Ok (column "produces" r).
Proof.
  unfold operation_row, endpoint_row. intros H. bind_inv_all.
  do 4 eexists. repeat split; eassumption.
Qed.

(** X9: the consumes and produces cells of an operation are rendered from
    the operation's own list when it declares the key, even as an empty list
    or null (both render as null), and from the document's list only when
    the operation has no such key; the two lists are never combined. *)
Theorem content_types_override_default (sw : value) (rows : list row) :
  extract_endpoints sw = Ok rows ->
  Forall2 (fun o r =>
             match declared "consumes" (op_body o) with
             | Some own => join_or_none own default_sep = Ok (column "consumes" r)
             | None => join_or_none (default VNone (declared "consumes" sw)) default_sep
                       = Ok (column "consumes" r)
             end
             /\ match declared "produces" (op_body o) with
                | Some own => join_or_none own default_sep = Ok (column "produces" r)
                | None => join_or_none (default VNone (declared "produces" sw)) default_sep
                          = Ok (column "produces" r)
                end)
          (operations sw) rows.
Proof.
  intros H. apply extract_endpoints_rows in H.
  eapply Forall2_impl; [exact H|]. clear H.
  intros o r Hr.
  apply operation_row_content_types in Hr
    as (swc & c & swp & pr & Hswc & Hc & Hjc & Hswp & Hp & Hjp).
  apply get_declared in Hswc. apply get_declared in Hc.
  apply get_declared in Hswp. apply get_declared in Hp.
  split.
  - destruct (declared "consumes" (op_body o)); simpl in Hc; subst; exact Hjc.
  - destruct (declared "produces" (op_body o)); simpl in Hp; subst; exact Hjp.
Qed.

(** ** When the extractors raise *)

Lemma mapM_succeeds {A B : Type} (f : A -> result B) (xs : list A) :
  (exists ys, mapM f xs = Ok ys) <-> Forall (fun x => exists y, f x = Ok y) xs.
Proof.
  induction xs as [|x xs IH]; simpl.
  - split; [constructor | eauto].
  - split.
    + intros (ys & H).
      apply bind_Ok_inv in H as (y & Hy & H).
      apply bind_Ok_inv in H as (ys' & Hys & _).
      constructor; [eauto | apply IH; eauto].
    + intros H. apply Forall_cons in H as [(y & Hy) Hrest].
      apply IH in Hrest as (ys & Hys). rewrite Hy, Hys. simpl. eauto.
Qed.

Lemma walk_inner_succeeds {B : Type} (per_op : operation -> result (list B))
    (path : string) (ops0 ops : list (string * value)) (acc : list B) :
  Forall (fun o => exists g, per_op o = Ok g)
    (flat_map (fun '(method, op) =>
                 if not_an_operation method op then []
                 else [Operation path (VDict ops0) method op]) ops) ->
  exists rows,
    for_each ops (fun '(method, op) rows =>
      if not_an_operation method op then Ok rows
      else ys <- per_op (Operation path (VDict ops0) method op) ;; Ok (rows ++ ys)) acc
    = Ok rows.
Proof.
  revert acc. induction ops as [|[method op] ops IH]; intros acc H; simpl in *.
  - eauto.
  - destruct (not_an_operation method op); simpl in *.
    + apply IH. exact H.
    + apply Forall_cons in H as [(g & Hg) Hrest]. rewrite Hg. simpl.
      apply IH. exact Hrest.
Qed.

Lemma walk_outer_succeeds {B : Type} (per_op : operation -> result (list B))
    (path_items : list (string * value)) (acc : list B) :
  Forall (fun o => exists g, per_op o = Ok g)
    (flat_map (fun '(path, path_item) => operations_of_path path path_item) path_items) ->
  exists rows,
    for_each path_items (fun '(path, path_item) rows =>
      if negb (isinstance_dict path_item) then Ok rows
      else
        ops <- items path_item ;;
        for_each ops (fun '(method, op) rows =>
          if not_an_operation method op then Ok rows
          else ys <- per_op (Operation path path_item method op) ;; Ok (rows ++ ys))
        rows) acc
    = Ok rows.
Proof.
  revert acc. induction path_items as [|[path path_item] rest IH]; intros acc H;
    simpl in *.
  - eauto.
  - destruct path_item as [| | | | | |ops]; simpl in *; try (apply IH; exact H).
    apply Forall_app in H as [Hhere Hrest].
    destruct (walk_inner_succeeds per_op path ops ops acc Hhere) as (mid & ->).
    simpl. apply IH. exact Hrest.
Qed.

(** A walk returns exactly when the paths are a mapping and [per_op]
    returns for every operation. *)
Lemma walk_operations_succeeds {B : Type} (per_op : operation -> result (list B))
    (sw : value) :
  (exists rows, walk_operations per_op sw = Ok rows)
  <-> paths_ok sw = true
      /\ Forall (fun o => exists g, per_op o = Ok g) (operations sw).
Proof.
  split.
  - intros (rows & H). split.
    + unfold walk_operations, paths_ok in *.
      destruct sw as [| | | | | |top]; try discriminate H.
      cbn [get bind declared isinstance_dict andb] in *.
      destruct (default (VDict []) (dict_lookup "paths" top));
        try discriminate H. reflexivity.
    + apply walk_operations_Ok in H as (groups & HF & _).
      clear rows. induction HF; constructor; eauto.
  - intros [Hp HF]. unfold walk_operations, paths_ok, operations, declared_paths in *.
    destruct sw as [| | | | | |top]; try discriminate Hp.
    cbn [get bind declared isinstance_dict andb] in *.
    destruct (default (VDict []) (dict_lookup "paths" top)) as [| | | | | |path_items];
      try discriminate Hp.
    cbn [items bind]. apply walk_outer_succeeds. exact HF.
Qed.

Lemma safe_get_or_dict_succeeds (v : value) (key : string) :
  (exists x, safe_get (py_or v (VDict [])) key VNone = Ok x)
  <-> falsy_or_dict v = true.
Proof.
  unfold safe_get, py_or, falsy_or_dict.
  destruct (truthy v) eqn:Ht; simpl.
  - destruct v; simpl; split; intros H; try discriminate H;
      try (destruct H as (x & H); discriminate H); eauto.
  - split; eauto.
Qed.

Lemma join_or_none_succeeds (v : value) (sep : string) :
  (exists x, join_or_none v sep = Ok x) <-> joinable v = true.
Proof.
  unfold join_or_none, joinable.
  destruct (truthy v) eqn:Ht; simpl.
  - destruct v; simpl; split; intros H; try discriminate H;
      try (destruct H as (x & H); discriminate H); eauto.
  - split; eauto.
Qed.

Lemma first_tag_succeeds (tags : value) :
  (exists x, first_tag tags = Ok x) <-> first_tag_ok tags = true.
Proof.
  unfold first_tag, first_tag_ok.
  destruct (truthy tags) eqn:Ht; simpl; [|split; eauto].
  destruct tags as [| | | | s | xs | kvs]; simpl in *; split; intros H;
    try discriminate H; try (destruct H as (x & H); discriminate H);
    try reflexivity.
  - destruct s; [discriminate Ht | eauto].
  - destruct xs; [discriminate Ht | eauto].
Qed.

Lemma iter_succeeds (v : value) :
  (exists xs, iter v = Ok xs) <-> iterable v = true.
Proof.
  destruct v; simpl; split; intros H; try discriminate H;
    try (destruct H as (x & H); discriminate H); eauto.
Qed.

Lemma parameter_row_succeeds (api_group operation_id : value)
    (method path : string) (p : value) :
  (exists r, parameter_row api_group operation_id method path p = Ok r)
  <-> parameter_ok p = true.
Proof.
  unfold parameter_ok.
  destruct p as [| | | | | |kvs];
    try (split; [intros (r & H); discriminate H | intros H; discriminate H]).
  unfold parameter_row, field. cbn [get bind isinstance_dict andb].
  set (its := default VNone (dict_lookup "items" kvs)).
  set (sch := default VNone (dict_lookup "schema" kvs)).
  set (enm := default VNone (dict_lookup "enum" kvs)).
  split.
  - intros (r & H). bind_inv_all.
    rewrite !andb_true_iff. repeat split.
    + eapply safe_get_or_dict_succeeds. eauto.
    + eapply safe_get_or_dict_succeeds. eauto.
    + eapply join_or_none_succeeds. eauto.
  - rewrite !andb_true_iff. intros [[Hi Hs] He].
    destruct (proj2 (safe_get_or_dict_succeeds its "type") Hi) as (x1 & ->).
    destruct (proj2 (safe_get_or_dict_succeeds its "format") Hi) as (x2 & ->).
    destruct (proj2 (join_or_none_succeeds enm default_sep) He) as (x3 & ->).
    destruct (proj2 (safe_get_or_dict_succeeds sch "$ref") Hs) as (x4 & ->).
    destruct (proj2 (safe_get_or_dict_succeeds sch "type") Hs) as (x5 & ->).
    cbn [bind]. eauto.
Qed.

(** X11: [parameter_row] returns a row exactly for a parameter that is a
    mapping whose items and schema are each absent, empty or a mapping and
    whose enum is absent, empty or a collection; for anything else it
    raises. *)
Theorem parameter_row_succeeds_iff (api_group operation_id : value)
    (method path : string) (p : value) :
  (exists r, parameter_row api_group operation_id method path p = Ok r)
  <-> parameter_ok p = true.
Proof. apply parameter_row_succeeds. Qed.

Lemma operation_parameter_rows_succeeds (o : operation) :
  isinstance_dict (op_body o) = true ->
  isinstance_dict (op_path_item o) = true ->
  (exists g, operation_parameter_rows o = Ok g) <-> operation_parameters_ok o = true.
Proof.
  destruct o as [path path_item method body]. simpl.
  destruct body as [| | | | | |bkvs]; try discriminate.
  destruct path_item as [| | | | | |pkvs]; try discriminate.
  intros _ _.
  unfold operation_parameters_ok, operation_parameter_rows, operation_params.
  cbn [get bind declared op_body op_path_item op_method op_path].
  set (tags := default (VList []) (dict_lookup "tags" bkvs)).
  set (plp := default (VList []) (dict_lookup "parameters" pkvs)).
  set (opp := default (VList []) (dict_lookup "parameters" bkvs)).
  rewrite !andb_true_iff. split.
  - intros (g & H).
    apply bind_Ok_inv in H as (ag & Hag & H).
    apply bind_Ok_inv in H as (params & Hparams & H).
    apply bind_Ok_inv in Hparams as (fp & Hfp & Hparams).
    apply bind_Ok_inv in Hparams as (fo & Hfo & [= <-]).
    repeat split.
    + apply first_tag_succeeds. eauto.
    + apply iter_succeeds. eauto.
    + apply iter_succeeds. eauto.
    + rewrite Hfp, Hfo. simpl. apply forallb_forall.
      assert (HF : Forall (fun p => exists r,
                     parameter_row ag (default VNone (dict_lookup "operationId" bkvs))
                                   method path p = Ok r) (fp ++ fo))
        by (apply mapM_succeeds; eauto).
      rewrite Forall_forall in HF. intros p Hp.
      apply (proj1 (parameter_row_succeeds
                      ag (default VNone (dict_lookup "operationId" bkvs)) method path p)).
      apply HF. apply list_elem_of_In. exact Hp.
  - intros [[[Ht Hp] Ho] Hall].
    apply first_tag_succeeds in Ht as (ag & ->).
    apply iter_succeeds in Hp as (fp & Hfp).
    apply iter_succeeds in Ho as (fo & Hfo).
    rewrite Hfp, Hfo in *. cbn [bind ok_or] in *.
    apply mapM_succeeds. apply Forall_forall. intros p Hp.
    apply parameter_row_succeeds.
    rewrite forallb_forall in Hall. apply Hall. apply list_elem_of_In. exact Hp.
Qed.

Lemma operations_are_mappings (sw : value) (o : operation) :
  o ∈ operations sw ->
  isinstance_dict (op_body o) = true
  /\ isinstance_dict (op_path_item o) = true
  /\ not_an_operation (op_method o) (op_body o) = false.
Proof.
  unfold operations. intros H.
  apply list_elem_of_In in H. apply in_flat_map in H as ([path path_item] & _ & H).
  unfold operations_of_path in H.
  destruct path_item as [| | | | | |ops]; try (destruct H).
  apply in_flat_map in H as ([method op] & _ & H).
  destruct (not_an_operation method op) eqn:Hn; [destruct H|].
  destruct H as [<-|[]]. simpl.
  split; [|split; [reflexivity | exact Hn]].
  unfold not_an_operation in Hn. apply orb_false_iff in Hn as [_ Hd].
  apply negb_false_iff in Hd. exact Hd.
Qed.

(** X12: [extract_parameters] returns a relation exactly when the document
    and its paths are mappings and, for every operation, the tags are absent,
    empty, a list or a string, both parameter collections can be iterated,
    and every parameter is one [parameter_row] accepts; in every other case
    it raises and no row is returned. *)
Theorem extract_parameters_succeeds_iff (sw : value) :
  (exists rows, extract_parameters sw = Ok rows)
  <-> paths_ok sw = true /\ forallb operation_parameters_ok (operations sw) = true.
Proof.
  rewrite extract_parameters_walk, walk_operations_succeeds.
  rewrite forallb_forall, Forall_forall.
  split; intros [Hp H]; (split; [exact Hp|]); intros o Ho.
  - apply list_elem_of_In in Ho.
    destruct (operations_are_mappings sw o Ho) as (Hb & Hi & _).
    apply operation_parameter_rows_succeeds; auto.
  - destruct (operations_are_mappings sw o Ho) as (Hb & Hi & _).
    apply operation_parameter_rows_succeeds; auto.
    apply H. apply list_elem_of_In. exact Ho.
Qed.

Lemma tag_row_succeeds (t : value) :
  (exists r, tag_row t = Ok r) <-> tag_ok t = true.
Proof.
  unfold tag_row, tag_ok, safe_get.
  destruct t as [| | | | | |kvs];
    try (split; [intros (r & H); discriminate H | intros H; discriminate H]).
  cbn [get bind].
  destruct (dict_lookup "externalDocs" kvs) as [[| | | | | |docs]|]; simpl;
    split; intros H; try discriminate H;
    try (destruct H as (r & H); discriminate H); eauto.
Qed.

(** X13: [extract_tags] returns a relation exactly when the document is a
    mapping, its tags can be iterated, and every tag is a mapping whose
    externalDocs, if the key is there, is a mapping; an explicit null
    externalDocs makes it raise. *)
Theorem extract_tags_succeeds_iff (sw : value) :
  (exists rows, extract_tags sw = Ok rows)
  <-> isinstance_dict sw = true
      /\ iterable (default (VList []) (declared "tags" sw)) = true
      /\ forallb tag_ok (declared_tags sw) = true.
Proof.
  unfold extract_tags, declared_tags.
  destruct sw as [| | | | | |top];
    try (split; [intros (r & H); discriminate H | intros [H _]; discriminate H]).
  cbn [get bind declared isinstance_dict].
  set (tags := default (VList []) (dict_lookup "tags" top)).
  split.
  - intros (rows & H).
    apply bind_Ok_inv in H as (ts & Hts & H).
    rewrite for_each_append in H.
    apply bind_Ok_inv in H as (rs & Hrs & _).
    split; [reflexivity|]. split; [apply iter_succeeds; eauto|].
    rewrite Hts. simpl. apply forallb_forall. intros t Ht.
    apply tag_row_succeeds.
    assert (HF : Forall (fun t => exists r, tag_row t = Ok r) ts)
      by (apply mapM_succeeds; eauto).
    rewrite Forall_forall in HF. apply HF. apply list_elem_of_In. exact Ht.
  - intros (_ & Hit & Hall).
    apply iter_succeeds in Hit as (ts & Hts). rewrite Hts in *. cbn [bind ok_or] in *.
    rewrite for_each_append.
    assert (Hm : exists rs, mapM tag_row ts = Ok rs).
    { apply mapM_succeeds. apply Forall_forall. intros t Ht.
      apply tag_row_succeeds. rewrite forallb_forall in Hall.
      apply Hall. apply list_elem_of_In. exact Ht. }
    destruct Hm as (rs & ->). simpl. eauto.
Qed.

(** ** Rendering security requirements *)

Lemma join_strs_strings (sep : string) (parts : list string) :
  join_strs sep (VList (map VStr parts)) = Ok (str_join sep parts).
Proof.
  unfold join_strs. cbn [iter bind].
  assert (H : mapM (fun x => match x with VStr s => Ok s | _ => Raise TypeError end)
                   (map VStr parts) = Ok parts).
  { induction parts as [|x parts IH]; simpl; [reflexivity|]. rewrite IH. reflexivity. }
  rewrite H. reflexivity.
Qed.

Lemma flatten_requirement (req : list (string * list string)) (acc : list string) :
  for_each (map (fun sc => (fst sc, VList (map VStr (snd sc)))) req)
    (fun '(scheme, scopes) security_flat =>
       if truthy scopes then
         joined <- join_strs ", " scopes ;;
         Ok (security_flat ++ [scheme +:+ "(" +:+ joined +:+ ")"])
       else Ok (security_flat ++ [scheme])) acc
  = Ok (acc ++ map requirement_text req).
Proof.
  revert acc. induction req as [|[scheme scopes] req IH]; intros acc;
    cbn [map for_each fst snd].
  - rewrite app_nil_r. reflexivity.
  - destruct scopes as [|sc scopes].
    + cbn [map truthy bind]. rewrite IH, <- app_assoc. reflexivity.
    + change (truthy (VList (map VStr (sc :: scopes)))) with true. cbv iota.
      rewrite join_strs_strings. cbn [bind].
      rewrite IH, <- app_assoc. reflexivity.
Qed.

Lemma flatten_requirements (reqs : list (list (string * list string)))
    (acc : list string) :
  for_each (map requirement_value reqs) (fun sec security_flat =>
    kvs <- items sec ;;
    for_each kvs (fun '(scheme, scopes) security_flat =>
      if truthy scopes then
        joined <- join_strs ", " scopes ;;
        Ok (security_flat ++ [scheme +:+ "(" +:+ joined +:+ ")"])
      else Ok (security_flat ++ [scheme]))
    security_flat) acc
  = Ok (acc ++ flat_map (fun req => map requirement_text req) reqs).
Proof.
  revert acc. induction reqs as [|req reqs IH]; intros acc;
    cbn [map for_each flat_map].
  - rewrite app_nil_r. reflexivity.
  - unfold requirement_value at 1. cbn [items bind].
    rewrite flatten_requirement. cbn [bind].
    rewrite IH, <- app_assoc. reflexivity.
Qed.

Lemma map_py_str_strings (parts : list string) : map py_str (map VStr parts) = parts.
Proof. induction parts; simpl; congruence. Qed.

(** X14: for a requirement list in which every requirement maps scheme
    names to lists of scope strings, the security cell is the requirements
    in document order, each scheme as [scheme(scope1, scope2)] when it has
    scopes and bare otherwise, joined by a comma and a space; it is null when
    no scheme is named at all. *)
Theorem security_rendering (reqs : list (list (string * list string))) :
  let texts := flat_map (fun req => map requirement_text req) reqs in
  flatten_security (VList (map requirement_value reqs)) = Ok texts
  /\ render_security (VList (map requirement_value reqs))
     = Ok (match texts with
           | [] => VNone
           | _ => VStr (str_join ", " texts)
           end).
Proof.
  intros texts.
  assert (H : flatten_security (VList (map requirement_value reqs)) = Ok texts).
  { unfold flatten_security.
    assert (Hit : iter (py_or (VList (map requirement_value reqs)) (VList []))
                  = Ok (map requirement_value reqs))
      by (destruct reqs; reflexivity).
    rewrite Hit. cbn [bind]. apply flatten_requirements. }
  split; [exact H|].
  unfold render_security. rewrite H. cbn [bind].
  unfold join_or_none. destruct texts as [|t texts'] eqn:E; [reflexivity|].
  change (negb (truthy (VList (map VStr (t :: texts'))))) with false. cbv iota.
  cbn [iter bind]. rewrite map_py_str_strings. reflexivity.
Qed.

(** ** openapi_to_csv.py: the helpers of [main] *)

Lemma rendered_collection_succeeds (coll : value) :
  (exists l, rendered_collection coll = Ok l) <-> iterable coll = true.
Proof.
  unfold rendered_collection. split.
  - intros (l & H). apply bind_Ok_inv in H as (ps & Hps & _).
    apply iter_succeeds. eauto.
  - intros H. apply iter_succeeds in H as (ps & ->). cbn [bind].
    apply mapM_succeeds. apply Forall_forall. intros p Hp.
    apply list_elem_of_filter in Hp as [Hd _].
    exists (description_of p). apply render_param_dict. apply Is_true_true. exact Hd.
Qed.

Lemma iterable_or_empty (v : value) :
  iterable (py_or v (VList [])) = joinable v.
Proof.
  unfold py_or, joinable. destruct (truthy v) eqn:Ht; [|reflexivity].
  destruct v; reflexivity.
Qed.

(** X15: the merger returns its text exactly when each of the two levels
    is absent, empty, or a collection; a level that is a number or [True]
    makes it raise.  Entries of any kind inside a collection never make it
    raise. *)
Theorem collect_params_succeeds_iff (op_level path_level : value) :
  (exists text, collect_params op_level path_level = Ok text)
  <-> joinable op_level = true /\ joinable path_level = true.
Proof.
  unfold collect_params, merged_params. rewrite rendered_params_split.
  rewrite <- !iterable_or_empty. split.
  - intros (text & H).
    apply bind_Ok_inv in H as (uniq & H & _).
    apply bind_Ok_inv in H as (params & H & _).
    apply bind_Ok_inv in H as (a & Ha & H).
    apply bind_Ok_inv in H as (b & Hb & _).
    split; apply rendered_collection_succeeds; eauto.
  - intros [Ho Hp].
    apply rendered_collection_succeeds in Ho as (b & ->).
    apply rendered_collection_succeeds in Hp as (a & ->).
    cbn [bind]. eauto.
Qed.

(** X16: on an operation that is a mapping [get_request_body] never
    raises.  Its text is empty exactly when requestBody is absent or no
    mapping; otherwise it is [required] or [optional], followed, when the
    content is a non-empty mapping, by the first five media types in
    parentheses and no more. *)
Theorem request_body_text (kvs : list (string * value)) :
  let rb := default VNone (dict_lookup "requestBody" kvs) in
  let req := if truthy (field "required" rb) then "required" else "optional" in
  (exists text, get_request_body (VDict kvs) = Ok text)
  /\ (get_request_body (VDict kvs) = Ok "" <-> isinstance_dict rb = false)
  /\ (forall media_types,
         isinstance_dict rb = true ->
         default (VDict []) (declared "content" rb) = VDict media_types ->
         str_join ", " (take 5 (map fst media_types)) <> "" ->
         get_request_body (VDict kvs)
         = Ok (req +:+ " (" +:+ str_join ", " (take 5 (map fst media_types)) +:+ ")"))
  /\ (isinstance_dict rb = true ->
      isinstance_dict (default (VDict []) (declared "content" rb)) = false ->
      get_request_body (VDict kvs) = Ok req).
Proof.
  intros rb req. unfold get_request_body. cbn [get bind]. fold rb.
  destruct rb as [| | | | | |body] eqn:Erb;
    try (cbn [isinstance_dict negb];
         repeat split; eauto; try discriminate; intros; discriminate).
  cbn [isinstance_dict negb get bind field declared] in *.
  set (content := default (VDict []) (dict_lookup "content" body)).
  assert (Hreq : req <> "").
  { unfold req. destruct (truthy _); discriminate. }
  split; [|split; [|split]].
  - destruct content as [| | | | | |ms]; cbn [isinstance_dict andb]; eauto.
    destruct (truthy (VDict ms)); cbn [items bind]; eauto.
    destruct (negb _); eauto.
  - split; [|discriminate]. intros H. exfalso.
    destruct content as [| | | | | |ms]; cbn [isinstance_dict andb] in H;
      try (injection H as H; contradiction).
    destruct (truthy (VDict ms)); cbn [items bind] in H;
      [|injection H as H; contradiction].
    destruct (negb _); injection H as H; [|contradiction].
    unfold req in H. destruct (truthy _); discriminate H.
  - intros media_types _ -> Hmedia. cbn [isinstance_dict andb].
    assert (Ht : truthy (VDict media_types) = true).
    { destruct media_types; [|reflexivity]. exfalso. apply Hmedia. reflexivity. }
    rewrite Ht. cbn [items bind].
    destruct (String.eqb_spec (str_join ", " (take 5 (map fst media_types))) "");
      [contradiction|reflexivity].
  - intros _ Hc. rewrite Hc. reflexivity.
Qed.

Lemma mapM_urls (ss : list value) :
  Forall (fun s => isinstance_dict s = true) ss ->
  mapM (fun s => get s "url" (VStr "")) ss
  = Ok (map (fun s => default (VStr "") (declared "url" s)) ss).
Proof.
  induction 1 as [|s ss Hs _ IH]; simpl; [reflexivity|].
  destruct s; try discriminate Hs. simpl. rewrite IH. reflexivity.
Qed.

Lemma mapM_raises {A B : Type} (f : A -> result B) (xs : list A) (x : A) (e : exn) :
  x ∈ xs -> f x = Raise e -> exists e', mapM f xs = Raise e'.
Proof.
  intros Hx Hf. induction Hx as [x xs|x y xs _ IH]; cbn [mapM].
  - rewrite Hf. cbn [bind]. eauto.
  - destruct (f y); cbn [bind]; [|eauto].
    destruct (IH Hf) as (e' & ->). cbn [bind]. eauto.
Qed.

Lemma detect_servers_host (top : list (string * value)) (host : value) :
  isinstance_list (default VNone (dict_lookup "servers" top)) = false ->
  dict_lookup "host" top = Some host ->
  detect_servers (VDict top)
  = Ok [VStr (py_str (server_scheme top) +:+ "://" +:+ py_str host
              +:+ py_str (default (VStr "") (dict_lookup "basePath" top)))].
Proof.
  intros Hns Hhost. unfold detect_servers, server_scheme.
  cbn [py_in subscript bind get]. rewrite Hhost.
  destruct (dict_lookup "servers" top) as [sv|]; simpl in Hns; cbn [bind];
    [rewrite Hns|];
    (destruct (dict_lookup "schemes" top) as [[| | | | |[|first rest]|]|];
     reflexivity).
Qed.

(** X17: on a document that is a mapping, [detect_servers] gives the url of
    every entry of a servers list and then ignores host altogether (an entry
    without url gives the empty string; an entry that is no mapping makes it
    raise); without a servers list it gives one URL built from host, the
    first declared scheme or https, and basePath, whatever host is; and
    nothing when there is no host either. *)
Theorem detect_servers_on_mapping (top : list (string * value)) :
  (forall ss,
      dict_lookup "servers" top = Some (VList ss) ->
      Forall (fun s => isinstance_dict s = true) ss ->
      detect_servers (VDict top)
      = Ok (map (fun s => default (VStr "") (declared "url" s)) ss))
  /\ (forall ss s,
        dict_lookup "servers" top = Some (VList ss) ->
        s ∈ ss -> isinstance_dict s = false ->
        exists e, detect_servers (VDict top) = Raise e)
  /\ (isinstance_list (default VNone (dict_lookup "servers" top)) = false ->
      dict_lookup "host" top = None ->
      detect_servers (VDict top) = Ok [])
  /\ (forall host,
        isinstance_list (default VNone (dict_lookup "servers" top)) = false ->
        dict_lookup "host" top = Some host ->
        detect_servers (VDict top)
        = Ok [VStr (py_str (server_scheme top) +:+ "://" +:+ py_str host
                    +:+ py_str (default (VStr "") (dict_lookup "basePath" top)))]).
Proof.
  split; [|split; [|split]].
  - unfold detect_servers. cbn [py_in subscript bind].
    intros ss -> Hss. cbn [bind isinstance_list iter]. apply mapM_urls. exact Hss.
  - unfold detect_servers. cbn [py_in subscript bind].
    intros ss s -> Hs Hnd. cbn [bind isinstance_list iter].
    eapply mapM_raises; [exact Hs |].
    destruct s; try discriminate Hnd; reflexivity.
  - unfold detect_servers. cbn [py_in subscript bind].
    intros Hns ->. destruct (dict_lookup "servers" top) as [sv|]; cbn [bind] in *.
    + simpl in Hns. rewrite Hns. reflexivity.
    + reflexivity.
  - apply detect_servers_host.
Qed.

Lemma append_assoc (a b c : string) : (a +:+ b) +:+ c = a +:+ b +:+ c.
Proof. induction a as [|x a IH]; [reflexivity|]. exact (f_equal (String x) IH). Qed.

(** X18: the two scripts build the same URL.  For a document with a host
    that is not empty, no servers list, schemes absent, empty or a list, and
    basePath absent, a string or otherwise truthy, the full_url_template of
    the workbook is the server URL of the CSV script followed by the path. *)
Theorem url_template_extends_server_url (top : list (string * value)) (host : value)
    (path : string) :
  let schemes := default (VList []) (dict_lookup "schemes" top) in
  let base_path := default VNone (dict_lookup "basePath" top) in
  isinstance_list (default VNone (dict_lookup "servers" top)) = false ->
  dict_lookup "host" top = Some host -> truthy host = true ->
  isinstance_list schemes = true \/ truthy schemes = false ->
  dict_lookup "basePath" top = None \/ truthy base_path = true
    \/ (exists b, base_path = VStr b) ->
  exists base,
    detect_servers (VDict top) = Ok [VStr base]
    /\ build_full_url_template schemes host base_path path = Ok (VStr (base +:+ path)).
Proof.
  intros schemes base_path Hns Hhost Hth Hsch Hbp.
  eexists. split; [apply detect_servers_host; eassumption|].
  unfold build_full_url_template. rewrite Hth. cbn [negb].
  assert (Hs : (if truthy schemes then index0 schemes else Ok (VStr "https"))
               = Ok (server_scheme top)).
  { unfold schemes, server_scheme in *.
    destruct (dict_lookup "schemes" top) as [[| | | | |[|first rest]|]|];
      cbn [default] in *; try reflexivity;
      destruct Hsch as [Hsch|Hsch]; try discriminate Hsch;
      cbn [truthy] in Hsch; rewrite ?Hsch; reflexivity. }
  rewrite Hs. cbn [bind].
  assert (Hb : py_str (py_or base_path (VStr ""))
               = py_str (default (VStr "") (dict_lookup "basePath" top))).
  { unfold base_path in *. destruct Hbp as [->|[Hbp|(b & Hbp)]].
    - reflexivity.
    - unfold py_or. rewrite Hbp.
      destruct (dict_lookup "basePath" top); [reflexivity|discriminate Hbp].
    - destruct (dict_lookup "basePath" top) as [bp|]; simpl in Hbp;
        [subst bp|discriminate Hbp]. simpl default.
      apply base_path_or_empty. }
  rewrite Hb. rewrite !append_assoc. reflexivity.
Qed.

(** X19: where the two scripts differ on the URL.  With a host key whose
    value is empty or null the workbook has no URL while the CSV script still
    prints one; and a basePath that is present but null is rendered as the
    text of [None] by the CSV script and as nothing by the workbook. *)
Theorem url_template_differs_from_server_url (top : list (string * value))
    (host : value) (path : string) :
  let schemes := default (VList []) (dict_lookup "schemes" top) in
  let base_path := default VNone (dict_lookup "basePath" top) in
  isinstance_list (default VNone (dict_lookup "servers" top)) = false ->
  dict_lookup "host" top = Some host ->
  (truthy host = false ->
   build_full_url_template schemes host base_path path = Ok VNone
   /\ exists url, detect_servers (VDict top) = Ok [VStr url])
  /\ (truthy host = true -> dict_lookup "basePath" top = Some VNone ->
      dict_lookup "schemes" top = None ->
      detect_servers (VDict top)
      = Ok [VStr ("https://" +:+ py_str host +:+ py_repr VNone)]
      /\ build_full_url_template schemes host base_path path
         = Ok (VStr ("https://" +:+ py_str host +:+ path))).
Proof.
  intros schemes base_path Hns Hhost. split.
  - intros Hf. split.
    + unfold build_full_url_template. rewrite Hf. reflexivity.
    + eexists. apply detect_servers_host; eassumption.
  - intros Ht Hbp Hsch. split.
    + rewrite (detect_servers_host top host Hns Hhost).
      unfold server_scheme. rewrite Hsch, Hbp. reflexivity.
    + unfold build_full_url_template, schemes, base_path.
      rewrite Ht, Hsch, Hbp. reflexivity.
Qed.

(** ** openapi_to_csv.py: the order of the rows *)

Lemma string_compare_refl (a : string) : String.compare a a = Eq.
Proof. apply OrderedTypeEx.String_as_OT.cmp_eq. reflexivity. Qed.

Lemma string_compare_lt_trans (a b c : string) :
  String.compare a b = Lt -> String.compare b c = Lt -> String.compare a c = Lt.
Proof.
  intros Hab Hbc.
  apply OrderedTypeEx.String_as_OT.cmp_lt in Hab, Hbc.
  apply OrderedTypeEx.String_as_OT.cmp_lt.
  eapply OrderedTypeEx.String_as_OT.lt_trans; eassumption.
Qed.

Lemma key_compare_refl (a : key3) : key_compare a a = Eq.
Proof. unfold key_compare. rewrite !string_compare_refl. reflexivity. Qed.

Lemma key_compare_eq (a b : key3) : key_compare a b = Eq -> a = b.
Proof.
  destruct a as [[a1 a2] a3], b as [[b1 b2] b3]. unfold key_compare. cbn [fst snd].
  destruct (String.compare a1 b1) eqn:E1; try discriminate.
  destruct (String.compare a2 b2) eqn:E2; try discriminate.
  intros E3.
  apply String.compare_eq_iff in E1, E2, E3. congruence.
Qed.

Lemma key_compare_antisym (a b : key3) : key_compare a b = CompOpp (key_compare b a).
Proof.
  destruct a as [[a1 a2] a3], b as [[b1 b2] b3]. unfold key_compare. cbn [fst snd].
  rewrite (String.compare_antisym b1 a1), (String.compare_antisym b2 a2),
    (String.compare_antisym b3 a3).
  destruct (String.compare a1 b1), (String.compare a2 b2), (String.compare a3 b3);
    reflexivity.
Qed.

Lemma key_compare_lt_trans (a b c : key3) :
  key_compare a b = Lt -> key_compare b c = Lt -> key_compare a c = Lt.
Proof.
  destruct a as [[a1 a2] a3], b as [[b1 b2] b3], c as [[c1 c2] c3].
  unfold key_compare. cbn [fst snd].
  destruct (String.compare a1 b1) eqn:A1; try discriminate.
  - apply String.compare_eq_iff in A1 as ->.
    destruct (String.compare b1 c1) eqn:B1; try discriminate; [|reflexivity].
    destruct (String.compare a2 b2) eqn:A2; try discriminate.
    + apply String.compare_eq_iff in A2 as ->.
      destruct (String.compare b2 c2) eqn:B2; try discriminate; [|reflexivity].
      apply string_compare_lt_trans.
    + intros _.
      destruct (String.compare b2 c2) eqn:B2; try discriminate.
      * apply String.compare_eq_iff in B2 as <-. rewrite A2. reflexivity.
      * rewrite (string_compare_lt_trans _ _ _ A2 B2). reflexivity.
  - intros _.
    destruct (String.compare b1 c1) eqn:B1; try discriminate.
    + apply String.compare_eq_iff in B1 as <-. rewrite A1. reflexivity.
    + rewrite (string_compare_lt_trans _ _ _ A1 B1). reflexivity.
Qed.

Lemma key_le_trans (a b c : key3) : key_le a b -> key_le b c -> key_le a c.
Proof.
  unfold key_le. intros Hab Hbc.
  destruct (key_compare a b) eqn:Eab; try contradiction.
  - apply key_compare_eq in Eab as ->. exact Hbc.
  - destruct (key_compare b c) eqn:Ebc; try contradiction.
    + apply key_compare_eq in Ebc as <-. rewrite Eab. discriminate.
    + rewrite (key_compare_lt_trans _ _ _ Eab Ebc). discriminate.
Qed.

Lemma key_le_of_gt (a b : key3) : key_compare a b = Gt -> key_le b a.
Proof.
  unfold key_le. intros H. rewrite key_compare_antisym, H. discriminate.
Qed.

Lemma insert_row_perm (key : row -> key3) (r : row) (sorted : list row) :
  insert_row key r sorted ≡ₚ r :: sorted.
Proof.
  induction sorted as [|x rest IH]; simpl; [reflexivity|].
  destruct (key_compare (key x) (key r)); try reflexivity;
    rewrite IH; apply Permutation_swap.
Qed.

Lemma insert_row_sorted (key : row -> key3) (r : row) (sorted : list row) :
  sorted_by key sorted -> sorted_by key (insert_row key r sorted).
Proof.
  unfold sorted_by. induction 1 as [|x rest Hrest IH Hx]; simpl.
  - repeat constructor.
  - destruct (key_compare (key x) (key r)) eqn:E.
    + constructor; [exact IH|].
      rewrite insert_row_perm. constructor; [|exact Hx].
      unfold key_le. rewrite E. discriminate.
    + constructor; [exact IH|].
      rewrite insert_row_perm. constructor; [|exact Hx].
      unfold key_le. rewrite E. discriminate.
    + constructor; [constructor; assumption|].
      apply key_le_of_gt in E. constructor; [exact E|].
      eapply Forall_impl; [exact Hx|]. intros y Hy. cbn beta in *.
      eapply key_le_trans; eassumption.
Qed.

Lemma insert_row_with_key (key : row -> key3) (k : key3) (r : row) (sorted : list row) :
  sorted_by key sorted ->
  with_key key k (insert_row key r sorted)
  = with_key key k sorted ++ with_key key k [r].
Proof.
  unfold sorted_by, with_key. induction 1 as [|x rest Hrest IH Hx]; simpl.
  - reflexivity.
  - destruct (key_compare (key x) (key r)) eqn:E.
    + rewrite !filter_cons, IH. destruct (decide (key x = k)); reflexivity.
    + rewrite !filter_cons, IH. destruct (decide (key x = k)); reflexivity.
    + rewrite (filter_cons _ r), (filter_cons _ r []), filter_nil.
      destruct (decide (key r = k)) as [Hr|Hr]; [|rewrite app_nil_r; reflexivity].
      assert (Hnone : filter (fun r0 => key r0 = k) (x :: rest) = []).
      { apply filter_none. intros y Hy Hyk.
        apply elem_of_cons in Hy as [->|Hy].
        - rewrite Hyk, <- Hr, key_compare_refl in E. discriminate E.
        - rewrite Forall_forall in Hx. apply (Hx y Hy).
          rewrite Hyk, <- Hr. exact E. }
      rewrite Hnone. reflexivity.
Qed.

Lemma sort_rows_from (key : row -> key3) (rows sorted : list row) :
  sorted_by key sorted ->
  let out := fold_left (fun sorted r => insert_row key r sorted) rows sorted in
  out ≡ₚ sorted ++ rows
  /\ sorted_by key out
  /\ forall k, with_key key k out = with_key key k sorted ++ with_key key k rows.
Proof.
  revert sorted. induction rows as [|r rows IH]; intros sorted Hs; simpl.
  - rewrite app_nil_r. split; [reflexivity|]. split; [exact Hs|].
    intros k. unfold with_key. rewrite filter_nil, app_nil_r. reflexivity.
  - destruct (IH (insert_row key r sorted) (insert_row_sorted key r sorted Hs))
      as (Hp & Hsorted & Hk).
    split; [|split; [exact Hsorted|]].
    + rewrite Hp, insert_row_perm. apply Permutation_middle.
    + intros k. rewrite Hk, insert_row_with_key by exact Hs.
      unfold with_key. rewrite (filter_cons _ r rows), (filter_cons _ r []), filter_nil.
      rewrite <- app_assoc. destruct (decide (key r = k)); reflexivity.
Qed.

(** The sort of line 129 is a stable sort: it permutes the rows, leaves them
    in the order of their keys, and keeps rows of one key in the order they
    came in. *)
Lemma sort_rows_stable (key : row -> key3) (rows : list row) :
  sort_rows key rows ≡ₚ rows
  /\ sorted_by key (sort_rows key rows)
  /\ forall k, with_key key k (sort_rows key rows) = with_key key k rows.
Proof.
  unfold sort_rows.
  destruct (sort_rows_from key rows [] (SSorted_nil _)) as (Hp & Hs & Hk).
  split; [exact Hp|]. split; [exact Hs|]. exact Hk.
Qed.

Lemma for_each_invariant {A S : Type} (P : S -> Prop) (f : A -> S -> result S)
    (xs : list A) (s s' : S) :
  (forall x t t', x ∈ xs -> P t -> f x t = Ok t' -> P t') ->
  P s -> for_each xs f s = Ok s' -> P s'.
Proof.
  revert s. induction xs as [|x xs IH]; intros s Hf Hs H; simpl in H.
  - injection H as <-. exact Hs.
  - apply bind_Ok_inv in H as (t & Ht & H).
    eapply IH; [| |exact H].
    + intros y u u' Hy. apply Hf. right. exact Hy.
    + eapply Hf; [left|exact Hs|exact Ht].
Qed.

Lemma operation_csv_row_shape (path : string) (path_params : value) (method : string)
    (op : value) (r : row) :
  operation_csv_row path path_params method op = Ok r -> csv_row_shape r.
Proof.
  unfold operation_csv_row. intros H.
  repeat (apply bind_Ok_inv in H as (? & _ & H)).
  injection H as <-. split; [reflexivity|].
  eexists _, _, _. repeat split.
Qed.

Lemma main_rows_shape (spec : value) (rows : list row) :
  main_rows spec = Ok rows -> Forall csv_row_shape rows.
Proof.
  unfold main_rows. intros H.
  apply bind_Ok_inv in H as (paths & _ & H).
  apply bind_Ok_inv in H as (path_items & _ & H).
  eapply (for_each_invariant (Forall csv_row_shape)); [|constructor|exact H].
  intros [path methods] t t' _ Ht Hstep.
  destruct (negb (isinstance_dict methods)); [injection Hstep as <-; exact Ht|].
  apply bind_Ok_inv in Hstep as (declared_params & _ & Hstep).
  apply bind_Ok_inv in Hstep as (path_params & _ & Hstep).
  apply bind_Ok_inv in Hstep as (ops & _ & Hstep).
  eapply (for_each_invariant (Forall csv_row_shape)); [|exact Ht|exact Hstep].
  intros [method op] u u' _ Hu Hop.
  destruct (negb (set_contains (lower method) HTTP_METHODS));
    [injection Hop as <-; exact Hu|].
  destruct (negb (isinstance_dict op)); [injection Hop as <-; exact Hu|].
  apply bind_Ok_inv in Hop as (r & Hr & Hop). injection Hop as <-.
  apply Forall_app. split; [exact Hu|].
  constructor; [|constructor]. eapply operation_csv_row_shape. exact Hr.
Qed.

(** X20: the rows the CSV script writes are the rows it built, one per
    operation, put in the order of (API group text, path, method) as texts,
    rows with the same three cells staying in document order; every row has
    the eleven columns of the header. *)
Theorem csv_rows_sorted (spec version : value) (servers : list value) (rows : list row) :
  main spec = Ok (version, servers, rows) ->
  exists built,
    main_rows spec = Ok built
    /\ rows ≡ₚ built
    /\ sorted_by csv_sort_key rows
    /\ (forall k, with_key csv_sort_key k rows = with_key csv_sort_key k built)
    /\ Forall csv_row_shape rows.
Proof.
  unfold main. intros H.
  apply bind_Ok_inv in H as (openapi & _ & H).
  apply bind_Ok_inv in H as (v & _ & H).
  apply bind_Ok_inv in H as (ss & _ & H).
  apply bind_Ok_inv in H as (built & Hbuilt & H).
  injection H as _ _ <-.
  destruct (sort_rows_stable csv_sort_key built) as (Hp & Hs & Hk).
  exists built. split; [exact Hbuilt|]. split; [exact Hp|]. split; [exact Hs|].
  split; [exact Hk|].
  rewrite Hp. eapply main_rows_shape. exact Hbuilt.
Qed.

(** ** openapi_to_csv.py: reading the document *)

Lemma length_append (a b : string) :
  String.length (a +:+ b) = (String.length a + String.length b)%nat.
Proof.
  induction a as [|x a IH]; [reflexivity|].
  change (S (String.length (a +:+ b)) = S (String.length a + String.length b))%nat.
  rewrite IH. reflexivity.
Qed.

Lemma find_char_append (c : ascii) (pre rest : string) :
  find_char c pre = None ->
  find_char c (pre +:+ String c rest) = Some (String.length pre).
Proof.
  induction pre as [|x pre IH]; intros H.
  - change (find_char c (String c rest) = Some O). cbn [find_char].
    rewrite Ascii.eqb_refl. reflexivity.
  - change (find_char c (String x (pre +:+ String c rest))
            = Some (S (String.length pre))).
    cbn [find_char] in *. destruct (Ascii.eqb c x); [discriminate H|].
    destruct (find_char c pre); [discriminate H|].
    rewrite IH by reflexivity. reflexivity.
Qed.

Lemma rfind_char_append (c : ascii) (pre post : string) :
  rfind_char c post = None ->
  rfind_char c (pre +:+ String c post) = Some (String.length pre).
Proof.
  intros H. induction pre as [|x pre IH].
  - change (rfind_char c (String c post) = Some O). cbn [rfind_char].
    rewrite H, Ascii.eqb_refl. reflexivity.
  - change (rfind_char c (String x (pre +:+ String c post))
            = Some (S (String.length pre))).
    cbn [rfind_char]. rewrite IH. reflexivity.
Qed.

Lemma substring_skip (pre s : string) (m : nat) :
  String.substring (String.length pre) m (pre +:+ s) = String.substring 0 m s.
Proof.
  induction pre as [|x pre IH]; [reflexivity|].
  change (String.substring (S (String.length pre)) m (String x (pre +:+ s))
          = String.substring 0 m s).
  cbn [String.substring]. exact IH.
Qed.

Lemma substring_prefix (m post : string) :
  String.substring 0 (String.length m) (m +:+ post) = m.
Proof.
  induction m as [|x m IH].
  - change (String.substring 0 0 post = ""). destruct post; reflexivity.
  - change (String.substring 0 (S (String.length m)) (String x (m +:+ post))
            = String x m).
    cbn [String.substring]. rewrite IH. reflexivity.
Qed.

(** X21: [load_json] returns what the parser makes of the whole text when
    it accepts it.  When it does not, the text from the first opening brace
    to the last closing brace is parsed instead, whatever stands before and
    after; and when there is no opening or no closing brace the error
    stands. *)
Theorem load_json_recovers_object :
  (forall raw v, json_loads raw = Some v -> load_json raw = Some v)
  /\ (forall pre mid post,
        let raw := pre +:+ String "{" (mid +:+ String "}" post) in
        json_loads raw = None ->
        find_char "{" pre = None -> rfind_char "}" post = None ->
        load_json raw = json_loads (String "{" (mid +:+ String "}" "")))
  /\ (forall raw,
        json_loads raw = None ->
        find_char "{" raw = None \/ rfind_char "}" raw = None ->
        load_json raw = None).
Proof.
  split; [|split].
  - unfold load_json. intros raw v ->. reflexivity.
  - intros pre mid post raw Hbad Hpre Hpost. unfold load_json. rewrite Hbad.
    unfold raw at 1. rewrite (find_char_append _ _ _ Hpre).
    assert (Hraw : raw = (pre +:+ String "{" mid) +:+ String "}" post).
    { unfold raw. rewrite append_assoc. reflexivity. }
    rewrite Hraw at 1. rewrite (rfind_char_append _ _ _ Hpost).
    rewrite length_append. cbn [String.length].
    assert (Hlt : (String.length pre <? String.length pre + S (String.length mid))%nat
                  = true) by (apply Nat.ltb_lt; lia).
    rewrite Hlt. unfold slice.
    replace (S (String.length pre + S (String.length mid)) - String.length pre)%nat
      with (String.length (String "{" (mid +:+ String "}" ""))).
    2:{ cbn [String.length]. rewrite length_append. cbn [String.length]. lia. }
    unfold raw. rewrite substring_skip.
    replace (String "{" (mid +:+ String "}" post))
      with (String "{" (mid +:+ String "}" "") +:+ post).
    2:{ change (String "{" ((mid +:+ String "}" "") +:+ post)
                = String "{" (mid +:+ String "}" post)).
        rewrite append_assoc. reflexivity. }
    rewrite substring_prefix. reflexivity.
  - unfold load_json. intros raw -> [->| ->]; [reflexivity|].
    destruct (find_char "{" raw); reflexivity.
Qed.

(** ** merge_csv.py *)

Lemma merge_fold (read : string -> list (list string)) (files : list string)
    (header_written : bool) (written : list (list string)) :
  snd (fold_left (merge_step read) files (header_written, written))
  = written ++ (if header_written then [] else merged_header read files)
            ++ flat_map (merged_data read) files.
Proof.
  revert header_written written.
  induction files as [|f files IH]; intros hw written; cbn [fold_left flat_map].
  - unfold merged_header. rewrite filter_nil. destruct hw; rewrite app_nil_r; reflexivity.
  - destruct (read f) as [|header data] eqn:Ef.
    + assert (Hstep : merge_step read (hw, written) f = (hw, written))
        by (unfold merge_step; rewrite Ef; reflexivity).
      assert (Hh : merged_header read (f :: files) = merged_header read files).
      { unfold merged_header. rewrite filter_cons_False; [reflexivity|].
        intros Hne. apply Hne. exact Ef. }
      assert (Hd : merged_data read f = [])
        by (unfold merged_data; rewrite Ef; reflexivity).
      rewrite Hstep, IH, Hh, Hd. reflexivity.
    + assert (Hstep : merge_step read (hw, written) f
                      = (true, (if hw then written
                                else written ++ ["SourceFile" :: header])
                               ++ map (fun r => f :: r) data))
        by (unfold merge_step; rewrite Ef; reflexivity).
      assert (Hh : merged_header read (f :: files) = ["SourceFile" :: header]).
      { unfold merged_header. rewrite filter_cons_True; [rewrite Ef; reflexivity|].
        rewrite Ef. discriminate. }
      assert (Hd : merged_data read f = map (fun r => f :: r) data)
        by (unfold merged_data; rewrite Ef; reflexivity).
      rewrite Hstep, IH, Hh, Hd. cbn [app].
      destruct hw; cbn [app]; rewrite <- ?app_assoc; reflexivity.
Qed.

Lemma ends_with_suffix (suffix s : string) :
  ends_with suffix s = true <-> exists stem, s = stem +:+ suffix.
Proof.
  induction s as [|x s IH]; cbn [ends_with].
  - rewrite orb_false_r. split.
    + intros H. apply String.eqb_eq in H. exists "". exact (eq_sym H).
    + intros ([|y stem] & H).
      * apply String.eqb_eq. exact (eq_sym H).
      * discriminate H.
  - rewrite orb_true_iff, IH. split.
    + intros [H|(stem & ->)].
      * apply String.eqb_eq in H. exists "". exact (eq_sym H).
      * exists (String x stem). reflexivity.
    + intros ([|y stem] & H).
      * left. apply String.eqb_eq. exact (eq_sym H).
      * right. exists stem.
        change (String x s = String y (stem +:+ suffix)) in H. congruence.
Qed.

Lemma merge_file_others (same_file : string -> string -> bool) (output_file : string)
    (read : string -> list (list string)) (files : list string)
    (st : bool * list (list string)) :
  Forall (fun f => same_file f output_file = false) files ->
  fold_left (merge_file same_file output_file read) files (Some st)
  = Some (fold_left (merge_step read) files st).
Proof.
  intros H. revert st. induction H as [|f files Hf _ IH]; intros [hw written];
    cbn [fold_left]; [reflexivity|].
  unfold merge_file at 2. rewrite Hf. apply IH.
Qed.

Lemma merge_file_stopped (same_file : string -> string -> bool) (output_file : string)
    (read : string -> list (list string)) (files : list string) :
  fold_left (merge_file same_file output_file read) files None = None.
Proof. induction files as [|f files IH]; [reflexivity|exact IH]. Qed.

Lemma merge_file_header (same_file : string -> string -> bool) (output_file : string)
    (read : string -> list (list string)) (files : list string)
    (header_written : bool) (written : list (list string)) :
  header_written = true
  \/ (exists g, g ∈ files /\ same_file g output_file = false /\ read g <> []) ->
  fold_left (merge_file same_file output_file read) files (Some (header_written, written))
  = None
  \/ exists rows,
       fold_left (merge_file same_file output_file read) files
                 (Some (header_written, written))
       = Some (true, rows).
Proof.
  revert header_written written.
  induction files as [|f files IH]; intros hw written H; cbn [fold_left].
  - destruct H as [->|(g & Hg & _)]; [right; eauto|]. inversion Hg.
  - unfold merge_file at 2 4.
    destruct (same_file f output_file) eqn:Ef.
    + destruct hw.
      * left. apply merge_file_stopped.
      * apply IH. right. destruct H as [H|(g & Hg & Hs & Hr)]; [discriminate H|].
        apply elem_of_cons in Hg as [->|Hg]; [congruence|eauto].
    + unfold merge_step. destruct (read f) as [|header data] eqn:Er.
      * apply IH. destruct H as [H|(g & Hg & Hs & Hr)]; [left; exact H|].
        right. apply elem_of_cons in Hg as [->|Hg]; [contradiction|eauto].
      * apply IH. left. reflexivity.
Qed.

(** X22: the merger reads the listed files whose lowered name ends in
    .csv, in listing order.  When none of them is the file being written, it
    writes one header, that of the first file that is not empty with
    SourceFile in front, and then the data rows of every file, each with the
    file's name in front; the headers of the later files are dropped without
    being compared with the first, and nothing is written when every file is
    empty.  When the file being written is listed after a file that is not
    empty, the run reads its own output and no result is given. *)
Theorem merge_csv_files_rows (same_file : string -> string -> bool)
    (output_file : string) (listing : list string)
    (read : string -> list (list string)) :
  let csv_files := filter (fun f => ends_with ".csv" (lower f) = true) listing in
  (Forall (fun f => same_file f output_file = false) csv_files ->
   merge_csv_files same_file output_file listing read
   = Written (merged_header read csv_files ++ flat_map (merged_data read) csv_files))
  /\ (forall f, f ∈ csv_files <-> f ∈ listing /\ exists stem, lower f = stem +:+ ".csv")
  /\ (Forall (fun f => same_file f output_file = false) csv_files ->
      Forall (fun f => read f = []) csv_files ->
      merge_csv_files same_file output_file listing read = Written [])
  /\ (forall before f after g,
         csv_files = before ++ f :: after ->
         same_file f output_file = true ->
         g ∈ before -> same_file g output_file = false -> read g <> [] ->
         merge_csv_files same_file output_file listing read = Reads_own_output).
Proof.
  intros csv_files.
  assert (Hfiles : filter (fun f => ends_with ".csv" (lower f)) listing = csv_files).
  { unfold csv_files. apply list_filter_iff. intros f.
    destruct (ends_with ".csv" (lower f)); simpl; split; auto; discriminate. }
  assert (Hrows : Forall (fun f => same_file f output_file = false) csv_files ->
                  merge_csv_files same_file output_file listing read
                  = Written (merged_header read csv_files
                             ++ flat_map (merged_data read) csv_files)).
  { intros Hothers. unfold merge_csv_files. rewrite Hfiles.
    rewrite (merge_file_others _ _ _ _ _ Hothers).
    destruct (fold_left (merge_step read) csv_files (false, [])) as [hw written] eqn:E.
    assert (Hw := merge_fold read csv_files false []). rewrite E in Hw.
    cbn [snd app] in Hw. rewrite Hw. reflexivity. }
  split; [exact Hrows|]. split; [|split].
  - intros f. unfold csv_files. rewrite list_elem_of_filter, ends_with_suffix.
    split; intros [H1 H2]; split; assumption.
  - intros Hothers Hempty. rewrite (Hrows Hothers).
    assert (Hh : merged_header read csv_files = []).
    { unfold merged_header. rewrite filter_none; [reflexivity|].
      intros f Hf Hne. rewrite Forall_forall in Hempty. apply Hne, Hempty, Hf. }
    rewrite Hh. cbn [app].
    assert (Hd : forall fs, Forall (fun f => read f = []) fs ->
                            flat_map (merged_data read) fs = []).
    { induction 1 as [|f fs Hf _ IH]; [reflexivity|].
      cbn [flat_map]. unfold merged_data at 1. rewrite Hf, IH. reflexivity. }
    rewrite (Hd _ Hempty). reflexivity.
  - intros before f after g Hsplit Hf Hg Hgo Hgr.
    unfold merge_csv_files. rewrite Hfiles, Hsplit, fold_left_app. cbn [fold_left].
    destruct (merge_file_header same_file output_file read before false [])
      as [->|(rows & ->)].
    + right. eauto.
    + cbn [merge_file]. rewrite merge_file_stopped. reflexivity.
    + cbn [merge_file]. rewrite Hf. rewrite merge_file_stopped. reflexivity.
Qed.

(** ** The two scripts on one document *)

Lemma ascii_upper_lower (c : ascii) : ascii_upper (ascii_lower c) = ascii_upper c.
Proof. destruct c as [[] [] [] [] [] [] [] []]; reflexivity. Qed.

Lemma ascii_lower_upper (c : ascii) : ascii_lower (ascii_upper c) = ascii_lower c.
Proof. destruct c as [[] [] [] [] [] [] [] []]; reflexivity. Qed.

Lemma upper_lower (s : string) : upper (lower s) = upper s.
Proof.
  unfold upper, lower. induction s as [|c s IH]; [reflexivity|].
  cbn [str_map]. rewrite ascii_upper_lower, IH. reflexivity.
Qed.

Lemma lower_upper (s : string) : lower (upper s) = lower s.
Proof.
  unfold upper, lower. induction s as [|c s IH]; [reflexivity|].
  cbn [str_map]. rewrite ascii_lower_upper, IH. reflexivity.
Qed.

Lemma excel_verbs (x : string) :
  layout_ok ->
  set_contains x list_http_methods
  = bool_decide (x ∈ ["get"; "put"; "post"; "delete"; "options"; "head"; "patch"]).
Proof.
  intros Hl. unfold layout_ok in Hl. unfold set_contains, list_http_methods.
  apply bool_decide_ext. rewrite Hl. reflexivity.
Qed.

Lemma csv_verbs (x : string) :
  layout_ok ->
  set_contains x HTTP_METHODS
  = bool_decide (x ∈ ["get"; "post"; "put"; "patch"; "delete"; "options"; "head";
                      "trace"]).
Proof.
  intros Hl. unfold layout_ok in Hl. unfold set_contains, HTTP_METHODS.
  apply bool_decide_ext. rewrite Hl. reflexivity.
Qed.

Lemma csv_verbs_split (x : string) :
  bool_decide (x ∈ ["get"; "post"; "put"; "patch"; "delete"; "options"; "head"; "trace"])
  = bool_decide (x ∈ ["get"; "put"; "post"; "delete"; "options"; "head"; "patch"])
    || bool_decide (x = "trace").
Proof.
  clear repr_float repr_str set_literal json_dumps json_loads.
  apply eq_true_iff_eq.
  rewrite orb_true_iff, !bool_decide_eq_true, !elem_of_cons, elem_of_nil. tauto.
Qed.

Lemma operation_csv_row_key (path : string) (path_params : value) (method : string)
    (op : value) (r : row) :
  operation_csv_row path path_params method op = Ok r ->
  csv_row_key r = Some (path, upper method).
Proof.
  unfold operation_csv_row. intros H.
  repeat (apply bind_Ok_inv in H as (? & _ & H)).
  injection H as <-. reflexivity.
Qed.

Lemma csv_inner (path : string) (path_item path_params : value)
    (ops : list (string * value)) (acc rows : list row) :
  for_each ops (fun '(method, op) rows =>
      if negb (set_contains (lower method) HTTP_METHODS) then Ok rows
      else if negb (isinstance_dict op) then Ok rows
      else r <- operation_csv_row path path_params method op ;; Ok (rows ++ [r])) acc
    = Ok rows ->
  exists rs,
    rows = acc ++ rs
    /\ Forall2 (fun o r =>
                  exists pp, operation_csv_row (op_path o) pp (op_method o) (op_body o)
                             = Ok r)
         (flat_map (fun '(method, op) =>
                      if set_contains (lower method) HTTP_METHODS && isinstance_dict op
                      then [Operation path path_item method op] else []) ops)
         rs.
Proof.
  revert acc. induction ops as [|[method op] ops IH]; intros acc H; cbn [for_each] in H.
  - injection H as <-. exists []. rewrite app_nil_r. split; [reflexivity|constructor].
  - cbn [flat_map].
    destruct (set_contains (lower method) HTTP_METHODS); cbn [negb andb bind] in *.
    + destruct (isinstance_dict op); cbn [negb bind] in *.
      * apply bind_Ok_inv in H as (acc' & Hstep & H).
        apply bind_Ok_inv in Hstep as (r & Hr & Hstep). injection Hstep as <-.
        apply IH in H as (rs & -> & Hrows).
        exists (r :: rs). rewrite <- app_assoc. split; [reflexivity|].
        cbn [app]. constructor; [|exact Hrows].
        exists path_params. exact Hr.
      * apply IH in H. exact H.
    + apply IH in H. exact H.
Qed.

(** The rows [main] builds are one per unit with one of the eight verbs, in
    document order, each made by [operation_csv_row] from that unit. *)
Lemma main_rows_rows (spec : value) (built : list row) :
  main_rows spec = Ok built ->
  Forall2 (fun o r =>
             exists pp, operation_csv_row (op_path o) pp (op_method o) (op_body o) = Ok r)
          (csv_operations spec) built.
Proof.
  unfold main_rows, csv_operations, declared_paths. intros H.
  destruct spec as [| | | | | |top]; try discriminate H. cbn [get bind] in H.
  destruct (default (VDict []) (dict_lookup "paths" top)) as [| | | | | |path_items];
    try discriminate H.
  cbn [items bind] in H.
  assert (Hgen : forall acc rows,
             for_each path_items (fun '(path, methods) rows =>
               if negb (isinstance_dict methods) then Ok rows
               else
                 declared_params <- get methods "parameters" VNone ;;
                 path_params <- (if isinstance_list declared_params
                                 then get methods "parameters" (VList [])
                                 else Ok (VList [])) ;;
                 ops <- items methods ;;
                 for_each ops (fun '(method, op) rows =>
                   if negb (set_contains (lower method) HTTP_METHODS) then Ok rows
                   else if negb (isinstance_dict op) then Ok rows
                   else r <- operation_csv_row path path_params method op ;;
                        Ok (rows ++ [r]))
                 rows) acc = Ok rows ->
             exists rs, rows = acc ++ rs
               /\ Forall2 (fun o r =>
                             exists pp, operation_csv_row (op_path o) pp (op_method o)
                                          (op_body o) = Ok r)
                    (flat_map (fun '(path, path_item) =>
                                 csv_operations_of_path path path_item) path_items)
                    rs).
  { clear H. induction path_items as [|[path methods] path_items IH];
      intros acc rows H; cbn [for_each] in H.
    - injection H as <-. exists []. rewrite app_nil_r. split; [reflexivity|constructor].
    - apply bind_Ok_inv in H as (acc' & Hstep & H).
      apply IH in H as (rs & -> & Hrows). cbn [flat_map].
      destruct methods as [| | | | | |ops];
        try (injection Hstep as <-; exists rs; split; [reflexivity|exact Hrows]).
      cbn [isinstance_dict negb] in Hstep.
      apply bind_Ok_inv in Hstep as (dp & _ & Hstep).
      apply bind_Ok_inv in Hstep as (pp & _ & Hstep).
      cbn [items bind] in Hstep.
      apply (csv_inner path (VDict ops)) in Hstep as (rs0 & -> & Hrows0).
      exists (rs0 ++ rs). rewrite <- app_assoc. split; [reflexivity|].
      apply Forall2_app; assumption. }
  apply Hgen in H as (rs & -> & Hrows). exact Hrows.
Qed.

Lemma main_rows_keys (spec : value) (built : list row) :
  main_rows spec = Ok built ->
  map csv_row_key built = map (fun o => Some (op_key o)) (csv_operations spec).
Proof.
  intros H. apply main_rows_rows in H.
  apply Forall2_map_eq. eapply Forall2_impl; [exact H|].
  intros o r (pp & Hr). eapply operation_csv_row_key. exact Hr.
Qed.

(** Line 121: the Auth cell is made from the operation's own security value
    and from nothing else. *)
Lemma operation_csv_row_auth (path : string) (path_params : value) (method : string)
    (op : value) (r : row) :
  operation_csv_row path path_params method op = Ok r ->
  column "Auth (security)" r
  = VStr (match declared "security" op with
          | Some own => if truthy own then json_dumps own else ""
          | None => ""
          end).
Proof.
  unfold operation_csv_row. intros H.
  destruct op as [| | | | | |kvs]; try discriminate H.
  cbn [get bind declared] in *.
  apply bind_Ok_inv in H as (params_joined & _ & H).
  apply bind_Ok_inv in H as (req_body & _ & H).
  apply bind_Ok_inv in H as (status_codes & _ & H).
  injection H as <-.
  destruct (dict_lookup "security" kvs); reflexivity.
Qed.

Lemma operations_without_trace :
  layout_ok ->
  forall sw,
    operations sw
    = filter (fun o => lower (op_method o) <> "trace") (csv_operations sw).
Proof.
  intros Hl sw. unfold operations, csv_operations.
  induction (declared_paths sw) as [|[path path_item] items IH]; [reflexivity|].
  cbn [flat_map]. rewrite filter_app, <- IH. f_equal.
  unfold operations_of_path, csv_operations_of_path.
  destruct path_item as [| | | | | |ops]; try reflexivity.
  generalize (VDict ops). intros path_item.
  induction ops as [|[method op] ops IHops]; [reflexivity|].
  cbn [flat_map]. rewrite filter_app, <- IHops. f_equal.
  unfold not_an_operation.
  rewrite (excel_verbs _ Hl), (csv_verbs _ Hl), csv_verbs_split.
  destruct (isinstance_dict op);
    [|rewrite !andb_false_r, orb_true_r; reflexivity].
  rewrite andb_true_r. cbn [negb]. rewrite orb_false_r.
  destruct (decide (lower method = "trace")) as [Ht|Ht].
  - rewrite Ht.
    assert (E7 : bool_decide ("trace" ∈ ["get"; "put"; "post"; "delete"; "options";
                                         "head"; "patch"]) = false)
      by (vm_compute; reflexivity).
    rewrite E7, (bool_decide_eq_true_2 _ (eq_refl "trace")). cbn [orb negb].
    rewrite filter_cons_False by (cbn [op_method]; intros Hne; apply Hne; exact Ht).
    reflexivity.
  - rewrite (bool_decide_eq_false_2 _ Ht), orb_false_r.
    destruct (bool_decide _); cbn [negb]; [|reflexivity].
    rewrite filter_cons_True by (cbn [op_method]; exact Ht). reflexivity.
Qed.

(** X23: the two scripts list the same operations but for trace.  On one
    document, under any layout of the verb sets, the rows the CSV script
    builds follow the units whose key is one of its eight verbs, and the
    endpoints rows of the workbook are keyed as those rows are, in the same
    order, with the trace operations left out. *)
Theorem csv_rows_cover_endpoints (sw : value) (erows built : list row) :
  layout_ok ->
  extract_endpoints sw = Ok erows ->
  main_rows sw = Ok built ->
  map csv_row_key built = map (fun o => Some (op_key o)) (csv_operations sw)
  /\ map row_key erows
     = map (fun o => Some (op_key o))
         (filter (fun o => lower (op_method o) <> "trace") (csv_operations sw))
  /\ map row_key erows
     = filter (fun k => trace_key k = false) (map csv_row_key built).
Proof.
  intros Hl He Hb.
  assert (Hkeys := main_rows_keys sw built Hb).
  assert (Hrows : map row_key erows = map (fun o => Some (op_key o)) (operations sw)).
  { apply extract_endpoints_rows in He.
    apply Forall2_map_eq. eapply Forall2_impl; [exact He|].
    intros o e Ho. apply operation_row_inv in Ho.
    destruct Ho as (? & ? & ? & ? & ? & ? & ? & ? & ? & ? & Ho). apply Ho. }
  split; [exact Hkeys|].
  rewrite Hrows, (operations_without_trace Hl). split; [reflexivity|].
  rewrite Hkeys. clear.
  induction (csv_operations sw) as [|o os IH]; [reflexivity|].
  cbn [map]. rewrite !filter_cons, <- IH.
  destruct (decide (lower (op_method o) <> "trace")) as [Hne|He].
  - rewrite decide_True; [reflexivity|].
    unfold op_key, trace_key. apply String.eqb_neq. intros Hu. apply Hne.
    rewrite <- lower_upper, Hu. reflexivity.
  - rewrite decide_False; [reflexivity|].
    unfold op_key, trace_key. intros Hf. apply String.eqb_neq in Hf. apply Hf.
    destruct (decide (lower (op_method o) = "trace")) as [Ht|Ht]; [|contradiction].
    rewrite <- upper_lower, Ht. reflexivity.
Qed.

(** X24: the method cell of every row is one of the upper-case verbs: one of
    seven in the workbook, one of eight, TRACE included, in the CSV script,
    however the key was cased in the document. *)
Theorem method_cells_are_verbs (sw : value) :
  layout_ok ->
  (forall erows,
      extract_endpoints sw = Ok erows ->
      Forall (fun r => exists p m,
                  row_key r = Some (p, m)
                  /\ m ∈ ["GET"; "PUT"; "POST"; "DELETE"; "OPTIONS"; "HEAD"; "PATCH"])
             erows)
  /\ (forall built,
        main_rows sw = Ok built ->
        Forall (fun r => exists p m,
                    csv_row_key r = Some (p, m)
                    /\ m ∈ ["GET"; "POST"; "PUT"; "PATCH"; "DELETE"; "OPTIONS"; "HEAD";
                            "TRACE"])
               built).
Proof.
  intros Hl. split.
  - intros erows He.
    apply extract_endpoints_rows in He.
    eapply Forall2_Forall_r; [exact He|].
    apply Forall_forall. intros o Ho r Hr.
    apply operations_are_mappings in Ho as (_ & _ & Hn).
    apply operation_row_inv in Hr.
    destruct Hr as (? & ? & ? & ? & ? & ? & ? & ? & ? & ? & Hr).
    exists (op_path o), (upper (op_method o)).
    split; [apply Hr|].
    unfold not_an_operation in Hn. apply orb_false_iff in Hn as [Hn _].
    apply negb_false_iff in Hn. rewrite (excel_verbs _ Hl) in Hn.
    apply bool_decide_eq_true in Hn.
    rewrite <- upper_lower.
    apply (list_elem_of_fmap_2 upper) in Hn. exact Hn.
  - intros built Hb.
    assert (Hkeys := main_rows_keys sw built Hb).
    assert (Hops : Forall (fun o => lower (op_method o)
                                    ∈ ["get"; "post"; "put"; "patch"; "delete";
                                       "options"; "head"; "trace"])
                     (csv_operations sw)).
    { apply Forall_forall. intros o Ho. unfold csv_operations in Ho.
      apply list_elem_of_In in Ho. apply in_flat_map in Ho as ([path path_item] & _ & Ho).
      unfold csv_operations_of_path in Ho.
      destruct path_item as [| | | | | |ops]; try (destruct Ho).
      apply in_flat_map in Ho as ([method op] & _ & Ho).
      destruct (set_contains (lower method) HTTP_METHODS) eqn:Hc; [|destruct Ho].
      destruct (isinstance_dict op); cbn [andb] in Ho; [|destruct Ho].
      destruct Ho as [<-|[]]. cbn [op_method].
      rewrite (csv_verbs _ Hl) in Hc. apply bool_decide_eq_true in Hc. exact Hc. }
    clear Hb. revert built Hkeys.
    induction Hops as [|o os Ho _ IH]; intros built Hkeys;
      destruct built as [|r built]; try discriminate Hkeys; constructor.
    + injection Hkeys as Hr Hrest.
      exists (op_path o), (upper (op_method o)). split; [exact Hr|].
      rewrite <- upper_lower.
      apply (list_elem_of_fmap_2 upper) in Ho. exact Ho.
    + injection Hkeys as Hr Hrest. apply IH. exact Hrest.
Qed.

(** ** The claims that concern both scripts *)

(** C3 (as amended): in the workbook, an operation that declares a security
    key, even with an empty list or null as its value, has its security
    column rendered from that value alone (an empty list or null renders as
    null); an operation that declares none has the rendering of the
    document-level default; the document default plays no part in the first
    case.  In the CSV script the Auth cell is the serialized security value
    of the operation itself when that is not empty, and the empty text
    otherwise: the document-level default is not read, so an operation that
    declares no security key has an empty cell. *)
Theorem security_overrides_default :
  render_security (VList []) = Ok VNone
  /\ render_security VNone = Ok VNone
  /\ (forall (sw : value) (rows : list row),
        extract_endpoints sw = Ok rows ->
        Forall2 (fun o r =>
                   match declared "security" (op_body o) with
                   | Some own => render_security own = Ok (column "security" r)
                   | None =>
                       render_security (default (VList []) (declared "security" sw))
                       = Ok (column "security" r)
                   end)
                (operations sw) rows)
  /\ (forall (sw : value) (built : list row),
        main_rows sw = Ok built ->
        Forall2 (fun o r =>
                   column "Auth (security)" r
                   = VStr (match declared "security" (op_body o) with
                           | Some own => if truthy own then json_dumps own else ""
                           | None => ""
                           end))
                (csv_operations sw) built).
Proof.
  split; [reflexivity|]. split; [reflexivity|]. split.
  - intros sw rows H. apply extract_endpoints_rows in H.
    eapply Forall2_impl; [exact H|]. clear H.
    intros o r Hr.
    apply operation_row_inv in Hr
      as (_ & sw_security & security & _ & _ & _ & _ & _ & _ & _
          & _ & _ & Hsw & Hop & Hrender & _).
    apply get_declared in Hsw. apply get_declared in Hop.
    destruct (declared "security" (op_body o)) as [own|]; simpl in Hop; subst;
      exact Hrender.
  - intros sw built H. apply main_rows_rows in H.
    eapply Forall2_impl; [exact H|].
    intros o r (pp & Hr). eapply operation_csv_row_auth. exact Hr.
Qed.

(** C5 (as amended): the rows of every relation of the workbook come in
    the order of the document.  The endpoints rows follow the operations (paths as declared, then the verbs
    of each path as declared); the parameter rows follow the operations and,
    within one, its parameters as declared (the path item's, then its own);
    the response rows follow the operations and, within one, its responses
    as declared; tags, security schemes, models and the properties of each
    model follow their declarations.  Nothing is sorted there.  The CSV
    script builds its rows in document order too, one per unit with one of
    its eight verbs, and then sorts them: what it writes is those rows in
    the order of (API group text, path, method), rows with the same three
    cells staying in document order. *)
Theorem rows_in_document_order (sw : value) :
  (forall rows,
      extract_endpoints sw = Ok rows ->
      map row_key rows = map (fun o => Some (op_key o)) (operations sw))
  /\ (forall rows,
        extract_parameters sw = Ok rows ->
        map (fun r => (row_key r, column "name" r)) rows
        = flat_map (fun o => map (fun p => (Some (op_key o), field "name" p))
                                 (ok_or [] (operation_params o)))
                   (operations sw))
  /\ (forall rows,
        extract_responses sw = Ok rows ->
        map (fun r => (row_key r, column "status_code" r)) rows
        = flat_map (fun o => map (fun cr => (Some (op_key o), VStr (fst cr)))
                                 (ok_or [] (operation_responses o)))
                   (operations sw))
  /\ (forall rows,
        extract_tags sw = Ok rows ->
        map (column "name") rows = map (field "name") (declared_tags sw))
  /\ (forall rows,
        extract_securities sw = Ok rows ->
        map (column "name") rows = map (fun ns => VStr (fst ns)) (declared_schemes sw))
  /\ (forall model_rows prop_rows,
        extract_models_and_properties sw = Ok (model_rows, prop_rows) ->
        map (column "model_name") model_rows
        = map (fun nm => VStr (fst nm)) (declared_models sw)
        /\ map (fun r => (column "model_name" r, column "property_name" r)) prop_rows
           = flat_map (fun nm => map (fun np => (VStr (fst nm), VStr (fst np)))
                                     (declared_properties (snd nm)))
                      (declared_models sw))
  /\ (forall built,
        main_rows sw = Ok built ->
        map csv_row_key built = map (fun o => Some (op_key o)) (csv_operations sw))
  /\ (forall version servers rows,
        main sw = Ok (version, servers, rows) ->
        exists built,
          main_rows sw = Ok built
          /\ rows = sort_rows csv_sort_key built
          /\ rows ≡ₚ built
          /\ sorted_by csv_sort_key rows
          /\ (forall k, with_key csv_sort_key k rows = with_key csv_sort_key k built)).
Proof.
  split; [|split; [|split; [|split; [|split; [|split; [|split]]]]]].
  - intros rows H. apply extract_endpoints_rows in H.
    apply Forall2_map_eq. eapply Forall2_impl; [exact H|].
    intros o e Ho. apply operation_row_inv in Ho.
    destruct Ho as (? & ? & ? & ? & ? & ? & ? & ? & ? & ? & Ho). apply Ho.
  - intros rows H. apply extract_parameters_groups in H as (groups & Hg & ->).
    apply concat_map_flat_map. eapply Forall2_impl; [exact Hg|].
    intros o g Hrows.
    apply operation_parameter_rows_inv in Hrows as (params & -> & HF).
    simpl. apply Forall2_map_eq. eapply Forall2_impl; [exact HF|].
    intros p r [-> ->]. reflexivity.
  - intros rows H. apply extract_responses_groups in H as (groups & Hg & ->).
    apply concat_map_flat_map. eapply Forall2_impl; [exact Hg|].
    intros o g Hrows.
    apply operation_response_rows_inv in Hrows as (coded & -> & HF).
    simpl. apply Forall2_map_eq. eapply Forall2_impl; [exact HF|].
    intros cr r [-> ->]. reflexivity.
  - intros rows H. apply extract_tags_rows in H.
    apply Forall2_map_eq. eapply Forall2_impl; [exact H|].
    intros t r. apply tag_row_name.
  - intros rows H. apply extract_securities_rows in H.
    apply Forall2_map_eq. eapply Forall2_impl; [exact H|].
    intros ns r. apply security_row_name.
  - intros model_rows prop_rows H.
    apply extract_models_rows in H as (groups & HFm & HFp & ->). split.
    + apply Forall2_map_eq. eapply Forall2_impl; [exact HFm|].
      intros nm m. apply model_row_name.
    + apply concat_map_flat_map. eapply Forall2_impl; [exact HFp|].
      intros nm g. apply model_property_rows_inv.
  - apply main_rows_keys.
  - unfold main. intros version servers rows H.
    apply bind_Ok_inv in H as (openapi & _ & H).
    apply bind_Ok_inv in H as (v & _ & H).
    apply bind_Ok_inv in H as (ss & _ & H).
    apply bind_Ok_inv in H as (built & Hbuilt & H).
    injection H as _ _ <-.
    destruct (sort_rows_stable csv_sort_key built) as (Hp & Hs & Hk).
    exists built. split; [exact Hbuilt|]. split; [reflexivity|].
    split; [exact Hp|]. split; [exact Hs|exact Hk].
Qed.

End Interpreter.

(** ** Runs on the sample documents, and independence from the set layout *)

Lemma not_an_operation_layout (layout1 layout2 : list string -> list string)
    (method : string) (op : value) :
  (forall l, layout1 l ≡ₚ l) -> (forall l, layout2 l ≡ₚ l) ->
  not_an_operation layout1 method op = not_an_operation layout2 method op.
Proof.
  intros H1 H2. unfold not_an_operation, set_contains, list_http_methods.
  f_equal. f_equal. apply bool_decide_ext. rewrite H1, H2. reflexivity.
Qed.

Lemma extract_endpoints_layout (rf : float -> string) (rs : string -> string)
    (layout1 layout2 : list string -> list string) (sw : value) :
  (forall l, layout1 l ≡ₚ l) -> (forall l, layout2 l ≡ₚ l) ->
  extract_endpoints rf rs layout1 sw = extract_endpoints rf rs layout2 sw.
Proof.
  intros H1 H2. unfold extract_endpoints.
  do 5 (apply bind_ext; intros ?).
  apply for_each_ext. intros [path path_item] rows.
  destruct (negb (isinstance_dict path_item)); [reflexivity|].
  do 2 (apply bind_ext; intros ?).
  apply for_each_ext. intros [method op] rows'.
  rewrite (not_an_operation_layout layout1 layout2 method op H1 H2). reflexivity.
Qed.

Lemma extract_parameters_layout (rf : float -> string) (rs : string -> string)
    (layout1 layout2 : list string -> list string) (sw : value) :
  (forall l, layout1 l ≡ₚ l) -> (forall l, layout2 l ≡ₚ l) ->
  extract_parameters rf rs layout1 sw = extract_parameters rf rs layout2 sw.
Proof.
  intros H1 H2. unfold extract_parameters.
  do 2 (apply bind_ext; intros ?).
  apply for_each_ext. intros [path path_item] rows.
  destruct (negb (isinstance_dict path_item)); [reflexivity|].
  do 2 (apply bind_ext; intros ?).
  apply for_each_ext. intros [method op] rows'.
  rewrite (not_an_operation_layout layout1 layout2 method op H1 H2). reflexivity.
Qed.

Lemma extract_responses_layout (layout1 layout2 : list string -> list string)
    (sw : value) :
  (forall l, layout1 l ≡ₚ l) -> (forall l, layout2 l ≡ₚ l) ->
  extract_responses layout1 sw = extract_responses layout2 sw.
Proof.
  intros H1 H2. unfold extract_responses.
  do 2 (apply bind_ext; intros ?).
  apply for_each_ext. intros [path path_item] rows.
  destruct (negb (isinstance_dict path_item)); [reflexivity|].
  apply bind_ext; intros ?.
  apply for_each_ext. intros [method op] rows'.
  rewrite (not_an_operation_layout layout1 layout2 method op H1 H2). reflexivity.
Qed.

(** C9: two runs of the full extraction on the same parsed document return
    the same seven relations, row for row and cell for cell, whatever order
    the interpreter gives the elements of the verb set in either run; the
    only order the result follows is the document's. *)
Theorem extraction_deterministic (rf : float -> string) (rs : string -> string)
    (layout1 layout2 : list string -> list string) (sw : value) :
  (forall l, layout1 l ≡ₚ l) -> (forall l, layout2 l ≡ₚ l) ->
  export_tables rf rs layout1 sw = export_tables rf rs layout2 sw.
Proof.
  intros H1 H2. unfold export_tables.
  rewrite (extract_endpoints_layout rf rs layout1 layout2 sw H1 H2).
  rewrite (extract_parameters_layout rf rs layout1 layout2 sw H1 H2).
  rewrite (extract_responses_layout layout1 layout2 sw H1 H2).
  reflexivity.
Qed.

Lemma extraction_deterministic_witness :
  (forall l, as_written l ≡ₚ l) /\ (forall l, reversed l ≡ₚ l)
  /\ export_tables no_float quoted as_written pet_doc
     = export_tables no_float quoted reversed pet_doc.
Proof.
  split; [intros l; reflexivity|].
  split; [intros l; symmetry; apply Permutation_rev|].
  apply extraction_deterministic.
  - intros l. reflexivity.
  - intros l. symmetry. apply Permutation_rev.
Defined.

(** C1: the claim does not hold of the code.  A parameter, a tag or a model
    that is not a mapping is not skipped: the extractor calls [.get] on it
    and the whole extraction raises, also for the well-formed siblings; a
    parameter list that is a number raises in both the endpoints and the
    parameters extractor. *)
Theorem malformed_units_raise :
  extract_parameters no_float quoted as_written bad_parameter_doc = Raise AttributeError
  /\ extract_tags bad_tag_doc = Raise AttributeError
  /\ extract_models_and_properties no_float quoted bad_model_doc = Raise AttributeError
  /\ extract_endpoints no_float quoted as_written bad_parameter_list_doc = Raise TypeError
  /\ extract_parameters no_float quoted as_written bad_parameter_list_doc = Raise TypeError.
Proof. repeat split; vm_compute; reflexivity. Qed.

(** What the guards do cover: a path item, an operation slot or a response
    that is no mapping is passed over and its siblings still yield rows. *)
Example guarded_units_are_skipped :
  map row_key (ok_or [] (extract_endpoints no_float quoted as_written skipped_units_doc))
  = [Some ("/a", "POST")]
  /\ map (column "status_code")
         (ok_or [] (extract_responses as_written skipped_units_doc))
     = [VStr "404"].
Proof. split; vm_compute; reflexivity. Qed.



Lemma security_overrides_default_witness :
  exists rows,
    extract_endpoints no_float quoted as_written secured_doc = Ok rows
    /\ map (column "security") rows = [VNone; VStr "api_key"; VStr "oauth(read, write)"]
    /\ Forall2 (fun o r =>
                  match declared "security" (op_body o) with
                  | Some own =>
                      render_security no_float quoted own = Ok (column "security" r)
                  | None =>
                      render_security no_float quoted
                        (default (VList []) (declared "security" secured_doc))
                      = Ok (column "security" r)
                  end)
               (operations as_written secured_doc) rows.
Proof.
  exists (ok_or [] (extract_endpoints no_float quoted as_written secured_doc)).
  split; [vm_compute; reflexivity|]. split; [vm_compute; reflexivity|].
  destruct (security_overrides_default no_float quoted as_written any_dumps)
    as (_ & _ & Hw & _).
  apply Hw. vm_compute. reflexivity.
Defined.

(** C3, the claim as stated fails for the CSV script: the document declares
    a default and the operation declares no security; the workbook renders
    the default, the CSV script an empty cell. *)
Lemma csv_script_ignores_default_security :
  map (column "security")
      (ok_or [] (extract_endpoints no_float quoted as_written inherited_security_doc))
  = [VStr "api_key"]
  /\ map (column "Auth (security)")
        (ok_or [] (main_rows no_float quoted as_written any_dumps
                     inherited_security_doc))
     = [VStr ""]
  /\ map (fun o => declared "security" (op_body o))
        (csv_operations as_written inherited_security_doc)
     = [None].
Proof. repeat split; vm_compute; reflexivity. Qed.

(** C4, the claim as stated fails: two parameters named [a], one with a
    null location and one located at [None], are rendered alike and collapse
    to one entry; so do one located at [q] and one at [q) : x]. *)
Lemma same_name_other_location_collapses :
  merged_params no_float quoted
    (VList [null_location_param; none_location_param]) (VList [])
  = Ok ["a (None)"]
  /\ field "name" null_location_param = field "name" none_location_param
  /\ field "in" null_location_param = VNone
  /\ field "in" none_location_param = VStr "None"
  /\ merged_params no_float quoted (VList [paren_param_1; paren_param_2]) (VList [])
     = Ok ["a (q) : x) : y"]
  /\ field "name" paren_param_1 = field "name" paren_param_2
  /\ field "in" paren_param_1 = VStr "q"
  /\ field "in" paren_param_2 = VStr "q) : x".
Proof. repeat split; vm_compute; reflexivity. Qed.

Lemma merger_concat_dedup_witness :
  merged_params no_float quoted (VList [id_param]) (VList [id_param; id_query_param])
  = Ok ["id (path)* : string"; "id (query)"]
  /\ description_of no_float quoted id_param
     <> description_of no_float quoted id_query_param
  /\ description_of no_float quoted id_query_param
     ∈ ["id (path)* : string"; "id (query)"].
Proof.
  destruct (merger_concat_dedup no_float quoted [id_param; id_query_param] [id_param])
    as (Hm & _ & _ & _ & _ & _ & Hgen & Hret).
  split; [rewrite Hm; vm_compute; reflexivity|].
  destruct (Hret id_param id_query_param "path" "query") as (Hne & _ & Hin).
  - apply list_elem_of_filter. split; [exact I|left].
  - apply list_elem_of_filter. split; [exact I|right; left].
  - reflexivity.
  - reflexivity.
  - reflexivity.
  - vm_compute. right. left.
  - vm_compute. left.
  - discriminate.
  - split; [exact Hne|]. vm_compute. right. left.
Defined.

(** C6, the claim as stated fails: a host that is present but empty gives
    null, not a URL. *)
Lemma empty_host_gives_null :
  build_full_url_template no_float quoted (VList [VStr "http"]) (VStr "") (VStr "/v1")
                          "/pets"
  = Ok VNone.
Proof. reflexivity. Qed.

Lemma url_template_witness :
  build_full_url_template no_float quoted (VList [VStr "http"])
                          (VStr "api.example.com") (VStr "/v1") "/pets"
  = Ok (VStr "http://api.example.com/v1/pets")
  /\ build_full_url_template no_float quoted VNone VNone (VStr "/v1") "/pets" = Ok VNone
  /\ declared "host" secured_doc = None
  /\ Forall (fun r => column "full_url_template" r = VNone)
            (ok_or [] (extract_endpoints no_float quoted as_written secured_doc)).
Proof.
  destruct (url_template no_float quoted as_written)
    as (Hnull & Hfirst & _ & _ & _ & Hdoc).
  split; [apply (Hfirst (VStr "http") []); reflexivity|].
  split; [apply Hnull; reflexivity|].
  split; [reflexivity|].
  apply (Hdoc secured_doc); [reflexivity | vm_compute; reflexivity].
Defined.

Lemma dedup_idempotent_witness :
  Forall (fun p => isinstance_dict p = true) [id_param; id_query_param]
  /\ NoDup (map (description_of no_float quoted) [id_param; id_query_param])
  /\ merged_params no_float quoted (VList [id_param; id_query_param]) (VList [])
     = Ok (map (description_of no_float quoted) [id_param; id_query_param]).
Proof.
  assert (Hd : Forall (fun p => isinstance_dict p = true) [id_param; id_query_param])
    by (repeat constructor).
  assert (Hn : NoDup (map (description_of no_float quoted) [id_param; id_query_param]))
    by (apply (bool_decide_unpack _); vm_compute; exact I).
  split; [exact Hd|]. split; [exact Hn|].
  destruct (dedup_idempotent no_float quoted) as (_ & _ & Hkept & _).
  apply Hkept; assumption.
Defined.

(** C8, the claim as stated fails: the first tag may be the empty string,
    and then so is api_group. *)
Lemma api_group_can_be_empty :
  exists rows,
    extract_endpoints no_float quoted as_written empty_tag_doc = Ok rows
    /\ map (column "api_group") rows = [VStr ""].
Proof.
  exists (ok_or [] (extract_endpoints no_float quoted as_written empty_tag_doc)).
  split; vm_compute; reflexivity.
Qed.

Lemma api_group_first_tag_witness :
  exists rows,
    extract_endpoints no_float quoted as_written pet_doc = Ok rows
    /\ map (column "api_group") rows = [VStr "Pets"; VNone]
    /\ Forall2 (fun o r =>
                  let tags := default (VList []) (declared "tags" (op_body o)) in
                  (forall t rest, tags = VList (t :: rest) -> column "api_group" r = t)
                  /\ (truthy tags = false -> column "api_group" r = VNone)
                  /\ (column "api_group" r = VStr "" <->
                      exists rest, tags = VList (VStr "" :: rest)))
               (operations as_written pet_doc) rows.
Proof.
  exists (ok_or [] (extract_endpoints no_float quoted as_written pet_doc)).
  split; [vm_compute; reflexivity|]. split; [vm_compute; reflexivity|].
  apply (api_group_first_tag no_float quoted as_written).
  vm_compute. reflexivity.
Defined.

(** C10, the claim as stated fails: [get] and [GET] in one path item are two
    operations with one key, so the parameter row of [/a] has two endpoints
    rows with its (path, method). *)
Lemma case_variant_verbs_share_a_key :
  exists erows prows,
    extract_endpoints no_float quoted as_written case_variant_doc = Ok erows
    /\ extract_parameters no_float quoted as_written case_variant_doc = Ok prows
    /\ map row_key prows = [Some ("/a", "GET")]
    /\ length (filter (fun e => row_key e = Some ("/a", "GET")) erows) = 2%nat.
Proof.
  exists (ok_or [] (extract_endpoints no_float quoted as_written case_variant_doc)),
         (ok_or [] (extract_parameters no_float quoted as_written case_variant_doc)).
  repeat split; vm_compute; reflexivity.
Qed.

Lemma rows_have_an_endpoint_witness :
  exists erows prows rrows,
    extract_endpoints no_float quoted as_written pet_doc = Ok erows
    /\ extract_parameters no_float quoted as_written pet_doc = Ok prows
    /\ extract_responses as_written pet_doc = Ok rrows
    /\ NoDup (map op_key (operations as_written pet_doc))
    /\ length (prows ++ rrows) = 5%nat
    /\ forall r, r ∈ prows ++ rrows ->
         exists k,
           row_key r = Some k
           /\ (exists e, e ∈ erows /\ row_key e = Some k)
           /\ (NoDup (map op_key (operations as_written pet_doc)) ->
               length (filter (fun e => row_key e = Some k) erows) = 1%nat).
Proof.
  exists (ok_or [] (extract_endpoints no_float quoted as_written pet_doc)),
         (ok_or [] (extract_parameters no_float quoted as_written pet_doc)),
         (ok_or [] (extract_responses as_written pet_doc)).
  split; [vm_compute; reflexivity|]. split; [vm_compute; reflexivity|].
  split; [vm_compute; reflexivity|].
  split; [apply (bool_decide_unpack _); vm_compute; exact I|].
  split; [vm_compute; reflexivity|].
  apply (rows_have_an_endpoint no_float quoted as_written pet_doc);
    vm_compute; reflexivity.
Defined.

Lemma rows_in_document_order_witness :
  map row_key (ok_or [] (extract_endpoints no_float quoted as_written pet_doc))
  = [Some ("/pets", "GET"); Some ("/pets/{id}", "GET")]
  /\ map (fun r => (row_key r, column "name" r))
         (ok_or [] (extract_parameters no_float quoted as_written pet_doc))
     = flat_map (fun o => map (fun p => (Some (op_key o), field "name" p))
                              (ok_or [] (operation_params o)))
                (operations as_written pet_doc)
  /\ map (fun r => (row_key r, column "status_code" r))
         (ok_or [] (extract_responses as_written pet_doc))
     = [(Some ("/pets", "GET"), VStr "200");
        (Some ("/pets/{id}", "GET"), VStr "200");
        (Some ("/pets/{id}", "GET"), VStr "404")]
  /\ map (column "name") (ok_or [] (extract_tags catalog_doc))
     = [VStr "pets"; VStr "store"]
  /\ map (column "name") (ok_or [] (extract_securities no_float quoted catalog_doc))
     = [VStr "oauth"; VStr "api_key"]
  /\ map (fun r => (column "model_name" r, column "property_name" r))
         (snd (ok_or ([], []) (extract_models_and_properties no_float quoted
                                                             catalog_doc)))
     = [(VStr "Pet", VStr "name"); (VStr "Pet", VStr "tags")].
Proof.
  destruct (rows_in_document_order no_float quoted as_written unused_dumps pet_doc)
    as (He & Hp & Hr & _).
  destruct (rows_in_document_order no_float quoted as_written unused_dumps catalog_doc)
    as (_ & _ & _ & Ht & Hs & Hm & _).
  split.
  { rewrite (He (ok_or [] (extract_endpoints no_float quoted as_written pet_doc)))
      by (vm_compute; reflexivity).
    vm_compute. reflexivity. }
  split; [apply Hp; vm_compute; reflexivity|].
  split.
  { rewrite (Hr (ok_or [] (extract_responses as_written pet_doc)))
      by (vm_compute; reflexivity).
    vm_compute. reflexivity. }
  split.
  { rewrite (Ht (ok_or [] (extract_tags catalog_doc))) by (vm_compute; reflexivity).
    vm_compute. reflexivity. }
  split.
  { rewrite (Hs (ok_or [] (extract_securities no_float quoted catalog_doc)))
      by (vm_compute; reflexivity).
    vm_compute. reflexivity. }
  destruct (Hm (fst (ok_or ([], []) (extract_models_and_properties
                                       no_float quoted catalog_doc)))
               (snd (ok_or ([], []) (extract_models_and_properties
                                       no_float quoted catalog_doc))))
    as [_ Hprops]; [vm_compute; reflexivity|].
  rewrite Hprops. vm_compute. reflexivity.
Defined.

(** C5, the claim as stated fails for the CSV script: the document declares
    [/pets] before [/pets/{id}], and so the rows are built; the rows written
    have [/pets/{id}], whose operation has no tag, first. *)
Lemma csv_rows_leave_document_order :
  map fst (ok_or [] (items (default VNone (declared "paths" pet_doc))))
  = ["/pets"; "/pets/{id}"]
  /\ map csv_row_key
        (ok_or [] (main_rows no_float quoted as_written unused_dumps pet_doc))
     = [Some ("/pets", "GET"); Some ("/pets/{id}", "GET")]
  /\ map csv_row_key
        (snd (ok_or (VNone, [], [])
                (main no_float quoted as_written unused_dumps pet_doc)))
     = [Some ("/pets/{id}", "GET"); Some ("/pets", "GET")].
Proof. repeat split; vm_compute; reflexivity. Qed.

(** X5: the method filter under any layout of the verb set: an entry of a path
    item is an operation exactly when its key, lower-cased, is one of the
    seven verbs and its value is a mapping. *)
Theorem method_filter (layout : list string -> list string) (method : string)
    (op : value) :
  (forall l, layout l ≡ₚ l) ->
  not_an_operation layout method op = false
  <-> lower method ∈ ["get"; "put"; "post"; "delete"; "options"; "head"; "patch"]
      /\ isinstance_dict op = true.
Proof.
  intros Hl. unfold not_an_operation, set_contains, list_http_methods.
  rewrite orb_false_iff, !negb_false_iff, bool_decide_eq_true, Hl. reflexivity.
Qed.

Lemma method_filter_witness :
  (forall l, reversed l ≡ₚ l)
  /\ not_an_operation reversed "PaTcH" (VDict []) = false
  /\ not_an_operation reversed "parameters" (VList []) = true
  /\ not_an_operation reversed "trace" (VDict []) = true.
Proof.
  assert (Hl : forall l, reversed l ≡ₚ l)
    by (intros l; symmetry; apply Permutation_rev).
  split; [exact Hl|].
  split; [|split; vm_compute; reflexivity].
  apply (method_filter reversed "PaTcH" (VDict []) Hl).
  split; [|reflexivity].
  vm_compute. repeat (first [left; reflexivity | right]).
Defined.

Lemma responses_count_counts_keys_witness :
  exists rows,
    extract_endpoints no_float quoted as_written pet_doc = Ok rows
    /\ map (column "responses_count") rows = [VInt 1; VInt 2]
    /\ Forall2 (fun o r =>
                  (forall coded,
                      declared "responses" (op_body o) = Some (VDict coded) ->
                      column "responses_count" r = VInt (Z.of_nat (length coded)))
                  /\ (declared "responses" (op_body o) = None ->
                      column "responses_count" r = VInt 0))
               (operations as_written pet_doc) rows.
Proof.
  exists (ok_or [] (extract_endpoints no_float quoted as_written pet_doc)).
  split; [vm_compute; reflexivity|]. split; [vm_compute; reflexivity|].
  apply (responses_count_counts_keys no_float quoted as_written).
  vm_compute. reflexivity.
Defined.

Lemma degenerate_documents_witness :
  extract_endpoints no_float quoted as_written (VDict [("swagger", VStr "2.0")]) = Ok []
  /\ extract_tags (VDict [("swagger", VStr "2.0")]) = Ok []
  /\ extract_securities no_float quoted (VDict [("swagger", VStr "2.0")]) = Ok []
  /\ extract_models_and_properties no_float quoted (VDict [("swagger", VStr "2.0")])
     = Ok ([], []).
Proof.
  destruct (degenerate_documents no_float quoted as_written [("swagger", VStr "2.0")])
    as (Hp & Ht & Hs & Hm).
  split; [apply Hp; reflexivity|].
  split; [apply Ht; reflexivity|].
  split; [apply Hs; reflexivity|].
  apply Hm. reflexivity.
Defined.

Lemma join_or_none_contract_witness :
  join_or_none no_float quoted (VList []) ", " = Ok VNone
  /\ join_or_none no_float quoted VNone ", " = Ok VNone
  /\ join_or_none no_float quoted (VList [VStr "Pets"; VInt 7]) ", " = Ok (VStr "Pets, 7").
Proof.
  destruct (join_or_none_contract no_float quoted ", ") as (Hnone & Hjoin).
  split; [apply Hnone; reflexivity|].
  split; [apply Hnone; reflexivity|].
  apply (Hjoin (VStr "Pets") [VInt 7]).
Defined.

(** The scenario of the operation row: host [api.example.com], base path
    [/v1], scheme [http], a [get] on [/pets] tagged [Pets] with no parameter
    and one response. *)
Example pets_operation_row :
  exists r rest,
    extract_endpoints no_float quoted as_written pet_doc = Ok (r :: rest)
    /\ column "api_group" r = VStr "Pets"
    /\ column "method" r = VStr "GET"
    /\ column "full_url_template" r = VStr "http://api.example.com/v1/pets"
    /\ column "parameters_count" r = VInt 0
    /\ column "responses_count" r = VInt 1.
Proof.
  exists (hd [] (ok_or [] (extract_endpoints no_float quoted as_written pet_doc))),
         (tl (ok_or [] (extract_endpoints no_float quoted as_written pet_doc))).
  repeat split; vm_compute; reflexivity.
Qed.

(** The scenario of the merged list: the path item declares [id] and the
    operation declares nothing. *)
Example path_level_parameter_merged :
  merged_params no_float quoted VNone (VList [id_param]) = Ok ["id (path)* : string"]
  /\ collect_params no_float quoted VNone (VList [id_param]) = Ok "id (path)* : string".
Proof. split; vm_compute; reflexivity. Qed.

(** The scenario of the model [Pet]: one row per property, the element type
    of the array next to its outer type. *)
Example pet_property_rows :
  map (fun r => (column "model_name" r, column "property_name" r,
                 column "type" r, column "items_type" r))
      (snd (ok_or ([], []) (extract_models_and_properties no_float quoted catalog_doc)))
  = [(VStr "Pet", VStr "name", VStr "string", VNone);
     (VStr "Pet", VStr "tags", VStr "array", VStr "string")].
Proof. vm_compute. reflexivity. Qed.

Lemma non_mapping_unit_aborts_witness :
  (exists e, extract_parameters no_float quoted as_written bad_parameter_doc = Raise e)
  /\ (exists e, extract_tags bad_tag_doc = Raise e).
Proof.
  destruct (non_mapping_unit_aborts no_float quoted as_written bad_parameter_doc)
    as (Hp & _).
  destruct (non_mapping_unit_aborts no_float quoted as_written bad_tag_doc)
    as (_ & Ht).
  split.
  - apply (Hp (Operation "/a"
                 (VDict [("get", VDict [("parameters", VList [VStr "id"])])])
                 "get" (VDict [("parameters", VList [VStr "id"])]))
              [VStr "id"] (VStr "id")).
    + vm_compute. left.
    + reflexivity.
    + left.
    + reflexivity.
  - apply (Ht (VStr "pets")); [vm_compute; left | reflexivity].
Defined.

(** ** The further properties on the samples *)

Lemma relations_have_fixed_columns_witness :
  Forall (fun r => map fst r = endpoints_columns)
         (ok_or [] (extract_endpoints no_float quoted as_written pet_doc))
  /\ Forall (fun r => map fst r = tags_columns) (ok_or [] (extract_tags catalog_doc)).
Proof.
  destruct (relations_have_fixed_columns no_float quoted as_written pet_doc)
    as (He & _).
  destruct (relations_have_fixed_columns no_float quoted as_written catalog_doc)
    as (_ & _ & _ & Ht & _).
  split; [apply He | apply Ht]; vm_compute; reflexivity.
Defined.

Lemma rows_share_operation_identity_witness :
  exists pgroups rgroups,
    ok_or [] (extract_parameters no_float quoted as_written pet_doc) = concat pgroups
    /\ ok_or [] (extract_responses as_written pet_doc) = concat rgroups
    /\ Forall2 (fun (e : row) (g : list row) =>
                  Forall (fun r : row =>
                            column "api_group" r = column "api_group" e
                            /\ column "operationId" r = column "operationId" e) g)
               (ok_or [] (extract_endpoints no_float quoted as_written pet_doc)) pgroups
    /\ Forall2 (fun (e : row) (g : list row) =>
                  Forall (fun r : row =>
                            column "api_group" r = column "api_group" e
                            /\ column "operationId" r = column "operationId" e) g
                  /\ Z.of_nat (length g) <= int_cell (column "responses_count" e))
               (ok_or [] (extract_endpoints no_float quoted as_written pet_doc)) rgroups.
Proof.
  apply (rows_share_operation_identity no_float quoted as_written pet_doc);
    vm_compute; reflexivity.
Defined.

Lemma parameter_rows_total_witness :
  Z.of_nat (length (ok_or [] (extract_parameters no_float quoted as_written pet_doc))) = 2
  /\ foldr (fun (e : row) (total : Z) => int_cell (column "parameters_count" e) + total) 0
           (ok_or [] (extract_endpoints no_float quoted as_written pet_doc))
     = Z.of_nat (length (ok_or [] (extract_parameters no_float quoted as_written pet_doc))).
Proof.
  split; [vm_compute; reflexivity|].
  apply (parameter_rows_total no_float quoted as_written pet_doc);
    vm_compute; reflexivity.
Defined.

Lemma content_types_override_default_witness :
  Forall2 (fun (o : operation) (r : row) =>
             match declared "consumes" (op_body o) with
             | Some own => join_or_none no_float quoted own default_sep
                           = Ok (column "consumes" r)
             | None => join_or_none no_float quoted
                         (default VNone (declared "consumes" pet_doc)) default_sep
                       = Ok (column "consumes" r)
             end
             /\ match declared "produces" (op_body o) with
                | Some own => join_or_none no_float quoted own default_sep
                              = Ok (column "produces" r)
                | None => join_or_none no_float quoted
                            (default VNone (declared "produces" pet_doc)) default_sep
                          = Ok (column "produces" r)
                end)
          (operations as_written pet_doc)
          (ok_or [] (extract_endpoints no_float quoted as_written pet_doc)).
Proof.
  apply (content_types_override_default no_float quoted as_written pet_doc).
  vm_compute. reflexivity.
Defined.

Lemma parameter_row_succeeds_iff_witness :
  (exists r, parameter_row no_float quoted VNone VNone "GET" "/pets/{id}" id_param = Ok r)
  /\ parameter_ok id_param = true.
Proof.
  split; [|reflexivity].
  apply (proj2 (parameter_row_succeeds_iff no_float quoted VNone VNone "GET"
                  "/pets/{id}" id_param)).
  reflexivity.
Defined.

Lemma extract_parameters_succeeds_iff_witness :
  exists rows, extract_parameters no_float quoted as_written pet_doc = Ok rows.
Proof.
  apply (proj2 (extract_parameters_succeeds_iff no_float quoted as_written pet_doc)).
  split; vm_compute; reflexivity.
Defined.

Lemma extract_tags_succeeds_iff_witness :
  exists rows, extract_tags catalog_doc = Ok rows.
Proof.
  apply (proj2 (extract_tags_succeeds_iff catalog_doc)).
  split; [|split]; vm_compute; reflexivity.
Defined.

Lemma security_rendering_witness :
  flatten_security
    (VList (map requirement_value [[("oauth", ["read"; "write"])]; [("api_key", [])]]))
  = Ok ["oauth(read, write)"; "api_key"]
  /\ render_security no_float quoted
       (VList (map requirement_value [[("oauth", ["read"; "write"])]; [("api_key", [])]]))
     = Ok (VStr "oauth(read, write), api_key").
Proof.
  exact (security_rendering no_float quoted
           [[("oauth", ["read"; "write"])]; [("api_key", [])]]).
Defined.

Lemma collect_params_succeeds_iff_witness :
  (exists text, collect_params no_float quoted (VList [id_param]) VNone = Ok text)
  /\ joinable (VInt 7) = false.
Proof.
  split; [|reflexivity].
  apply (proj2 (collect_params_succeeds_iff no_float quoted (VList [id_param]) VNone)).
  split; reflexivity.
Defined.

Lemma request_body_text_witness :
  get_request_body
    (VDict [("requestBody",
             VDict [("required", VBool true);
                    ("content", VDict [("application/json", VDict []);
                                       ("text/xml", VDict [])])])])
  = Ok "required (application/json, text/xml)".
Proof.
  destruct (request_body_text
              [("requestBody",
                VDict [("required", VBool true);
                       ("content", VDict [("application/json", VDict []);
                                          ("text/xml", VDict [])])])])
    as (_ & _ & H & _).
  apply (H [("application/json", VDict []); ("text/xml", VDict [])]).
  - reflexivity.
  - reflexivity.
  - vm_compute. discriminate.
Defined.

Lemma detect_servers_on_mapping_witness :
  detect_servers no_float quoted servers_doc
  = Ok [VStr "https://a.example.com"; VStr ""].
Proof.
  destruct (detect_servers_on_mapping no_float quoted
              (ok_or [] (items servers_doc))) as (H & _).
  apply (H [VDict [("url", VStr "https://a.example.com")];
            VDict [("description", VStr "no url")]]).
  - reflexivity.
  - repeat constructor.
Defined.

Lemma url_template_extends_server_url_witness :
  exists base,
    detect_servers no_float quoted pet_doc = Ok [VStr base]
    /\ build_full_url_template no_float quoted (VList [VStr "http"])
         (VStr "api.example.com") (VStr "/v1") "/pets"
       = Ok (VStr (base +:+ "/pets")).
Proof.
  apply (url_template_extends_server_url no_float quoted (ok_or [] (items pet_doc))
           (VStr "api.example.com") "/pets").
  - reflexivity.
  - reflexivity.
  - reflexivity.
  - left. reflexivity.
  - right. left. reflexivity.
Defined.

Lemma url_template_differs_from_server_url_witness :
  (build_full_url_template no_float quoted (VList []) (VStr "") VNone "/pets" = Ok VNone
   /\ exists url, detect_servers no_float quoted (VDict [("host", VStr "")])
                  = Ok [VStr url])
  /\ detect_servers no_float quoted
       (VDict [("host", VStr "api.example.com"); ("basePath", VNone)])
     = Ok [VStr "https://api.example.comNone"]
  /\ build_full_url_template no_float quoted (VList []) (VStr "api.example.com") VNone
       "/pets"
     = Ok (VStr "https://api.example.com/pets").
Proof.
  destruct (url_template_differs_from_server_url no_float quoted
              [("host", VStr "")] (VStr "") "/pets" eq_refl eq_refl) as (Hempty & _).
  destruct (url_template_differs_from_server_url no_float quoted
              [("host", VStr "api.example.com"); ("basePath", VNone)]
              (VStr "api.example.com") "/pets" eq_refl eq_refl) as (_ & Hnull).
  split; [apply Hempty; reflexivity|].
  apply Hnull; reflexivity.
Defined.

Lemma csv_rows_sorted_witness :
  map csv_sort_key
      (snd (ok_or (VNone, [], []) (main no_float quoted as_written unused_dumps pet_doc)))
  = [("", "/pets/{id}", "GET"); ("Pets", "/pets", "GET")]
  /\ exists built,
       main_rows no_float quoted as_written unused_dumps pet_doc = Ok built
       /\ snd (ok_or (VNone, [], [])
                 (main no_float quoted as_written unused_dumps pet_doc)) ≡ₚ built
       /\ sorted_by csv_sort_key
            (snd (ok_or (VNone, [], [])
                    (main no_float quoted as_written unused_dumps pet_doc)))
       /\ (forall k,
              with_key csv_sort_key k
                (snd (ok_or (VNone, [], [])
                        (main no_float quoted as_written unused_dumps pet_doc)))
              = with_key csv_sort_key k built)
       /\ Forall csv_row_shape
            (snd (ok_or (VNone, [], [])
                    (main no_float quoted as_written unused_dumps pet_doc))).
Proof.
  split; [vm_compute; reflexivity|].
  apply (csv_rows_sorted no_float quoted as_written unused_dumps pet_doc
           (VStr "2.0") [VStr "http://api.example.com/v1"]).
  vm_compute. reflexivity.
Defined.

Lemma load_json_recovers_object_witness :
  load_json only_empty_object "Swagger export: {} (end of file)" = Some (VDict []).
Proof.
  destruct (load_json_recovers_object only_empty_object) as (_ & H & _).
  apply (H "Swagger export: " "" " (end of file)"); reflexivity.
Defined.

Lemma merge_csv_files_rows_witness :
  merge_csv_files String.eqb "merged_output.csv" sample_listing sample_read
  = Written [["SourceFile"; "id"; "name"];
             ["a.csv"; "1"; "x"];
             ["B.CSV"; "2"; "y"];
             ["B.CSV"; "3"; "z"]]
  /\ merge_csv_files String.eqb "merged_output.csv"
       (sample_listing ++ ["merged_output.csv"]) sample_read
     = Reads_own_output.
Proof.
  destruct (merge_csv_files_rows String.eqb "merged_output.csv" sample_listing
              sample_read) as (H & _).
  destruct (merge_csv_files_rows String.eqb "merged_output.csv"
              (sample_listing ++ ["merged_output.csv"]) sample_read)
    as (_ & _ & _ & Hown).
  split.
  - rewrite H; [vm_compute; reflexivity|].
    vm_compute. repeat constructor.
  - apply (Hown ["a.csv"; "empty.csv"; "B.CSV"] "merged_output.csv" [] "a.csv").
    + vm_compute. reflexivity.
    + reflexivity.
    + left.
    + reflexivity.
    + vm_compute. discriminate.
Defined.

Lemma csv_rows_cover_endpoints_witness :
  layout_ok reversed
  /\ map csv_row_key
         (ok_or [] (main_rows no_float quoted reversed unused_dumps trace_doc))
     = [Some ("/a", "TRACE"); Some ("/a", "GET")]
  /\ map row_key (ok_or [] (extract_endpoints no_float quoted reversed trace_doc))
     = filter (fun k => trace_key k = false)
         (map csv_row_key
              (ok_or [] (main_rows no_float quoted reversed unused_dumps trace_doc))).
Proof.
  assert (Hl : layout_ok reversed)
    by (intros l; symmetry; apply Permutation_rev).
  split; [exact Hl|]. split; [vm_compute; reflexivity|].
  apply (csv_rows_cover_endpoints no_float quoted reversed unused_dumps trace_doc
           _ _ Hl); vm_compute; reflexivity.
Defined.

Lemma method_cells_are_verbs_witness :
  layout_ok reversed
  /\ Forall (fun r => exists p m,
                 row_key r = Some (p, m)
                 /\ m ∈ ["GET"; "PUT"; "POST"; "DELETE"; "OPTIONS"; "HEAD"; "PATCH"])
            (ok_or [] (extract_endpoints no_float quoted reversed case_variant_doc)).
Proof.
  assert (Hl : layout_ok reversed)
    by (intros l; symmetry; apply Permutation_rev).
  split; [exact Hl|].
  destruct (method_cells_are_verbs no_float quoted reversed unused_dumps
              case_variant_doc Hl) as (H & _).
  apply H. vm_compute. reflexivity.
Defined.
